(** * The GraphQL request pipeline and its HTTP coordinator

    A shallow embedding of
    - [GraphQLRequestPipeline.processRequest]
      (packages/apollo-server-core/src/requestPipeline.ts), and
    - [runHttpQuery] with [throwHttpGraphQLError] and [HttpQueryError]
      (the HTTP-query coordinator of apollo-server-core).

    Asynchronous code is embedded in a state-and-exception monad over a
    [World] holding the persisted-query store, the cache writes still in
    flight, the console and a trace of every call made on a collaborator.
    Collaborators that live outside these two files (graphql-js, the
    host's crypto and JSON, apollo-server-errors, graphql-extensions) are
    fields of an environment record [Env]; their results are whatever the
    environment says, nothing is assumed about them unless a theorem
    states it as a hypothesis. graphql-js's [parse], [validate] and
    [execute], the extension stack's [format] and [willSendResponse],
    [formatResponse] and the listeners' hooks may throw; the did-start and
    did-end handlers of the extension stack, the listeners' end handlers
    and the data sources' [initialize] are recorded as calls that return.
    A persisted-query cache changes its store when [set] is called, when
    the promise settles, or both. The listeners' [Dispatcher] and the
    request processor that [runHttpQuery] instantiates are not among the
    sources either; they are modelled from the specification, and say so.

    Further on: [getEngineServiceId] and [graphQLServerOptions] of
    [ApolloServerBase], [fetchIfNoneMatch] and the manifest locations of
    the operation registry, and the [PossibleTypeExtensions] rule of the
    federation's SDL validation. *)

From stdpp Require Import base strings list gmap pretty.

Set Warnings "-register-all".

(** ** JavaScript values

    What a request body or a query-string map can hold at run time.
    Numbers are integers: fractions and [NaN] play no part in what
    follows. *)

Inductive JSValue : Type :=
| JUndefined
| JNull
| JBool (b : bool)
| JNum (n : Z)
| JStr (s : string)
| JArr (items : list JSValue)
| JObj (fields : list (string * JSValue)).

(** ToBoolean: [undefined], [null], [false], [0] and [''] are falsy. *)
Definition truthy (v : JSValue) : bool :=
  match v with
  | JUndefined | JNull => false
  | JBool b => b
  | JNum n => negb (n =? 0)%Z
  | JStr s => negb (String.eqb s EmptyString)
  | JArr _ | JObj _ => true
  end.

Inductive JSType := TUndefined | TObject | TBoolean | TNumber | TString.

Definition typeof (v : JSValue) : JSType :=
  match v with
  | JUndefined => TUndefined
  | JNull | JArr _ | JObj _ => TObject
  | JBool _ => TBoolean
  | JNum _ => TNumber
  | JStr _ => TString
  end.

(** [typeof v === 'string'] *)
Definition is_string (v : JSValue) : bool :=
  match typeof v with TString => true | _ => false end.

Definition Array_isArray (v : JSValue) : bool :=
  match v with JArr _ => true | _ => false end.

Fixpoint assoc {A} (k : string) (l : list (string * A)) : option A :=
  match l with
  | [] => None
  | (k', v) :: l' => if String.eqb k k' then Some v else assoc k l'
  end.

(** [Object.keys(v).length] *)
Definition Object_keys_length (v : JSValue) : nat :=
  match v with
  | JObj fields => length fields
  | JArr items => length items
  | JStr s => String.length s
  | _ => 0
  end.

(** ** Errors and results *)

(** An error object as it appears in a response's [errors] array, or a
    plain [Error] that was thrown; [code] is [extensions.code]. *)
Record GraphQLError := mkGraphQLError {
  message : string;
  code : option string;
  warning : option string;
}.

Inductive Exn : Type :=
| Error (e : GraphQLError)
| InvalidGraphQLRequestError (msg : string)
| PersistedQueryNotSupportedError
| PersistedQueryNotFoundError
| HttpQueryError (statusCode : Z) (msg : string) (isGraphQLError : bool)
                 (headers : option (list (string * string))).

Definition TypeError (msg : string) : Exn :=
  Error (mkGraphQLError msg None None).

Inductive Res (A : Type) : Type :=
| Ok (a : A)
| Throw (e : Exn).
Arguments Ok {A} a.
Arguments Throw {A} e.

(** [v.name]: a [TypeError] on [undefined] and [null], [undefined] when the
    property is missing. *)
Definition prop (v : JSValue) (name : string) : Res JSValue :=
  match v with
  | JUndefined | JNull =>
      Throw (TypeError ("Cannot read property '" +:+ name +:+ "'"))
  | JObj fields => Ok (default JUndefined (assoc name fields))
  | _ => Ok JUndefined
  end.

(** ** The GraphQL data model *)

Inductive OperationTypeNode := query_op | mutation_op | subscription_op.

Record OperationDefinitionNode := mkOperation {
  operation : OperationTypeNode;
  name : option string;
  selection : string;
}.

Record DocumentNode := mkDocument {
  definitions : list OperationDefinitionNode;
}.

Record PersistedQuery := mkPersistedQuery {
  version : Z;
  sha256Hash : string;
}.

Record Extensions := mkExtensions {
  persistedQuery : option PersistedQuery;
  otherExtensions : list (string * JSValue);
}.

Record GraphQLRequest := mkRequest {
  query : option string;
  operationName : option string;
  variables : option JSValue;
  extensions : option Extensions;
  http : option JSValue;
}.

Record GraphQLResponse := mkResponse {
  data : JSValue;                                 (* [JUndefined] when absent *)
  errors : option (list GraphQLError);
  resp_extensions : option (list (string * JSValue));
  resp_http : option JSValue;
}.

Record ExecutionResult := mkExecutionResult {
  result_data : JSValue;
  result_errors : option (list GraphQLError);
}.

Record GraphQLRequestContext := mkRequestContext {
  request : GraphQLRequest;
  context : gmap string JSValue;
  rc_document : option DocumentNode;
  rc_operation : option OperationDefinitionNode;
  (* [None]: not set yet; [Some None]: [null], an anonymous operation *)
  rc_operationName : option (option string);
  rc_response : option GraphQLResponse;
}.

Record ExecutionArgs := mkExecutionArgs {
  args_document : DocumentNode;
  contextValue : gmap string JSValue;
  variableValues : option JSValue;
  args_operationName : option string;
}.

(** ** The extension stack and the plugin listeners *)

Record RequestDidStartArgs := mkRequestDidStartArgs {
  o_request : option JSValue;
  o_queryString : option string;
  o_operationName : option string;
  o_variables : option JSValue;
  o_extensions : option Extensions;
  o_persistedQueryHit : bool;
  o_persistedQueryRegister : bool;
}.

(** The calls [processRequest] makes on the request's
    [GraphQLExtensionStack]. A call that returns an end handler shows up
    twice: once when it is made, once when its handler is invoked. *)
Inductive ExtCall : Type :=
| XRequestDidStart (o : RequestDidStartArgs)
| XRequestDidEnd
| XParsingDidStart (queryString : string)
| XParsingDidEnd
| XValidationDidStart
| XValidationDidEnd
| XExecutionDidStart (executionArgs : ExecutionArgs)
| XExecutionDidEnd
| XFormat
| XWillSendResponse (graphqlResponse : GraphQLResponse).

(** A request-scoped extension: what its [format] and [willSendResponse]
    answer after a given history of calls on the stack. *)
Record GraphQLExtension := mkExtension {
  ext_format : list ExtCall → option (string * JSValue);
  ext_willSendResponse : list ExtCall → GraphQLResponse → option GraphQLResponse;
}.

Inductive HookName :=
| parsingDidStart
| validationDidStart
| didResolveOperation
| executionDidStart
| willSendResponse.

(** What an end handler is called with. *)
Inductive EndArg :=
| NoError
| WithError (e : Exn)
| WithErrors (es : list GraphQLError).

(** A hook sees the request context and either throws or returns; for a
    did-start hook the boolean tells whether it returned an end handler.
    Hooks observe the context, whose fields the plugin interface declares
    read-only. *)
Definition Hook := GraphQLRequestContext → Res bool.

Record GraphQLRequestListener := mkListener {
  on_parsingDidStart : option Hook;
  on_validationDidStart : option Hook;
  on_didResolveOperation : option Hook;
  on_executionDidStart : option Hook;
  on_willSendResponse : option Hook;
}.

(** [listener[methodName]] *)
Definition method (l : GraphQLRequestListener) (h : HookName) : option Hook :=
  match h with
  | parsingDidStart => on_parsingDidStart l
  | validationDidStart => on_validationDidStart l
  | didResolveOperation => on_didResolveOperation l
  | executionDidStart => on_executionDidStart l
  | willSendResponse => on_willSendResponse l
  end.

Record ApolloServerPlugin := mkPlugin {
  requestDidStart : option (GraphQLRequestContext → option GraphQLRequestListener);
}.

(** ** The trace *)

(** The argument of [requestProcessor.processRequest]. *)
Record ProcessorRequest := mkProcessorRequest {
  pr_query : JSValue;
  pr_operationName : JSValue;
  pr_variables : JSValue;
  pr_extensions : JSValue;
  pr_httpRequest : JSValue;
}.

Inductive Event : Type :=
| EvExt (c : ExtCall)
| EvHook (listener : nat) (h : HookName)
| EvHookEnd (listener : nat) (h : HookName) (arg : EndArg)
| EvCacheGet (key : string)
| EvCacheSet (key value : string)
| EvDataSourceInitialize (name : string)
| EvParse (queryString : string)
| EvValidate (doc : DocumentNode)
| EvExecute (executionArgs : ExecutionArgs)
| EvConsoleLog (line : string)
| EvContextFunction
| EvProcessRequest (r : ProcessorRequest).

(** ** Collaborators *)

Inductive ErrorClass := SyntaxError | ValidationError.

(** What is handed to [JSON.stringify]. *)
Inductive Json : Type :=
| JsonErrors (errs : list Exn)
| JsonResponse (r : GraphQLResponse)
| JsonResponses (rs : list GraphQLResponse).

Record CacheControlExtensionOptions := mkCacheControlOptions {
  defaultMaxAge : Z;
  stripFormattedExtensions : bool;
  calculateHttpHeaders : bool;
}.

(** The options of [formatApolloErrors]. *)
Record FormatOptions := mkFormatOptions {
  fo_debug : option bool;
  fo_formatter : option (GraphQLError → GraphQLError);
}.

Record Env := mkEnv {
  (* crypto: [createHash('sha256').update(q).digest('hex')] *)
  sha256_hex : string → string;
  (* graphql-js, closed over the schema, the validation rules, the root
     value and the field resolver of the configuration; [parse],
     [validate] and [execute] may each throw *)
  graphql_parse : string → Res DocumentNode;
  graphql_validate : DocumentNode → Res (list GraphQLError);
  getOperationAST : DocumentNode → option string → option OperationDefinitionNode;
  graphql_execute : ExecutionArgs → Res ExecutionResult;
  (* apollo-server-errors *)
  fromGraphQLError : Exn → option ErrorClass → GraphQLError;
  formatApolloErrors : list Exn → FormatOptions → list GraphQLError;
  (* graphql-extensions, apollo-tracing, apollo-cache-control; the
     stack's [format] and [willSendResponse] run the extensions' own code
     and may throw *)
  TracingExtension : GraphQLExtension;
  CacheControlExtension : CacheControlExtensionOptions → GraphQLExtension;
  stack_format :
    list GraphQLExtension → list ExtCall → Res (list (string * JSValue));
  stack_willSendResponse :
    list GraphQLExtension → list ExtCall → GraphQLResponse → Res GraphQLResponse;
  (* the host *)
  (* [JSON.parse(v)]; [None] when it throws *)
  JSON_parse : JSValue → option JSValue;
  JSON_stringify : Json → string;
  Buffer_byteLength : string → string;
  NODE_ENV : option string;
  calculateCacheControlHeaders : list GraphQLResponse → list (string * string);
}.

(** The [KeyValueCache] capability: [get] and [set] return promises,
    either of which may reject. [get] is only ever awaited. [set] is
    called and its promise left to settle: [cache_set_call] is what the
    call has done to the store by the time it returns (an in-memory cache
    has written the entry, a remote one has at most sent a command),
    [cache_set] what the settling of the promise does: the store
    afterwards, or the rejection. *)
Class KeyValueCache (C : Type) := {
  cache_get : C → string → Res (option string);
  cache_set_call : C → string → string → C;
  cache_set : C → string → string → Res C;
}.

(** ** The monad and the world *)

(** State and exceptions: effects made before a [Throw] stay made. *)
Section State.
Context {S : Type}.

Definition St (A : Type) : Type := S → Res A * S.

Definition ret {A} (a : A) : St A := λ s, (Ok a, s).

Definition bind {A B} (m : St A) (k : A → St B) : St B :=
  λ s, match m s with
       | (Ok a, s') => k a s'
       | (Throw e, s') => (Throw e, s')
       end.

Definition throw {A} (e : Exn) : St A := λ s, (Throw e, s).

Definition lift {A} (r : Res A) : St A := λ s, (r, s).

(** [try { m } catch (e) { handler e }] *)
Definition try_catch {A} (m : St A) (handler : Exn → St A) : St A :=
  λ s, match m s with
       | (Ok a, s') => (Ok a, s')
       | (Throw e, s') => handler e s'
       end.

(** [try { m } finally { f }] *)
Definition try_finally {A} (m : St A) (f : St unit) : St A :=
  λ s, match m s with
       | (r, s') =>
           match f s' with
           | (Ok _, s'') => (r, s'')
           | (Throw e, s'') => (Throw e, s'')
           end
       end.
End State.
Arguments St : clear implicits.

Notation "x <- m ;; k" := (bind m (λ x, k))
  (at level 100, m at next level, right associativity, only parsing).
Notation "m ;;; k" := (bind m (λ _, k))
  (at level 100, right associativity, only parsing).

Section World.
Context {C : Type}.

Record World := mkWorld {
  pq_cache : C;
  (* [cache.set] calls whose promise nobody awaits *)
  inflight : list (string * string);
  (* [console.warn] *)
  console : list Exn;
  (* the calls received so far by the current request's extension stack *)
  ext_calls : list ExtCall;
  trace : list Event;
}.

Definition with_pq_cache (c : C) (w : World) : World :=
  mkWorld c (inflight w) (console w) (ext_calls w) (trace w).
Definition with_inflight (l : list (string * string)) (w : World) : World :=
  mkWorld (pq_cache w) l (console w) (ext_calls w) (trace w).
Definition with_console (l : list Exn) (w : World) : World :=
  mkWorld (pq_cache w) (inflight w) l (ext_calls w) (trace w).
Definition with_ext_calls (l : list ExtCall) (w : World) : World :=
  mkWorld (pq_cache w) (inflight w) (console w) l (trace w).
Definition with_trace (l : list Event) (w : World) : World :=
  mkWorld (pq_cache w) (inflight w) (console w) (ext_calls w) l.

Definition M (A : Type) : Type := St World A.

Definition emits (es : list Event) : M unit :=
  λ w, (Ok (), with_trace (trace w ++ es) w).

Definition emit (e : Event) : M unit := emits [e].

(** A call on the extension stack. *)
Definition ext (c : ExtCall) : M unit :=
  λ w, (Ok (), with_trace (trace w ++ [EvExt c])
                 (with_ext_calls (ext_calls w ++ [c]) w)).

Definition get_ext_calls : M (list ExtCall) := λ w, (Ok (ext_calls w), w).
End World.
Arguments World : clear implicits.
Arguments M : clear implicits.

(** ** requestPipeline.ts *)

Inductive KeyValueCacheRef := the_pq_cache.

Record PersistedQueryOptions := mkPersistedQueryOptions {
  cache : option KeyValueCacheRef;
}.

Record DataSource := mkDataSource {
  has_initialize : bool;
}.

(** [schema], [rootValue], [validationRules] and [fieldResolver] are only
    ever handed to graphql-js; they live in the [Env]'s graphql functions. *)
Record GraphQLRequestPipelineConfig := mkConfig {
  dataSources : option (list (string * DataSource));
  cfg_extensions : option (list GraphQLExtension);
  tracing : bool;
  persistedQueries : option PersistedQueryOptions;
  cacheControl : option CacheControlExtensionOptions;
  formatResponse :
    option (GraphQLResponse → gmap string JSValue → Res GraphQLResponse);
  plugins : option (list ApolloServerPlugin);
}.

(** The outcome of the persisted-query block. *)
Record ResolvedQuery := mkResolved {
  resolved_query : string;
  persistedQueryHit : bool;
  persistedQueryRegister : bool;
}.

Definition set_context (f : gmap string JSValue → gmap string JSValue)
    (rc : GraphQLRequestContext) : GraphQLRequestContext :=
  mkRequestContext (request rc) (f (context rc)) (rc_document rc)
    (rc_operation rc) (rc_operationName rc) (rc_response rc).

Definition set_document (d : DocumentNode) (rc : GraphQLRequestContext) :=
  mkRequestContext (request rc) (context rc) (Some d)
    (rc_operation rc) (rc_operationName rc) (rc_response rc).

Definition set_operation (op : option OperationDefinitionNode)
    (opname : option string) (rc : GraphQLRequestContext) :=
  mkRequestContext (request rc) (context rc) (rc_document rc)
    op (Some opname) (rc_response rc).

Definition set_response (r : GraphQLResponse) (rc : GraphQLRequestContext) :=
  mkRequestContext (request rc) (context rc) (rc_document rc)
    (rc_operation rc) (rc_operationName rc) (Some r).

Definition response_of (errs : option (list GraphQLError)) : GraphQLResponse :=
  mkResponse JUndefined errs None None.

Section Pipeline.
Context {C : Type} `{KeyValueCache C}.
Variable env : Env.

Definition computeQueryHash (query : string) : string := sha256_hex env query.

(** [await cache.get(key)] *)
Definition cache_get_await (key : string) : M C (option string) :=
  λ w, (cache_get (pq_cache w) key,
        with_trace (trace w ++ [EvCacheGet key]) w).

(** [(async () => cache.set(key, value))().catch(console.warn)]:
    [cache.set] is called there and then, and the promise it returns is
    left in flight; nothing waits for it. *)
Definition cache_set_detached (key value : string) : M C unit :=
  λ w, (Ok (), with_trace (trace w ++ [EvCacheSet key value])
                 (with_inflight (inflight w ++ [(key, value)])
                    (with_pq_cache (cache_set_call (pq_cache w) key value) w))).

(** The promise of one write in flight settles: the store is what the
    cache makes it, or the rejection reaches the [catch] handler, which
    warns on the console. *)
Definition settle_one (kv : string * string) (w : World C) : World C :=
  match cache_set (pq_cache w) kv.1 kv.2 with
  | Ok c' => with_pq_cache c' w
  | Throw e => with_console (console w ++ [e]) w
  end.

(** Every write in flight settles, oldest first. *)
Definition settle (w : World C) : World C :=
  foldl (λ w kv, settle_one kv w) (with_inflight [] w) (inflight w).

(** *** The dispatcher

    Modelled from the spec: [Dispatcher] (./utils/dispatcher) is not
    among the sources; section 4.2 gives its two invocation shapes. *)

Definition Dispatcher := list (nat * GraphQLRequestListener).

Definition new_Dispatcher (targets : list GraphQLRequestListener) : Dispatcher :=
  imap (λ i l, (i, l)) targets.

(** fire-and-collect: sequential, in registration order, fail-fast *)
Fixpoint invokeAsync (targets : Dispatcher) (h : HookName)
    (rc : GraphQLRequestContext) : M C unit :=
  match targets with
  | [] => ret ()
  | (i, l) :: rest =>
      match method l h with
      | None => invokeAsync rest h rc
      | Some hook =>
          emit (EvHook i h) ;;;
          lift (hook rc) ;;;
          invokeAsync rest h rc
      end
  end.

(** did-start: call the start hooks in order, collect the end handlers *)
Fixpoint invokeDidStart (targets : Dispatcher) (h : HookName)
    (rc : GraphQLRequestContext) : M C (list nat) :=
  match targets with
  | [] => ret []
  | (i, l) :: rest =>
      match method l h with
      | None => invokeDidStart rest h rc
      | Some hook =>
          emit (EvHook i h) ;;;
          has_end <- lift (hook rc) ;;
          ends <- invokeDidStart rest h rc ;;
          ret (if has_end : bool then i :: ends else ends)
      end
  end.

(** the combined end handler: every collected handler, same order, same
    argument *)
Definition didEnd (h : HookName) (ends : list nat) (arg : EndArg) : M C unit :=
  emits (map (λ i, EvHookEnd i h arg) ends).

(** *** initializeExtensionStack, initializeDataSources *)

Definition initializeExtensionStack (config : GraphQLRequestPipelineConfig)
    : M C (list GraphQLExtension) :=
  let extensions := default [] (cfg_extensions config) in
  let extensions :=
    if tracing config then extensions ++ [TracingExtension env]
    else extensions in
  let extensions :=
    match cacheControl config with
    | Some options => extensions ++ [CacheControlExtension env options]
    | None => extensions
    end in
  (* [new GraphQLExtensionStack(extensions)]: a stack with no history *)
  λ w, (Ok extensions, with_ext_calls [] w).

Definition initializeDataSources (config : GraphQLRequestPipelineConfig)
    (requestContext : GraphQLRequestContext) : M C GraphQLRequestContext :=
  match dataSources config with
  | Some sources =>
      emits (omap (λ '(name, ds),
               if has_initialize ds then Some (EvDataSourceInitialize name)
               else None) sources) ;;;
      if bool_decide (is_Some (context requestContext !! "dataSources")) then
        throw (Error (mkGraphQLError
          "Please use the dataSources config option instead of putting dataSources on the context yourself."
          None None))
      else
        ret (set_context
               (insert "dataSources"
                  (JObj (map (λ '(name, _), (name, JObj [])) sources)))
               requestContext)
  | None => ret requestContext
  end.

(** *** processRequest *)

(** lines 99-106: one listener per plugin whose [requestDidStart]
    returns one *)
Definition requestListeners_of (config : GraphQLRequestPipelineConfig)
    (requestContext : GraphQLRequestContext) : list GraphQLRequestListener :=
  omap (λ plugin,
          match requestDidStart plugin with
          | None => None
          | Some factory => factory requestContext
          end)
       (default [] (plugins config)).

(** lines 117-175: automatic persisted queries *)
Definition resolveQuery (config : GraphQLRequestPipelineConfig)
    (request : GraphQLRequest) : M C ResolvedQuery :=
  match extensions request ≫= persistedQuery with
  | Some pq =>
      match persistedQueries config ≫= cache with
      | None => throw PersistedQueryNotSupportedError
      | Some _ =>
          if negb (version pq =? 1)%Z then
            throw (InvalidGraphQLRequestError
                     "Unsupported persisted query version")
          else
            let queryHash := sha256Hash pq in
            match query request with
            | None =>
                found <- cache_get_await ("apq:" +:+ queryHash) ;;
                match found with
                | Some text =>
                    if negb (String.eqb text EmptyString) then
                      ret (mkResolved text true false)
                    else throw PersistedQueryNotFoundError
                | None => throw PersistedQueryNotFoundError
                end
            | Some query =>
                let computedQueryHash := computeQueryHash query in
                if negb (String.eqb queryHash computedQueryHash) then
                  throw (InvalidGraphQLRequestError
                           "provided sha does not match query")
                else
                  cache_set_detached ("apq:" +:+ queryHash) query ;;;
                  ret (mkResolved query false true)
            end
      end
  | None =>
      match query request with
      | Some query =>
          if negb (String.eqb query EmptyString) then
            ret (mkResolved query false false)
          else throw (InvalidGraphQLRequestError "Must provide query string.")
      | None => throw (InvalidGraphQLRequestError "Must provide query string.")
      end
  end.

Definition parse (query : string) : M C DocumentNode :=
  ext (XParsingDidStart query) ;;;
  try_finally (emit (EvParse query) ;;; lift (graphql_parse env query))
              (ext XParsingDidEnd).

Definition validate (document : DocumentNode) : M C (list GraphQLError) :=
  ext XValidationDidStart ;;;
  try_finally (emit (EvValidate document) ;;;
               lift (graphql_validate env document))
              (ext XValidationDidEnd).

Definition execute (requestContext : GraphQLRequestContext)
    (document : DocumentNode) (operationName : option string)
    (variables : option JSValue) : M C ExecutionResult :=
  let executionArgs :=
    mkExecutionArgs document (context requestContext) variables operationName in
  ext (XExecutionDidStart executionArgs) ;;;
  try_finally (emit (EvExecute executionArgs) ;;;
               lift (graphql_execute env executionArgs))
              (ext XExecutionDidEnd).

Definition sendResponse (dispatcher : Dispatcher)
    (extensionStack : list GraphQLExtension)
    (requestContext : GraphQLRequestContext)
    (response : GraphQLResponse) : M C GraphQLResponse :=
  let graphqlResponse :=
    mkResponse (data response) (errors response) (resp_extensions response)
               (rc_response requestContext ≫= resp_http) in
  calls <- get_ext_calls ;;
  ext (XWillSendResponse graphqlResponse) ;;;
  sent <- lift (stack_willSendResponse env extensionStack calls
                  graphqlResponse) ;;
  let requestContext := set_response sent requestContext in
  invokeAsync dispatcher willSendResponse requestContext ;;;
  ret sent.

(** lines 177-287: the stages between [requestDidStart] and the
    [finally] that ends the request. A [return sendResponse(...)] is
    the [inr] of a block; [inl] carries on. The trace lists the calls in
    the order of the sequential control flow: how the promise returned
    by [sendResponse] interleaves with the [finally] block is not
    represented. *)
Definition runStages (config : GraphQLRequestPipelineConfig)
    (dispatcher : Dispatcher) (extensionStack : list GraphQLExtension)
    (requestContext : GraphQLRequestContext) (rq : ResolvedQuery)
    : M C GraphQLResponse :=
  let request := request requestContext in
  ext (XRequestDidStart
         (mkRequestDidStartArgs (http request) (query request)
            (operationName request) (variables request) (extensions request)
            (persistedQueryHit rq) (persistedQueryRegister rq))) ;;;
  parsingDidEnd <- invokeDidStart dispatcher parsingDidStart requestContext ;;
  try_finally
    (parsed <-
       try_catch
         (document <- parse (resolved_query rq) ;;
          didEnd parsingDidStart parsingDidEnd NoError ;;;
          ret (inl document))
         (λ syntaxError,
            didEnd parsingDidStart parsingDidEnd (WithError syntaxError) ;;;
            sent <- sendResponse dispatcher extensionStack requestContext
                      (response_of
                         (Some [fromGraphQLError env syntaxError
                                  (Some SyntaxError)])) ;;
            ret (inr sent)) ;;
     match parsed with
     | inr sent => ret sent
     | inl document =>
         let requestContext := set_document document requestContext in
         validationDidEnd <-
           invokeDidStart dispatcher validationDidStart requestContext ;;
         validationErrors <- validate document ;;
         if (0 <? length validationErrors)%nat then
           didEnd validationDidStart validationDidEnd
                  (WithErrors validationErrors) ;;;
           sendResponse dispatcher extensionStack requestContext
             (response_of
                (Some (map (λ validationError,
                              fromGraphQLError env (Error validationError)
                                (Some ValidationError))
                           validationErrors)))
         else
           didEnd validationDidStart validationDidEnd NoError ;;;
           let operation :=
             getOperationAST env document (operationName request) in
           let requestContext :=
             set_operation operation
               (match operation ≫= name with
                | Some n => if String.eqb n EmptyString then None else Some n
                | None => None
                end)
               requestContext in
           invokeAsync dispatcher didResolveOperation requestContext ;;;
           executionDidEnd <-
             invokeDidStart dispatcher executionDidStart requestContext ;;
           executed <-
             try_catch
               (result <- execute requestContext document
                            (operationName request) (variables request) ;;
                didEnd executionDidStart executionDidEnd NoError ;;;
                ret (inl result))
               (λ executionError,
                  didEnd executionDidStart executionDidEnd
                         (WithError executionError) ;;;
                  sent <- sendResponse dispatcher extensionStack requestContext
                            (response_of
                               (Some [fromGraphQLError env executionError None])) ;;
                  ret (inr sent)) ;;
           match executed with
           | inr sent => ret sent
           | inl result =>
               let response :=
                 mkResponse (result_data result) (result_errors result)
                            None None in
               calls <- get_ext_calls ;;
               ext XFormat ;;;
               formattedExtensions <-
                 lift (stack_format env extensionStack calls) ;;
               let response :=
                 if (0 <? length formattedExtensions)%nat then
                   mkResponse (data response) (errors response)
                              (Some formattedExtensions) (resp_http response)
                 else response in
               response <-
                 match formatResponse config with
                 | Some format =>
                     lift (format response (context requestContext))
                 | None => ret response
                 end ;;
               sendResponse dispatcher extensionStack requestContext response
           end
     end)
    (ext XRequestDidEnd).

Definition processRequest (config : GraphQLRequestPipelineConfig)
    (requestContext : GraphQLRequestContext) : M C GraphQLResponse :=
  let requestListeners := requestListeners_of config requestContext in
  let dispatcher := new_Dispatcher requestListeners in
  extensionStack <- initializeExtensionStack config ;;
  let requestContext :=
    set_context (insert "_extensionStack" (JObj [])) requestContext in
  requestContext <- initializeDataSources config requestContext ;;
  rq <- resolveQuery config (request requestContext) ;;
  runStages config dispatcher extensionStack requestContext rq.
End Pipeline.

(** ** runHttpQuery *)

Inductive ContextOption :=
| ContextAbsent
| ContextFunction (result : GraphQLError + gmap string JSValue)
| ContextValue (value : gmap string JSValue).

Inductive CacheControlOption :=
| CacheControlUndefined
| CacheControlBoolean (b : bool)
| CacheControlObject (maxAge : option Z) (strip calculate : option bool).

Record GraphQLOptions := mkOptions {
  opt_context : ContextOption;
  opt_debug : option bool;
  opt_formatError : option (GraphQLError → GraphQLError);
  (* what the [dataSources] factory returns, [None] for a falsy result *)
  opt_dataSources : option (option (list (string * DataSource)));
  opt_cacheControl : CacheControlOption;
  opt_extensions : option (list GraphQLExtension);
  opt_persistedQueries : option PersistedQueryOptions;
  opt_tracing : bool;
  opt_formatResponse :
    option (GraphQLResponse → gmap string JSValue → Res GraphQLResponse);
}.

Record HttpQueryRequest := mkHttpQueryRequest {
  method_ : string;
  http_query : JSValue;
  (* [resolveGraphqlOptions(request.options, ...handlerArguments)] *)
  options : GraphQLError + GraphQLOptions;
  http_request : JSValue;
}.

Record HttpQueryResponse := mkHttpQueryResponse {
  graphqlResponse : string;
  responseInit : list (string * string);
}.

Record GraphQLRequestProcessorOptions := mkProcessorOptions {
  po_context : gmap string JSValue;
  po_extensions : option (list GraphQLExtension);
  po_persistedQueries : option PersistedQueryOptions;
  po_tracing : bool;
  po_cacheControl : option CacheControlExtensionOptions;
  po_formatResponse :
    option (GraphQLResponse → gmap string JSValue → Res GraphQLResponse);
  po_debug : option bool;
  po_queryExtensions : JSValue;
}.

Definition WillExecuteOperation := OperationDefinitionNode → Res unit.

(** [headers[key] = value] *)
Fixpoint assign_header (key value : string) (headers : list (string * string))
    : list (string * string) :=
  match headers with
  | [] => [(key, value)]
  | (k, v) :: rest =>
      if String.eqb k key then (k, value) :: rest
      else (k, v) :: assign_header key value rest
  end.

(** [{...headers, ...more}] *)
Definition spread_headers (headers more : list (string * string)) :=
  foldl (λ acc kv, assign_header kv.1 kv.2 acc) headers more.

Definition with_message (msg : string) (e : GraphQLError) : GraphQLError :=
  mkGraphQLError msg (code e) (warning e).

Definition with_warning (text : string) (e : GraphQLError) : GraphQLError :=
  mkGraphQLError (message e) (code e) (Some text).

Definition is_HttpQueryError (e : Exn) : bool :=
  match e with HttpQueryError _ _ _ _ => true | _ => false end.

Definition newline : string := String (Ascii.ascii_of_nat 10) EmptyString.

(** What a member callback has worked out when it builds its request
    processor. *)
Record Prepared := mkPrepared {
  prep_queryString : JSValue;
  prep_extensions : JSValue;
  prep_operationName : JSValue;
  prep_variables : JSValue;
  prep_context : gmap string JSValue;
}.

(** [runHttpQuery]'s own state: its local [cacheControl], which the
    member callbacks assign, next to the world. The request processor runs
    in the world and cannot reach the local. *)
Record RunState (C : Type) := mkRunState {
  local_cacheControl : option CacheControlExtensionOptions;
  world : World C;
}.
Arguments mkRunState {C}.
Arguments local_cacheControl {C}.
Arguments world {C}.

Definition in_world {C A} (m : M C A) : St (RunState C) A :=
  λ s, match m (world s) with
       | (r, w) => (r, mkRunState (local_cacheControl s) w)
       end.

Definition assign_cacheControl {C} (v : option CacheControlExtensionOptions)
    : St (RunState C) unit :=
  λ s, (Ok (), mkRunState v (world s)).

Definition read_cacheControl {C}
    : St (RunState C) (option CacheControlExtensionOptions) :=
  λ s, (Ok (local_cacheControl s), s).

(** lines 518-527, on one response *)
Definition strip_cacheControl (r : GraphQLResponse) : GraphQLResponse :=
  match resp_extensions r with
  | Some exts =>
      let exts := filter (λ kv, kv.1 ≠ "cacheControl") exts in
      mkResponse (data r) (errors r)
                 (if (0 <? length exts)%nat then Some exts else None)
                 (resp_http r)
  | None => r
  end.

Definition strip_if (cacheControl : option CacheControlExtensionOptions)
    (r : GraphQLResponse) : GraphQLResponse :=
  match cacheControl with
  | Some cc => if stripFormattedExtensions cc then strip_cacheControl r else r
  | None => r
  end.

Definition set_debug (d : option bool) (o : GraphQLOptions) : GraphQLOptions :=
  mkOptions (opt_context o) d (opt_formatError o) (opt_dataSources o)
    (opt_cacheControl o) (opt_extensions o) (opt_persistedQueries o)
    (opt_tracing o) (opt_formatResponse o).

(** [!request.query || Object.keys(request.query).length === 0] *)
Definition missing (q : JSValue) : bool :=
  negb (truthy q) || (Object_keys_length q =? 0)%nat.

Definition queries_must_be_strings_Document : string :=
  "GraphQL queries must be strings. It looks like you're sending the internal graphql-js representation of a parsed query in your request instead of a request in the GraphQL query language. You can convert an AST to a string using the `print` function from `graphql`, or use a client like `apollo-client` which converts the internal representation to a string for you.".

(** [(queryString as any).kind === 'Document'] *)
Definition is_Document (kind : Res JSValue) : bool :=
  match kind with
  | Ok (JStr s) => String.eqb s "Document"
  | _ => false
  end.

(** [e.extensions && e.extensions.code &&
     e.extensions.code !== 'INTERNAL_SERVER_ERROR'] *)
Definition code_is_not_internal (e : GraphQLError) : bool :=
  match code e with
  | Some c =>
      negb (String.eqb c EmptyString)
      && negb (String.eqb c "INTERNAL_SERVER_ERROR")
  | None => false
  end.

Definition show_debug (d : option bool) : string :=
  match d with
  | Some true => "true"
  | Some false => "false"
  | None => "undefined"
  end.

Section RunHttpQuery.
Context {C : Type} `{KeyValueCache C}.
Variable env : Env.
(** [new GraphQLRequestProcessor(options)], its [willExecuteOperation]
    slot, and [processRequest] *)
Variable requestProcessor :
  GraphQLRequestProcessorOptions → option WillExecuteOperation →
  ProcessorRequest → M C GraphQLResponse.

Definition prettyJSONStringify (value : Json) : string :=
  JSON_stringify env value +:+ newline.

Definition throwHttpGraphQLError {S A} (statusCode : Z) (errors : list Exn)
    (optionsObject : option FormatOptions) : St S A :=
  throw (HttpQueryError statusCode
           (prettyJSONStringify
              (JsonErrors
                 match optionsObject with
                 | Some o => map Error (formatApolloErrors env errors o)
                 | None => errors
                 end))
           true
           (Some [("Content-Type", "application/json")])).

Definition format_options (optionsObject : GraphQLOptions) : FormatOptions :=
  mkFormatOptions (opt_debug optionsObject) (opt_formatError optionsObject).

Definition debugDefault : bool :=
  negb (bool_decide (NODE_ENV env = Some "production"))
  && negb (bool_decide (NODE_ENV env = Some "test")).

(** lines 397-420: the value assigned to [cacheControl], [None] when
    [optionsObject.cacheControl === false] and nothing is assigned *)
Definition cacheControl_of (optionsObject : GraphQLOptions)
    : option CacheControlExtensionOptions :=
  match opt_cacheControl optionsObject with
  | CacheControlBoolean false => None
  | CacheControlBoolean true => Some (mkCacheControlOptions 0 false false)
  | CacheControlUndefined => Some (mkCacheControlOptions 0 true true)
  | CacheControlObject maxAge strip calculate =>
      Some (mkCacheControlOptions (default 0%Z maxAge) (default true strip)
                                  (default true calculate))
  end.

(** lines 443-456 *)
Definition willExecuteOperation : WillExecuteOperation :=
  λ op,
    match operation op with
    | query_op => Ok ()
    | _ => Throw (HttpQueryError 405 "GET supports only query operation"
                    false (Some [("Allow", "POST")]))
    end.

(** lines 305-395 of a member callback: the request parameters, the
    context and the data sources *)
Definition member_prepare (optionsObject : GraphQLOptions)
    (isGetRequest : bool) (requestParams : JSValue) : M C Prepared :=
  queryString <- lift (prop requestParams "query") ;;
  extensions <- lift (prop requestParams "extensions") ;;
  extensions <-
    (if isGetRequest && truthy extensions then
       match JSON_parse env extensions with
       | Some parsed => ret parsed
       | None =>
           throw (HttpQueryError 400 "Extensions are invalid JSON." false None)
       end
     else ret extensions) ;;
  (if truthy queryString && negb (is_string queryString) then
     if is_Document (prop queryString "kind") then
       throw (HttpQueryError 400 queries_must_be_strings_Document false None)
     else
       throw (HttpQueryError 400 "GraphQL queries must be strings." false None)
   else ret ()) ;;;
  operationName <- lift (prop requestParams "operationName") ;;
  variables <- lift (prop requestParams "variables") ;;
  variables <-
    (if is_string variables then
       match JSON_parse env variables with
       | Some parsed => ret parsed
       | None =>
           throw (HttpQueryError 400 "Variables are invalid JSON." false None)
       end
     else ret variables) ;;
  context <-
    match opt_context optionsObject with
    | ContextAbsent => ret ∅
    | ContextFunction result =>
        emit EvContextFunction ;;;
        match result with
        | inr value => ret value
        | inl e =>
            let e :=
              with_message ("Context creation failed: " +:+ message e) e in
            if code_is_not_internal e then
              throwHttpGraphQLError 400 [Error e]
                (Some (format_options optionsObject))
            else
              throwHttpGraphQLError 500 [Error e]
                (Some (format_options optionsObject))
        end
    | ContextValue value => ret value
    end ;;
  context <-
    match opt_dataSources optionsObject with
    | Some made =>
        let dataSources := default [] made in
        emits (omap (λ '(name, ds),
                 if has_initialize ds then Some (EvDataSourceInitialize name)
                 else None) dataSources) ;;;
        if bool_decide (is_Some (context !! "dataSources")) then
          throw (Error (mkGraphQLError
            "Please use the dataSources config option instead of putting dataSources on the context yourself."
            None None))
        else
          ret (<["dataSources" :=
                   JObj (map (λ '(name, _), (name, JObj [])) dataSources)]>
                 context)
    | None => ret context
    end ;;
  ret (mkPrepared queryString extensions operationName variables context).

(** lines 422-464: the processor is built, given the GET check, and run *)
Definition member_process (request : HttpQueryRequest)
    (optionsObject : GraphQLOptions) (isGetRequest : bool)
    (cacheControl : option CacheControlExtensionOptions) (p : Prepared)
    : M C GraphQLResponse :=
  let processed :=
    mkProcessorRequest (prep_queryString p) (prep_operationName p)
      (prep_variables p) (prep_extensions p) (http_request request) in
  emit (EvProcessRequest processed) ;;;
  requestProcessor
    (mkProcessorOptions (prep_context p) (opt_extensions optionsObject)
       (opt_persistedQueries optionsObject) (opt_tracing optionsObject)
       cacheControl (opt_formatResponse optionsObject)
       (opt_debug optionsObject) (prep_extensions p))
    (if isGetRequest then Some willExecuteOperation else None)
    processed.

(** lines 305-464: the [try] block of a member callback *)
Definition member_try (request : HttpQueryRequest)
    (optionsObject : GraphQLOptions) (isGetRequest : bool)
    (requestParams : JSValue) : St (RunState C) GraphQLResponse :=
  p <- in_world (member_prepare optionsObject isGetRequest requestParams) ;;
  match cacheControl_of optionsObject with
  | Some assigned => assign_cacheControl (Some assigned)
  | None => ret ()
  end ;;;
  cacheControl <- read_cacheControl ;;
  in_world (member_process request optionsObject isGetRequest cacheControl p).

(** lines 465-489: the [catch] block of a member callback *)
Definition member_catch (optionsObject : GraphQLOptions) (isBatch : bool)
    (error : Exn) : St (RunState C) GraphQLResponse :=
  in_world
    (emit (EvConsoleLog
             ("debug: " +:+ show_debug (opt_debug optionsObject) +:+
              ", formatError: " +:+
              match opt_formatError optionsObject with
              | Some _ => "[Function]"
              | None => "undefined"
              end))) ;;;
  if isBatch then
    ret (response_of
           (Some (formatApolloErrors env [error]
                    (mkFormatOptions (opt_debug optionsObject) None))))
  else
    match error with
    | InvalidGraphQLRequestError msg =>
        throw (HttpQueryError 400 msg false None)
    | PersistedQueryNotSupportedError | PersistedQueryNotFoundError =>
        throwHttpGraphQLError 200 [error]
          (Some (format_options optionsObject))
    | _ => throw error
    end.

(** lines 303-490 *)
Definition member (request : HttpQueryRequest)
    (optionsObject : GraphQLOptions) (isGetRequest isBatch : bool)
    (requestParams : JSValue) : St (RunState C) GraphQLResponse :=
  try_catch (member_try request optionsObject isGetRequest requestParams)
            (member_catch optionsObject isBatch).

(** [requestPayload.map(callback)] awaited by [Promise.all]; the
    callbacks are run one after the other, in the order of the array. *)
Fixpoint all {S A B} (callback : A → St S B) (items : list A) : St S (list B) :=
  match items with
  | [] => ret []
  | item :: rest =>
      r <- callback item ;;
      rs <- all callback rest ;;
      ret (r :: rs)
  end.

(** lines 243-301 *)
Definition resolve_options (request : HttpQueryRequest)
    : St (RunState C) GraphQLOptions :=
  optionsObject <-
    match options request with
    | inr optionsObject => ret optionsObject
    | inl e =>
        let e :=
          with_message
            ("Invalid options provided to ApolloServer: " +:+ message e) e in
        let e :=
          if negb debugDefault then
            with_warning
              "To remove the stacktrace, set the NODE_ENV environment variable to production if the options creation can fail"
              e
          else e in
        throwHttpGraphQLError 500 [Error e]
          (Some (mkFormatOptions (Some debugDefault) None))
    end ;;
  ret match opt_debug optionsObject with
      | None => set_debug (Some debugDefault) optionsObject
      | Some _ => optionsObject
      end.

Definition check_method (request : HttpQueryRequest) : St (RunState C) bool :=
  if String.eqb (method_ request) "POST" then
    if missing (http_query request) then
      throw (HttpQueryError 500
               "POST body missing. Did you forget use body-parser middleware?"
               false None)
    else ret false
  else if String.eqb (method_ request) "GET" then
    if missing (http_query request) then
      throw (HttpQueryError 400 "GET query missing." false None)
    else ret true
  else
    throw (HttpQueryError 405
             "Apollo Server supports only GET/POST requests."
             false (Some [("Allow", "GET, POST")])).

(** lines 502-562 *)
Definition respond (isBatch : bool)
    (cacheControl : option CacheControlExtensionOptions)
    (responses : list GraphQLResponse) : St (RunState C) HttpQueryResponse :=
  let headers := [("Content-Type", "application/json")] in
  let headers :=
    match cacheControl with
    | Some cc =>
        if calculateHttpHeaders cc then
          spread_headers headers (calculateCacheControlHeaders env responses)
        else headers
    | None => headers
    end in
  let responses := map (strip_if cacheControl) responses in
  if negb isBatch then
    match responses with
    | graphqlResponse :: _ =>
        match errors graphqlResponse, data graphqlResponse with
        | Some errs, JUndefined =>
            throwHttpGraphQLError 400 (map Error errs) None
        | _, _ =>
            let stringified :=
              prettyJSONStringify (JsonResponse graphqlResponse) in
            ret (mkHttpQueryResponse stringified
                   (assign_header "Content-Length"
                      (Buffer_byteLength env stringified) headers))
        end
    | [] => throw (TypeError "Cannot read property 'errors' of undefined")
    end
  else
    let stringified := prettyJSONStringify (JsonResponses responses) in
    ret (mkHttpQueryResponse stringified
           (assign_header "Content-Length"
              (Buffer_byteLength env stringified) headers)).

Definition runHttpQuery_body (request : HttpQueryRequest)
    : St (RunState C) HttpQueryResponse :=
  optionsObject <- resolve_options request ;;
  isGetRequest <- check_method request ;;
  let isBatch := Array_isArray (http_query request) in
  let requestPayload :=
    match http_query request with
    | JArr items => items
    | payload => [payload]
    end in
  responses <-
    try_catch
      (all (member request optionsObject isGetRequest isBatch) requestPayload)
      (λ error,
         if is_HttpQueryError error then throw error
         else throwHttpGraphQLError 500 [error]
                (Some (format_options optionsObject))) ;;
  cacheControl <- read_cacheControl ;;
  respond isBatch cacheControl responses.

(** [cacheControl] starts out undefined and dies with the call. *)
Definition runHttpQuery (request : HttpQueryRequest) : M C HttpQueryResponse :=
  λ w, match runHttpQuery_body request (mkRunState None w) with
       | (r, s) => (r, world s)
       end.
End RunHttpQuery.

(** ** The request processor

    Modelled from the spec: the [GraphQLRequestProcessor] that
    [runHttpQuery] instantiates (./requestProcessing) is not among the
    sources. Section 4.3 describes the pipeline a transport invokes as the
    state machine of requestPipeline.ts, with the read-only check made at
    the operation-resolution stage, where the [didResolveOperation]
    listeners run, and before EXECUTE. It is modelled as [processRequest]
    with the [willExecuteOperation] slot installed as such a listener. The
    coordinator has initialised the data sources itself, so the processor
    is given none. *)
Module GraphQLRequestProcessor.
Section Processor.
Context {C : Type} `{KeyValueCache C}.
Variable env : Env.

Definition as_string (v : JSValue) : option string :=
  match v with JStr s => Some s | _ => None end.

Definition as_defined (v : JSValue) : option JSValue :=
  match v with JUndefined => None | _ => Some v end.

Definition as_persistedQuery (v : JSValue) : option PersistedQuery :=
  match v with
  | JObj fields =>
      Some (mkPersistedQuery
              (match assoc "version" fields with
               | Some (JNum n) => n
               | _ => 0
               end)
              (default EmptyString (assoc "sha256Hash" fields ≫= as_string)))
  | _ => None
  end.

Definition as_extensions (v : JSValue) : option Extensions :=
  match v with
  | JObj fields =>
      Some (mkExtensions (assoc "persistedQuery" fields ≫= as_persistedQuery)
                         fields)
  | _ => None
  end.

Definition as_request (r : ProcessorRequest) : GraphQLRequest :=
  mkRequest (as_string (pr_query r)) (as_string (pr_operationName r))
            (as_defined (pr_variables r)) (as_extensions (pr_extensions r))
            (as_defined (pr_httpRequest r)).

Definition operation_listener (check : WillExecuteOperation)
    : GraphQLRequestListener :=
  mkListener None None
    (Some (λ requestContext,
             match rc_operation requestContext with
             | Some op =>
                 match check op with
                 | Ok _ => Ok false
                 | Throw e => Throw e
                 end
             | None => Ok false
             end))
    None None.

Definition config_of (options : GraphQLRequestProcessorOptions)
    (check : option WillExecuteOperation) : GraphQLRequestPipelineConfig :=
  mkConfig None (po_extensions options) (po_tracing options)
    (po_persistedQueries options) (po_cacheControl options)
    (po_formatResponse options)
    (match check with
     | Some check =>
         Some [mkPlugin (Some (λ _, Some (operation_listener check)))]
     | None => None
     end).

Definition processRequest (options : GraphQLRequestProcessorOptions)
    (check : option WillExecuteOperation) (request : ProcessorRequest)
    : M C GraphQLResponse :=
  processRequest env (config_of options check)
    (mkRequestContext (as_request request) (po_context options)
                      None None None None).
End Processor.
End GraphQLRequestProcessor.

(** ** ApolloServerBase

    [getEngineServiceId] and [graphQLServerOptions] of the server class,
    whose source follows the pipeline's in requestPipeline.ts (lines
    415-918). *)

Definition colon : Ascii.ascii := Eval cbv in Ascii.ascii_of_nat 58.

(** [s.split(separator)], for a separator of one character *)
Fixpoint split (separator : Ascii.ascii) (s : string) : list string :=
  match s with
  | EmptyString => [EmptyString]
  | String c rest =>
      if Ascii.eqb c separator then EmptyString :: split separator rest
      else
        match split separator rest with
        | piece :: pieces => String c piece :: pieces
        | [] => [String c EmptyString]
        end
  end.

(** The character occurs in the string. *)
Fixpoint occurs (c : Ascii.ascii) (s : string) : bool :=
  match s with
  | EmptyString => false
  | String c' rest => Ascii.eqb c' c || occurs c rest
  end.

Definition nonempty (s : string) : bool := negb (String.eqb s EmptyString).

Record EngineReportingOptions := mkEngineReportingOptions {
  apiKey : option string;
}.

(** [Config['engine']]: [boolean | EngineReportingOptions | undefined] *)
Inductive EngineOption :=
| EngineUndefined
| EngineBoolean (b : bool)
| EngineObject (options : EngineReportingOptions).

Section Engine.
(** [process.env.ENGINE_API_KEY] *)
Variable ENGINE_API_KEY : option string.

(** lines 477-496; the result is [engineApiKey.split(':', 2)[1]] *)
Definition getEngineServiceId (engine : EngineOption) : option string :=
  let keyFromEnv := default EmptyString ENGINE_API_KEY in
  let engine_truthy :=
    match engine with
    | EngineUndefined => false
    | EngineBoolean b => b
    | EngineObject _ => true
    end in
  let engine_is_false :=
    match engine with EngineBoolean false => true | _ => false end in
  if negb (engine_truthy || (negb engine_is_false && nonempty keyFromEnv)) then
    None
  else
    let engineApiKey :=
      match engine with
      | EngineObject (mkEngineReportingOptions (Some key)) =>
          if nonempty key then key
          else if nonempty keyFromEnv then keyFromEnv else EmptyString
      | _ => if nonempty keyFromEnv then keyFromEnv else EmptyString
      end in
    if nonempty engineApiKey then
      take 2 (split colon engineApiKey) !! 1%nat
    else None.
End Engine.

(** [this.context]: an object, or a function of the integration's
    argument that returns one or throws *)
Inductive ServerContext :=
| ServerContextObject (value : gmap string JSValue)
| ServerContextFunction (create : JSValue → GraphQLError + gmap string JSValue).

(** [this.requestOptions]: what the constructor leaves of the
    configuration once it has taken [context], [schema], [extensions] and
    the server-only options out of it. *)
Record RequestOptions := mkRequestOptions {
  ro_debug : option bool;
  ro_formatError : option (GraphQLError → GraphQLError);
  ro_dataSources : option (option (list (string * DataSource)));
  ro_cacheControl : CacheControlOption;
  ro_persistedQueries : option PersistedQueryOptions;
  ro_tracing : bool;
  ro_formatResponse :
    option (GraphQLResponse → gmap string JSValue → Res GraphQLResponse);
}.

Record ApolloServerBase := mkApolloServerBase {
  server_context : option ServerContext;
  server_extensions : list GraphQLExtension;
  requestOptions : RequestOptions;
}.

(** lines 885-917. The context function is awaited inside a [try]; when
    it throws, the options carry a function that throws the same error.
    [schema], [fieldResolver] and the other options that only graphql-js
    reads are part of the [Env]. *)
Definition graphQLServerOptions (this : ApolloServerBase)
    (integrationContextArgument : option JSValue) : GraphQLOptions :=
  let context :=
    match server_context this with
    | Some (ServerContextFunction create) =>
        match create (default (JObj []) integrationContextArgument) with
        | inr value => ContextValue value
        | inl error => ContextFunction (inl error)
        end
    | Some (ServerContextObject value) => ContextValue value
    | None => ContextValue ∅
    end in
  mkOptions context (ro_debug (requestOptions this))
    (ro_formatError (requestOptions this))
    (ro_dataSources (requestOptions this))
    (ro_cacheControl (requestOptions this))
    (Some (server_extensions this))
    (ro_persistedQueries (requestOptions this))
    (ro_tracing (requestOptions this))
    (ro_formatResponse (requestOptions this)).


(** ** fetchIfNoneMatch.ts

    The conditional fetch of the operation registry plugin (lines 1-38)
    and the manifest locations that follow it in the same source file
    (lines 39-110). *)
Module OperationRegistry.

(** A node-fetch [Response]: [status], [ok], [headers.get('etag')] and the
    body read by [text()]. *)
Record Response := mkFetchResponse {
  res_status : Z;
  res_ok : bool;
  res_etag : option string;
  res_text : string;
}.

Record RequestInit := mkRequestInit {
  init_headers : option (list (string * string));
  init_other : list (string * JSValue);
}.

Record FetchState := mkFetchState {
  (* the module-level [urlCachedResponseMap], a JS object used as a map *)
  urlCachedResponseMap : gmap string Response;
  (* [logger.debug] *)
  debug_log : list string;
  (* the calls made to [fetch] *)
  fetched : list (string * RequestInit);
}.

(** [previousEtag && { 'If-None-Match': previousEtag }]: nothing is
    spread for [undefined], [null] and the empty string. *)
Definition previousEtag_of (cachedResponse : option Response) : option string :=
  match cachedResponse ≫= res_etag with
  | Some etag => if nonempty etag then Some etag else None
  | None => None
  end.

Section Fetch.
(** [fetch]: what the network answers, or the rejection *)
Variable fetch : string → RequestInit → Res Response.

(** lines 9-38 *)
Definition fetchIfNoneMatch (url : string) (fetchOptions : option RequestInit)
    : St FetchState (Response * bool) :=
  λ s,
    let cachedResponse := urlCachedResponseMap s !! url in
    let previousEtag := previousEtag_of cachedResponse in
    let headers := default [] (fetchOptions ≫= init_headers) in
    let headers :=
      match previousEtag with
      | Some etag => assign_header "If-None-Match" etag headers
      | None => headers
      end in
    let init :=
      mkRequestInit (Some headers)
        (default [] (init_other <$> fetchOptions)) in
    let s :=
      mkFetchState (urlCachedResponseMap s) (debug_log s)
        (fetched s ++ [(url, init)]) in
    match fetch url init with
    | Throw e => (Throw e, s)
    | Ok response =>
        if (res_status response =? 304)%Z then
          let s :=
            mkFetchState (urlCachedResponseMap s)
              (debug_log s
               ++ ["The response for " +:+ url
                   +:+ " was the same as the previous attempt."])
              (fetched s) in
          match cachedResponse with
          | Some cached => (Ok (cached, true), s)
          | None =>
              (Throw (TypeError "Cannot read property 'clone' of undefined"), s)
          end
        else if negb (res_ok response) then
          (Throw (Error (mkGraphQLError
                           ("Fetching " +:+ url +:+ " failed with "
                            +:+ res_text response)
                           None None)),
           s)
        else
          (Ok (response, false),
           mkFetchState (<[url := response]> (urlCachedResponseMap s))
             (debug_log s) (fetched s))
    end.
End Fetch.

(** The second half of the file: the manifest locations. *)

(** [s.replace(/\/$/, '')] *)
Fixpoint strip_trailing_slash (s : string) : string :=
  match s with
  | EmptyString => EmptyString
  | String c rest =>
      if String.eqb s "/" then EmptyString
      else String c (strip_trailing_slash rest)
  end.

Definition envOverrideOperationManifest : string :=
  "APOLLO_OPERATION_MANIFEST_BASE_URL".
Definition envOverrideStorageSecretBaseUrl : string :=
  "APOLLO_STORAGE_SECRET_BASE_URL".
Definition fakeTestBaseUrl : string := "https://myfakehost/".

Section Locations.
(** [process.env] *)
Variable process_env : gmap string string.

(** [process.env[name] || process.env['NODE_ENV'] === 'test'] *)
Definition overridden_or_test (name : string) : bool :=
  match process_env !! name with
  | Some value => nonempty value
  | None => false
  end
  || bool_decide (process_env !! "NODE_ENV" = Some "test").

Definition urlOperationManifestBase : string :=
  let desiredUrl :=
    if overridden_or_test envOverrideOperationManifest then fakeTestBaseUrl
    else "https://storage.googleapis.com/engine-op-manifest-storage-prod/" in
  strip_trailing_slash desiredUrl.

Definition urlStorageSecretBase : string :=
  let desiredUrl :=
    if overridden_or_test envOverrideStorageSecretBaseUrl then fakeTestBaseUrl
    else "https://storage.googleapis.com/engine-partial-schema-prod/" in
  strip_trailing_slash desiredUrl.

Definition getStoreKey (signature : string) : string := signature.

Definition getStorageSecretUrl (graphId apiKeyHash : string) : string :=
  urlStorageSecretBase +:+ "/" +:+ graphId +:+ "/storage-secret/"
  +:+ apiKeyHash +:+ ".json".

Definition getOperationManifestUrl (graphId storageSecret : string)
    (schemaTag : option string) : string :=
  urlOperationManifestBase +:+ "/" +:+ graphId +:+ "/" +:+ storageSecret
  +:+ "/" +:+ default "current" schemaTag +:+ "/manifest.v2.json".

Definition getLegacyOperationManifestUrl (hashedGraphId schemaHash : string)
    : string :=
  String.concat "/" [urlOperationManifestBase; hashedGraphId; schemaHash]
  +:+ ".v2.json".
End Locations.

(** [signature.substring(0, 8)], or the marker for a value that is not a
    string *)
Definition signatureForLogging (signature : JSValue) : string :=
  match signature with
  | JStr s => String.substring 0 8 s
  | _ => "<non-string>"
  end.
End OperationRegistry.

(** ** possibleTypeExtensions.ts

    The SDL validation rule of the federation's composition that checks
    type extensions against the types they extend. *)
Module Federation.

(** graphql-js [Kind]: the kinds of the definitions of a document *)
Inductive Kind :=
| OPERATION_DEFINITION
| FRAGMENT_DEFINITION
| SCHEMA_DEFINITION
| SCALAR_TYPE_DEFINITION
| OBJECT_TYPE_DEFINITION
| INTERFACE_TYPE_DEFINITION
| UNION_TYPE_DEFINITION
| ENUM_TYPE_DEFINITION
| INPUT_OBJECT_TYPE_DEFINITION
| DIRECTIVE_DEFINITION
| SCHEMA_EXTENSION
| SCALAR_TYPE_EXTENSION
| OBJECT_TYPE_EXTENSION
| INTERFACE_TYPE_EXTENSION
| UNION_TYPE_EXTENSION
| ENUM_TYPE_EXTENSION
| INPUT_OBJECT_TYPE_EXTENSION.

#[global] Instance Kind_eq_dec : EqDecision Kind.
Proof. solve_decision. Defined.

(** The value of a [Kind], as it is printed in a message. *)
Definition Kind_value (k : Kind) : string :=
  match k with
  | OPERATION_DEFINITION => "OperationDefinition"
  | FRAGMENT_DEFINITION => "FragmentDefinition"
  | SCHEMA_DEFINITION => "SchemaDefinition"
  | SCALAR_TYPE_DEFINITION => "ScalarTypeDefinition"
  | OBJECT_TYPE_DEFINITION => "ObjectTypeDefinition"
  | INTERFACE_TYPE_DEFINITION => "InterfaceTypeDefinition"
  | UNION_TYPE_DEFINITION => "UnionTypeDefinition"
  | ENUM_TYPE_DEFINITION => "EnumTypeDefinition"
  | INPUT_OBJECT_TYPE_DEFINITION => "InputObjectTypeDefinition"
  | DIRECTIVE_DEFINITION => "DirectiveDefinition"
  | SCHEMA_EXTENSION => "SchemaExtension"
  | SCALAR_TYPE_EXTENSION => "ScalarTypeExtension"
  | OBJECT_TYPE_EXTENSION => "ObjectTypeExtension"
  | INTERFACE_TYPE_EXTENSION => "InterfaceTypeExtension"
  | UNION_TYPE_EXTENSION => "UnionTypeExtension"
  | ENUM_TYPE_EXTENSION => "EnumTypeExtension"
  | INPUT_OBJECT_TYPE_EXTENSION => "InputObjectTypeExtension"
  end.

(** graphql-js [isTypeDefinitionNode] *)
Definition isTypeDefinitionNode (k : Kind) : bool :=
  match k with
  | SCALAR_TYPE_DEFINITION | OBJECT_TYPE_DEFINITION
  | INTERFACE_TYPE_DEFINITION | UNION_TYPE_DEFINITION
  | ENUM_TYPE_DEFINITION | INPUT_OBJECT_TYPE_DEFINITION => true
  | _ => false
  end.

(** A definition of the document: its kind, its name and, on an
    extension of a federated service, the service's name. *)
Record DefinitionNode := mkDefinitionNode {
  kind : Kind;
  node_name : string;
  serviceName : option string;
}.

(** The named types of a schema, by what [isScalarType] ...
    [isInputObjectType] answer. *)
Inductive GraphQLNamedType :=
| ScalarType | ObjectType | InterfaceType | UnionType | EnumType
| InputObjectType.

Record SDLValidationContext := mkSDLValidationContext {
  (* [getSchema()]: [undefined] when a schema is validated from scratch *)
  getSchema : option (gmap string GraphQLNamedType);
  (* [getDocument().definitions] *)
  getDocument : list DefinitionNode;
}.

Record ReportedError := mkReportedError {
  error_code : string;
  error_message : string;
}.

Definition typeToExtKind (type : GraphQLNamedType) : Kind :=
  match type with
  | ScalarType => SCALAR_TYPE_EXTENSION
  | ObjectType => OBJECT_TYPE_EXTENSION
  | InterfaceType => INTERFACE_TYPE_EXTENSION
  | UnionType => UNION_TYPE_EXTENSION
  | EnumType => ENUM_TYPE_EXTENSION
  | InputObjectType => INPUT_OBJECT_TYPE_EXTENSION
  end.

Definition defKindToExtKind : list (Kind * Kind) :=
  [(SCALAR_TYPE_DEFINITION, SCALAR_TYPE_EXTENSION);
   (OBJECT_TYPE_DEFINITION, OBJECT_TYPE_EXTENSION);
   (INTERFACE_TYPE_DEFINITION, INTERFACE_TYPE_EXTENSION);
   (UNION_TYPE_DEFINITION, UNION_TYPE_EXTENSION);
   (ENUM_TYPE_DEFINITION, ENUM_TYPE_EXTENSION);
   (INPUT_OBJECT_TYPE_DEFINITION, INPUT_OBJECT_TYPE_EXTENSION)].

(** [defKindToExtKind[kind]] *)
Definition lookup_kind (k : Kind) (table : list (Kind * Kind)) : option Kind :=
  snd <$> List.find (λ entry, bool_decide (entry.1 = k)) table.

Definition typeToKind (type : GraphQLNamedType) : Kind :=
  match type with
  | ScalarType => SCALAR_TYPE_DEFINITION
  | ObjectType => OBJECT_TYPE_DEFINITION
  | InterfaceType => INTERFACE_TYPE_DEFINITION
  | UnionType => UNION_TYPE_DEFINITION
  | EnumType => ENUM_TYPE_DEFINITION
  | InputObjectType => INPUT_OBJECT_TYPE_DEFINITION
  end.

(** What a kind that may be [undefined] prints as. *)
Definition show_kind (k : option Kind) : string :=
  match k with
  | Some k => Kind_value k
  | None => "undefined"
  end.

(** The type definition that an extension of [typeName] refers to: the
    last one of that name in the document. *)
Definition base_definition (context : SDLValidationContext) (typeName : string)
    : option DefinitionNode :=
  last (filter (λ def, isTypeDefinitionNode (kind def) = true
                       ∧ node_name def = typeName)
               (getDocument context)).

(** The kind an extension of [typeName] must have: that of its base, the
    document's definition or else the schema's type; [None] when there is
    no base. *)
Definition expected_extension (context : SDLValidationContext)
    (typeName : string) : option Kind :=
  match base_definition context typeName with
  | Some def => lookup_kind (kind def) defKindToExtKind
  | None => typeToExtKind <$> (getSchema context ≫= (.!! typeName))
  end.

Section Visitor.
(** [logServiceAndType] of ../../utils *)
Variable logServiceAndType : string → string → string.

Definition wrong_kind (serviceName typeName : string)
    (baseKind : Kind) (expectedKind : option Kind) (nodeKind : Kind)
    : ReportedError :=
  mkReportedError "EXTENSION_OF_WRONG_KIND"
    (logServiceAndType serviceName typeName +:+ "`" +:+ typeName
     +:+ "` was originally defined as a " +:+ Kind_value baseKind
     +:+ " and can only be extended by a " +:+ show_kind expectedKind
     +:+ ". " +:+ serviceName +:+ " defines " +:+ typeName +:+ " as a "
     +:+ Kind_value nodeKind).

Definition no_base (serviceName typeName : string) : ReportedError :=
  mkReportedError "EXTENSION_WITH_NO_BASE"
    (logServiceAndType serviceName typeName +:+ "`" +:+ typeName
     +:+ "` is an extension type, but `" +:+ typeName
     +:+ "` is not defined in any service").

(** lines 29-35: the type definitions of the document by name, a later
    definition replacing an earlier one of the same name *)
Definition definedTypes_of (context : SDLValidationContext)
    : gmap string DefinitionNode :=
  foldl (λ definedTypes def,
           if isTypeDefinitionNode (kind def)
           then <[node_name def := def]> definedTypes
           else definedTypes)
        ∅ (getDocument context).

(** lines 37-82: the errors reported for one extension node *)
Definition checkExtension (context : SDLValidationContext)
    (node : DefinitionNode) : list ReportedError :=
  let typeName := node_name node in
  let defNode := definedTypes_of context !! typeName in
  let existingType := getSchema context ≫= (.!! typeName) in
  match serviceName node with
  | None => []
  | Some serviceName =>
      if negb (nonempty serviceName) then []
      else
        match defNode with
        | Some defNode =>
            let expectedKind := lookup_kind (kind defNode) defKindToExtKind in
            let baseKind := kind defNode in
            if bool_decide (expectedKind ≠ Some (kind node)) then
              [wrong_kind serviceName typeName baseKind expectedKind (kind node)]
            else []
        | None =>
            match existingType with
            | Some existingType =>
                let expectedKind := typeToExtKind existingType in
                let baseKind := typeToKind existingType in
                if bool_decide (expectedKind ≠ kind node) then
                  [wrong_kind serviceName typeName baseKind (Some expectedKind)
                     (kind node)]
                else []
            | None => [no_base serviceName typeName]
            end
        end
  end.

(** The visitor, run over the document: [checkExtension] on every
    object and interface type extension, in the order of the document. *)
Definition PossibleTypeExtensions (context : SDLValidationContext)
    : list ReportedError :=
  flat_map (λ node,
              match kind node with
              | OBJECT_TYPE_EXTENSION | INTERFACE_TYPE_EXTENSION =>
                  checkExtension context node
              | _ => []
              end)
           (getDocument context).
End Visitor.
End Federation.

(** ** Vocabulary of the statements *)

Section Vocabulary.
Context {C : Type} `{KeyValueCache C}.
Variable env : Env.

(** INIT completes: no data sources are configured, or the context does
    not carry a [dataSources] key of its own. *)
Definition init_ok (config : GraphQLRequestPipelineConfig)
    (rc : GraphQLRequestContext) : Prop :=
  dataSources config = None ∨ context rc !! "dataSources" = None.

(** What INIT computes when it completes: the extensions of the stack,
    the request context, the events and the world. *)
Definition extensionStack_of (config : GraphQLRequestPipelineConfig)
    : list GraphQLExtension :=
  let extensions := default [] (cfg_extensions config) in
  let extensions :=
    if tracing config then extensions ++ [TracingExtension env]
    else extensions in
  match cacheControl config with
  | Some options => extensions ++ [CacheControlExtension env options]
  | None => extensions
  end.

Definition initialized (config : GraphQLRequestPipelineConfig)
    (rc : GraphQLRequestContext) : GraphQLRequestContext :=
  let rc := set_context (insert "_extensionStack" (JObj [])) rc in
  match dataSources config with
  | Some sources =>
      set_context
        (insert "dataSources"
           (JObj (map (λ '(name, _), (name, JObj [])) sources))) rc
  | None => rc
  end.

Definition init_events (config : GraphQLRequestPipelineConfig) : list Event :=
  match dataSources config with
  | Some sources =>
      omap (λ '(name, ds),
              if has_initialize ds then Some (EvDataSourceInitialize name)
              else None) sources
  | None => []
  end.

Definition init_world (config : GraphQLRequestPipelineConfig) (w : World C)
    : World C :=
  match dataSources config with
  | Some _ => with_trace (trace w ++ init_events config) (with_ext_calls [] w)
  | None => with_ext_calls [] w
  end.

(** The argument of the stack's [requestDidStart]. *)
Definition requestDidStart_args (rc : GraphQLRequestContext) (rq : ResolvedQuery)
    : RequestDidStartArgs :=
  mkRequestDidStartArgs (http (request rc)) (query (request rc))
    (operationName (request rc)) (variables (request rc))
    (extensions (request rc)) (persistedQueryHit rq) (persistedQueryRegister rq).

(** Two computations whose extension stacks have related histories end
    with the same result and related histories. *)
Definition sim (Rel : list ExtCall → list ExtCall → Prop) {A}
    (m m' : M C A) : Prop :=
  ∀ w w', Rel (ext_calls w) (ext_calls w') →
    fst (m w) = fst (m' w')
    ∧ Rel (ext_calls (snd (m w))) (ext_calls (snd (m' w'))).

(** The store, the writes in flight and the console are as they were. *)
Definition same_store (w w' : World C) : Prop :=
  pq_cache w' = pq_cache w ∧ inflight w' = inflight w ∧ console w' = console w.

Definition frame {A} (m : M C A) : Prop := ∀ w, same_store w (snd (m w)).
End Vocabulary.

Definition with_request (r : GraphQLRequest) (rc : GraphQLRequestContext)
    : GraphQLRequestContext :=
  mkRequestContext r (context rc) (rc_document rc) (rc_operation rc)
    (rc_operationName rc) (rc_response rc).

(** Two request contexts that differ at most in how the query text was
    supplied: the request's [query], [extensions] and [http]. *)
Definition agree (rc rc' : GraphQLRequestContext) : Prop :=
  context rc = context rc'
  ∧ rc_document rc = rc_document rc'
  ∧ rc_operation rc = rc_operation rc'
  ∧ rc_operationName rc = rc_operationName rc'
  ∧ rc_response rc = rc_response rc'
  ∧ operationName (request rc) = operationName (request rc')
  ∧ variables (request rc) = variables (request rc').

(** The extension stack answers the same whatever [requestDidStart] was
    told. *)
Definition blind_stack (env : Env) (stack : list GraphQLExtension) : Prop :=
  ∀ a a' rest,
    stack_format env stack (XRequestDidStart a :: rest)
    = stack_format env stack (XRequestDidStart a' :: rest)
    ∧ ∀ r,
        stack_willSendResponse env stack (XRequestDidStart a :: rest) r
        = stack_willSendResponse env stack (XRequestDidStart a' :: rest) r.

(** Neither the plugins' factories nor the hooks of the listeners they
    return look at how the query text was supplied. *)
Definition blind_plugins (config : GraphQLRequestPipelineConfig) : Prop :=
  ∀ plugin factory,
    plugin ∈ default [] (plugins config) →
    requestDidStart plugin = Some factory →
    (∀ rc rc', agree rc rc' → factory rc = factory rc')
    ∧ (∀ rc0 l h hook,
         factory rc0 = Some l → method l h = Some hook →
         ∀ rc rc', agree rc rc' → hook rc = hook rc').

Inductive same_after_start : list ExtCall → list ExtCall → Prop :=
| same_after_start_intro a a' rest :
    same_after_start (XRequestDidStart a :: rest) (XRequestDidStart a' :: rest).


(** ** Vocabulary of the stages' traces *)
Section TraceVocabulary.
Context {C : Type}.

(** The world after the calls [xs] on the extension stack and the events
    [es]. *)
Definition extend (xs : list ExtCall) (es : list Event) (w : World C) : World C :=
  with_trace (trace w ++ es) (with_ext_calls (ext_calls w ++ xs) w).

(** [m], run in [w], ends with [r], having made the calls [xs] on the
    extension stack and added the events [es] to the trace, and nothing
    else. *)
Definition runs {A} (m : M C A) (w : World C) (r : Res A)
    (xs : list ExtCall) (es : list Event) : Prop :=
  m w = (r, extend xs es w).

Definition quiet (d : Dispatcher) : Prop :=
  ∀ i l h hook rc, (i, l) ∈ d → method l h = Some hook → ∃ b, hook rc = Ok b.

(** What [processRequest] calls outside any [try ... catch] returns:
    [graphql.validate], the stack's [format] and [willSendResponse], and
    [formatResponse]. *)
Definition returning (env : Env) (config : GraphQLRequestPipelineConfig)
    (stack : list GraphQLExtension) : Prop :=
  (∀ document, ∃ validationErrors,
     graphql_validate env document = Ok validationErrors)
  ∧ (∀ calls, ∃ formattedExtensions,
       stack_format env stack calls = Ok formattedExtensions)
  ∧ (∀ format response context,
       formatResponse config = Some format →
       ∃ formatted, format response context = Ok formatted)
  ∧ (∀ calls response, ∃ sent,
       stack_willSendResponse env stack calls response = Ok sent).

(** The value of [r], or [d] when [r] is an exception. *)
Definition ok_or {A} (d : A) (r : Res A) : A :=
  match r with Ok a => a | Throw _ => d end.

Definition res_map {A B} (f : A → B) (r : Res A) : Res B :=
  match r with Ok a => Ok (f a) | Throw e => Throw e end.

Definition hook_events (d : Dispatcher) (h : HookName) : list Event :=
  omap (λ il, match method il.2 h with
              | Some _ => Some (EvHook il.1 h)
              | None => None
              end) d.

(** The listeners whose did-start hook returns an end handler. *)
Definition end_handlers (d : Dispatcher) (h : HookName)
    (rc : GraphQLRequestContext) : list nat :=
  omap (λ il, match method il.2 h with
              | Some hook =>
                  match hook rc with
                  | Ok true => Some il.1
                  | _ => None
                  end
              | None => None
              end) d.

(** What [sendResponse] hands to the stack's [willSendResponse]. *)
Definition outgoing (rc : GraphQLRequestContext) (r : GraphQLResponse)
    : GraphQLResponse :=
  mkResponse (data r) (errors r) (resp_extensions r)
             (rc_response rc ≫= resp_http).

(** The request was opened with [start] and drained: the stack's
    [willSendResponse], every listener's [willSendResponse] and the
    [requestDidEnd] handler have been invoked. *)
Definition drained (d : Dispatcher) (start : RequestDidStartArgs)
    (es : list Event) : Prop :=
  EvExt (XRequestDidStart start) ∈ es
  ∧ (∃ sent, EvExt (XWillSendResponse sent) ∈ es)
  ∧ (∀ i l, (i, l) ∈ d → is_Some (method l willSendResponse) →
       EvHook i willSendResponse ∈ es)
  ∧ EvExt XRequestDidEnd ∈ es.

(** Events of the [willSendResponse] stage: the stack's, a listener's. *)
Definition is_willSendResponse (ev : Event) : Prop :=
  match ev with
  | EvExt (XWillSendResponse _) | EvHook _ willSendResponse => True
  | _ => False
  end.

(** No [willSendResponse] was invoked, neither the stack's nor a
    listener's. *)
Definition no_willSendResponse (es : list Event) : Prop :=
  Forall (λ ev, ¬ is_willSendResponse ev) es.

End TraceVocabulary.

(** ** Vocabulary of the coordinator's statements *)
Section HttpVocabulary.
Variable env : Env.

(** [optionsObject] once [debug] has its default. *)
Definition with_default_debug (o : GraphQLOptions) : GraphQLOptions :=
  match opt_debug o with
  | None => set_debug (Some (debugDefault env)) o
  | Some _ => o
  end.

(** The method is one of the two supported and the payload is there. *)
Definition accepted (request : HttpQueryRequest) (isGetRequest : bool) : Prop :=
  ((method_ request = "POST" ∧ isGetRequest = false)
   ∨ (method_ request = "GET" ∧ isGetRequest = true))
  ∧ missing (http_query request) = false.

(** What a batch member's callback leaves in its slot. *)
Definition slot_of (o : GraphQLOptions) (r : Res GraphQLResponse)
    : GraphQLResponse :=
  match r with
  | Ok response => response
  | Throw e =>
      response_of
        (Some (formatApolloErrors env [e] (mkFormatOptions (opt_debug o) None)))
  end.

(** What the [catch] block logs. *)
Definition log_line (o : GraphQLOptions) : string :=
  "debug: " +:+ show_debug (opt_debug o) +:+ ", formatError: " +:+
  match opt_formatError o with
  | Some _ => "[Function]"
  | None => "undefined"
  end.

(** The context a member callback starts from, when creating it does not
    fail. *)
Definition created_context (o : GraphQLOptions) : option (gmap string JSValue) :=
  match opt_context o with
  | ContextAbsent => Some ∅
  | ContextFunction (inr value) => Some value
  | ContextFunction (inl _) => None
  | ContextValue value => Some value
  end.

(** Creating the context and attaching the data sources both succeed. *)
Definition context_ok (o : GraphQLOptions) : Prop :=
  ∃ ctx, created_context o = Some ctx
         ∧ (opt_dataSources o = None ∨ ctx !! "dataSources" = None).

(** [cacheControl] after a member callback has passed lines 397-420. *)
Definition assigned (o : GraphQLOptions)
    (before : option CacheControlExtensionOptions)
    : option CacheControlExtensionOptions :=
  match cacheControl_of o with
  | Some cc => Some cc
  | None => before
  end.
(** The headers of a response that is sent. *)
Definition response_headers (cacheControl : option CacheControlExtensionOptions)
    (responses : list GraphQLResponse) (stringified : string)
    : list (string * string) :=
  assign_header "Content-Length" (Buffer_byteLength env stringified)
    match cacheControl with
    | Some cc =>
        if calculateHttpHeaders cc then
          spread_headers [("Content-Type", "application/json")]
            (calculateCacheControlHeaders env responses)
        else [("Content-Type", "application/json")]
    | None => [("Content-Type", "application/json")]
    end.

End HttpVocabulary.

(** A member whose processing raises, or whose pipeline answers with
    errors. *)
Definition member_fails (r : Res GraphQLResponse) : Prop :=
  match r with
  | Throw _ => True
  | Ok response => is_Some (errors response)
  end.


(** Events of the EXECUTE stage. *)
Definition is_execution (ev : Event) : Prop :=
  match ev with
  | EvExecute _ | EvExt (XExecutionDidStart _) | EvExt XExecutionDidEnd => True
  | _ => False
  end.

Definition no_execution (es : list Event) : Prop :=
  Forall (λ ev, ¬ is_execution ev) es.

(** The computation only adds events to the trace, none of them of the
    EXECUTE stage. *)
Definition grows {C A} (m : M C A) : Prop :=
  ∀ w, ∃ es, trace (snd (m w)) = trace w ++ es ∧ no_execution es.


(** What the GET check throws. *)
Definition method_not_allowed : Exn :=
  HttpQueryError 405 "GET supports only query operation" false
    (Some [("Allow", "POST")]).

(** ** Vocabulary of the further statements *)

(** The request parameters pass the checks of lines 305-348: on GET the
    extensions decode, the query is falsy or a string, and the variables,
    when a string, decode. *)
Definition params_ok (env : Env) (isGetRequest : bool) (requestParams : JSValue)
    : Prop :=
  ∃ fields,
    requestParams = JObj fields
    ∧ let extensions := default JUndefined (assoc "extensions" fields) in
      let queryString := default JUndefined (assoc "query" fields) in
      let variables := default JUndefined (assoc "variables" fields) in
      (isGetRequest && truthy extensions = true →
       is_Some (JSON_parse env extensions))
      ∧ truthy queryString && negb (is_string queryString) = false
      ∧ (is_string variables = true → is_Some (JSON_parse env variables)).

(** [v], decoded with [JSON.parse] when [decode] holds. *)
Definition decoded (env : Env) (decode : bool) (v : JSValue) : JSValue :=
  if decode then default v (JSON_parse env v) else v.

(** The events of initialising the data sources. *)
Definition initialize_events (sources : list (string * DataSource)) : list Event :=
  omap (λ '(name, ds),
          if has_initialize ds then Some (EvDataSourceInitialize name)
          else None) sources.

Definition dataSources_clash : Exn :=
  Error (mkGraphQLError
    "Please use the dataSources config option instead of putting dataSources on the context yourself."
    None None).

(** The events of creating the context. *)
Definition context_events (o : GraphQLOptions) : list Event :=
  match opt_context o with
  | ContextFunction _ => [EvContextFunction]
  | _ => []
  end.

(** [requestParams.name], [undefined] where reading it throws. *)
Definition param (requestParams : JSValue) (name : string) : JSValue :=
  ok_or JUndefined (prop requestParams name).

(** The argument of [requestProcessor.processRequest] for the request
    parameters [requestParams] (lines 458-464): the query and the
    operation name as they came, the variables and, on GET, the extensions
    decoded. *)
Definition processed_request (env : Env) (request : HttpQueryRequest)
    (isGetRequest : bool) (requestParams : JSValue) : ProcessorRequest :=
  let extensions := param requestParams "extensions" in
  let variables := param requestParams "variables" in
  mkProcessorRequest (param requestParams "query")
    (param requestParams "operationName")
    (decoded env (is_string variables) variables)
    (decoded env (isGetRequest && truthy extensions) extensions)
    (http_request request).

(** The context a member callback ends up with (lines 350-395): the one
    created, with the data sources attached. *)
Definition prepared_context (o : GraphQLOptions) (context : gmap string JSValue)
    : gmap string JSValue :=
  match opt_dataSources o with
  | Some made =>
      <["dataSources" :=
          JObj (map (λ '(name, _), (name, JObj [])) (default [] made))]> context
  | None => context
  end.

(** The options the request processor is built with (lines 422-439);
    [cacheControl] is what lines 397-420 assign. *)
Definition processor_options (env : Env) (o : GraphQLOptions)
    (isGetRequest : bool) (context : gmap string JSValue)
    (requestParams : JSValue) : GraphQLRequestProcessorOptions :=
  let extensions := param requestParams "extensions" in
  mkProcessorOptions (prepared_context o context) (opt_extensions o)
    (opt_persistedQueries o) (opt_tracing o) (cacheControl_of o)
    (opt_formatResponse o) (opt_debug o)
    (decoded env (isGetRequest && truthy extensions) extensions).

(** The events of a member callback before it runs the processor:
    creating the context, initialising the data sources. *)
Definition prepare_events (o : GraphQLOptions) : list Event :=
  context_events o
  ++ match opt_dataSources o with
     | Some made => initialize_events (default [] made)
     | None => []
     end.

(** The world in which a member callback runs the processor, when it
    started in [w]. *)
Definition processing_world {C} (o : GraphQLOptions) (processed : ProcessorRequest)
    (w : World C) : World C :=
  with_trace (trace w ++ prepare_events o ++ [EvProcessRequest processed]) w.


(** The calls received by the extension stack of a request that was
    parsed: opening, parsing. *)
Definition parsed_calls (rc : GraphQLRequestContext) (rq : ResolvedQuery)
    : list ExtCall :=
  [XRequestDidStart
     (mkRequestDidStartArgs (http (request rc)) (query (request rc))
        (operationName (request rc)) (variables (request rc))
        (extensions (request rc)) (persistedQueryHit rq)
        (persistedQueryRegister rq));
   XParsingDidStart (resolved_query rq); XParsingDidEnd].

Definition validated_calls (rc : GraphQLRequestContext) (rq : ResolvedQuery)
    : list ExtCall :=
  parsed_calls rc rq ++ [XValidationDidStart; XValidationDidEnd].

(** What [execute] hands to graphql-js. *)
Definition executionArgs_of (rc : GraphQLRequestContext) (document : DocumentNode)
    : ExecutionArgs :=
  mkExecutionArgs document (context rc) (variables (request rc))
    (operationName (request rc)).

Definition executed_calls (rc : GraphQLRequestContext) (rq : ResolvedQuery)
    (document : DocumentNode) : list ExtCall :=
  validated_calls rc rq
  ++ [XExecutionDidStart (executionArgs_of rc document); XExecutionDidEnd].

(** The response built from an execution result: the formatted
    extensions when there are any, then [formatResponse]; what either of
    the two throws, when it throws. *)
Definition formatted_response (env : Env) (config : GraphQLRequestPipelineConfig)
    (stack : list GraphQLExtension) (rc : GraphQLRequestContext)
    (calls : list ExtCall) (result : ExecutionResult) : Res GraphQLResponse :=
  match stack_format env stack calls with
  | Ok formattedExtensions =>
      let response :=
        mkResponse (result_data result) (result_errors result)
          (if (0 <? length formattedExtensions)%nat then Some formattedExtensions
           else None)
          None in
      match formatResponse config with
      | Some format => format response (context rc)
      | None => Ok response
      end
  | Throw e => Throw e
  end.

(** What [sendResponse] answers when no listener hook throws, given the
    calls made before it: what the stack's [willSendResponse] returns or
    throws. *)
Definition sent_after (env : Env) (stack : list GraphQLExtension)
    (rc : GraphQLRequestContext) (before : list ExtCall) (r : GraphQLResponse)
    : Res GraphQLResponse :=
  stack_willSendResponse env stack before (outgoing rc r).

Definition calls_after (rc : GraphQLRequestContext) (before : list ExtCall)
    (r : GraphQLResponse) : list ExtCall :=
  before ++ [XWillSendResponse (outgoing rc r); XRequestDidEnd].


(** The hooks of one stage return, on this request context. *)
Definition hooks_return (d : Dispatcher) (h : HookName)
    (rc : GraphQLRequestContext) : Prop :=
  ∀ i l hook, (i, l) ∈ d → method l h = Some hook → ∃ b, hook rc = Ok b.

(** The computation only adds calls to the history of the extension
    stack. *)
Definition appends {C A} (m : M C A) : Prop :=
  ∀ w, ∃ xs, ext_calls (snd (m w)) = ext_calls w ++ xs.

(** ** A concrete server

    A small schema ([testString], [testMutation]), an in-memory store that
    writes when [set] is called and can be switched to reject its writes,
    and stand-ins for the host's digest and JSON, on which the definitions
    above run. *)
Module Demo.
Record Store := mkStore {
  entries : gmap string string;
  healthy : bool;
}.

#[global] Instance Store_cache : KeyValueCache Store := {|
  cache_get c key := Ok (entries c !! key);
  cache_set_call c key value :=
    if healthy c then mkStore (<[key := value]> (entries c)) true else c;
  cache_set c key value :=
    if healthy c then Ok c
    else Throw (Error (mkGraphQLError "store unavailable" None None));
|}.

Definition testString : OperationDefinitionNode :=
  mkOperation query_op None "{ testString }".
Definition testMutation : OperationDefinitionNode :=
  mkOperation mutation_op None "{ testMutation }".

Definition demo_parse (q : string) : Res DocumentNode :=
  if String.eqb q "{ testString }" then Ok (mkDocument [testString])
  else if String.eqb q "mutation { testMutation }" then
    Ok (mkDocument [testMutation])
  else if String.eqb q "{ unknownField }" then
    Ok (mkDocument [mkOperation query_op None "{ unknownField }"])
  else Throw (Error (mkGraphQLError "Syntax Error" None None)).

Definition demo_validate (d : DocumentNode) : Res (list GraphQLError) :=
  match definitions d with
  | [op] =>
      if String.eqb (selection op) "{ unknownField }" then
        Ok [mkGraphQLError "Cannot query field unknownField" None None]
      else Ok []
  | _ => Ok []
  end.

Definition demo_getOperationAST (d : DocumentNode) (opname : option string)
    : option OperationDefinitionNode :=
  match opname with
  | None => match definitions d with [op] => Some op | _ => None end
  | Some n =>
      List.find (λ op, bool_decide (name op = Some n)) (definitions d)
  end.

Definition demo_execute (a : ExecutionArgs) : Res ExecutionResult :=
  match definitions (args_document a) with
  | [op] =>
      match operation op with
      | query_op =>
          Ok (mkExecutionResult (JObj [("testString", JStr "it works")]) None)
      | _ =>
          Ok (mkExecutionResult (JObj [("testMutation", JStr "done")]) None)
      end
  | _ => Throw (Error (mkGraphQLError "Must provide an operation." None None))
  end.

Definition exn_message (e : Exn) : string :=
  match e with
  | Error e => message e
  | InvalidGraphQLRequestError msg => msg
  | PersistedQueryNotSupportedError => "PersistedQueryNotSupported"
  | PersistedQueryNotFoundError => "PersistedQueryNotFound"
  | HttpQueryError _ msg _ _ => msg
  end.

Definition exn_code (e : Exn) : option string :=
  match e with
  | Error e => code e
  | PersistedQueryNotSupportedError => Some "PERSISTED_QUERY_NOT_SUPPORTED"
  | PersistedQueryNotFoundError => Some "PERSISTED_QUERY_NOT_FOUND"
  | _ => None
  end.

Definition demo_fromGraphQLError (e : Exn) (cls : option ErrorClass)
    : GraphQLError :=
  mkGraphQLError (exn_message e)
    (match cls with
     | Some SyntaxError => Some "GRAPHQL_PARSE_FAILED"
     | Some ValidationError => Some "GRAPHQL_VALIDATION_FAILED"
     | None => Some (default "INTERNAL_SERVER_ERROR" (exn_code e))
     end)
    None.

Definition demo_formatApolloErrors (es : list Exn) (o : FormatOptions)
    : list GraphQLError :=
  map (λ e,
         let formatted :=
           mkGraphQLError (exn_message e)
             (Some (default "INTERNAL_SERVER_ERROR" (exn_code e))) None in
         match fo_formatter o with
         | Some f => f formatted
         | None => formatted
         end)
      es.

Definition silent : GraphQLExtension :=
  mkExtension (λ _, None) (λ _ _, None).

Definition demo_stack_format (exts : list GraphQLExtension)
    (calls : list ExtCall) : Res (list (string * JSValue)) :=
  Ok (omap (λ e, ext_format e calls) exts).

Definition demo_stack_willSendResponse (exts : list GraphQLExtension)
    (calls : list ExtCall) (r : GraphQLResponse) : Res GraphQLResponse :=
  Ok (foldr (λ e acc, default acc (ext_willSendResponse e calls acc)) r exts).

Definition demo_JSON_parse (v : JSValue) : option JSValue :=
  match v with
  | JStr s =>
      if String.eqb s "{}" then Some (JObj [])
      else if String.eqb s "{ echo: 1 }" then
        Some (JObj [("echo", JNum 1)])
      else None
  | _ => None
  end.

Definition render_errors (es : list string) : string :=
  "{errors:[" +:+ String.concat "," es +:+ "]}".

Definition render_response (r : GraphQLResponse) : string :=
  match errors r, data r with
  | Some es, JUndefined => render_errors (map message es)
  | Some es, _ => "{data," +:+ render_errors (map message es) +:+ "}"
  | None, JUndefined => "{}"
  | None, _ => "{data}"
  end.

Definition demo_JSON_stringify (j : Json) : string :=
  match j with
  | JsonErrors es => render_errors (map exn_message es)
  | JsonResponse r => render_response r
  | JsonResponses rs => "[" +:+ String.concat "," (map render_response rs) +:+ "]"
  end.

Definition env : Env :=
  mkEnv (λ q, "sha256:" +:+ q)
        demo_parse demo_validate demo_getOperationAST demo_execute
        demo_fromGraphQLError demo_formatApolloErrors
        silent (λ _, silent) demo_stack_format demo_stack_willSendResponse
        demo_JSON_parse demo_JSON_stringify
        (λ s, pretty (String.length s)) (Some "test") (λ _, []).

Definition world (entries : gmap string string) (healthy : bool) : World Store :=
  mkWorld (mkStore entries healthy) [] [] [] [].

Definition config : GraphQLRequestPipelineConfig :=
  mkConfig None None false (Some (mkPersistedQueryOptions (Some the_pq_cache)))
           None None None.

Definition requestContext (request : GraphQLRequest) : GraphQLRequestContext :=
  mkRequestContext request ∅ None None None None.

Definition apq (hash : string) : option Extensions :=
  Some (mkExtensions (Some (mkPersistedQuery 1 hash)) []).

(** a listener that implements every hook and returns end handlers *)
Definition observer : GraphQLRequestListener :=
  mkListener (Some (λ _, Ok true)) (Some (λ _, Ok true)) (Some (λ _, Ok false))
             (Some (λ _, Ok true)) (Some (λ _, Ok false)).

Definition observed : GraphQLRequestPipelineConfig :=
  mkConfig None None false (Some (mkPersistedQueryOptions (Some the_pq_cache)))
           None None (Some [mkPlugin (Some (λ _, Some observer))]).

Definition options : GraphQLOptions :=
  mkOptions ContextAbsent None None None CacheControlUndefined None
            (Some (mkPersistedQueryOptions (Some the_pq_cache))) false None.

Definition http (method payload : JSValue) : HttpQueryRequest :=
  mkHttpQueryRequest (default EmptyString (GraphQLRequestProcessor.as_string method))
                     payload (inr options) (JObj []).

Definition run (request : HttpQueryRequest) : M Store HttpQueryResponse :=
  runHttpQuery env (GraphQLRequestProcessor.processRequest env) request.
End Demo.

(** ** Requests to run on it *)
Module Examples.
Import Demo.

Definition hash_of_testString : string := "sha256:{ testString }".

Definition lookup_testString : GraphQLRequestContext :=
  requestContext (mkRequest None None None (apq hash_of_testString) None).

Definition register_testString : GraphQLRequestContext :=
  requestContext
    (mkRequest (Some "{ testString }") None None (apq hash_of_testString) None).

Definition literal_testString : GraphQLRequestContext :=
  requestContext (mkRequest (Some "{ testString }") None None None None).

Definition mismatched : GraphQLRequestContext :=
  requestContext (mkRequest (Some "{ testString }") None None (apq "0000") None).

Definition no_query : GraphQLRequestContext :=
  requestContext (mkRequest None None None None None).

Definition register_empty : GraphQLRequestContext :=
  requestContext (mkRequest (Some EmptyString) None None (apq "sha256:") None).

Definition lookup_empty : GraphQLRequestContext :=
  requestContext (mkRequest None None None (apq "sha256:") None).

Definition literal_empty : GraphQLRequestContext :=
  requestContext (mkRequest (Some EmptyString) None None None None).
End Examples.

Module HttpExamples.
Import Demo.

Definition processor :=
  GraphQLRequestProcessor.processRequest (C:=Store) env.

Definition post (payload : JSValue) : HttpQueryRequest :=
  mkHttpQueryRequest "POST" payload (inr options) (JObj []).

Definition get (payload : JSValue) : HttpQueryRequest :=
  mkHttpQueryRequest "GET" payload (inr options) (JObj []).

Definition good : JSValue := JObj [("query", JStr "{ testString }")].
Definition numeric_query : JSValue := JObj [("query", JNum 5)].
Definition zero_query : JSValue := JObj [("query", JNum 0)].
Definition mutation : JSValue := JObj [("query", JStr "mutation { testMutation }")].
Definition bad_variables : JSValue :=
  JObj [("query", JStr "{ testString }"); ("variables", JStr "{")].

Definition start : RunState Store := mkRunState None (world ∅ true).

Definition defaults : GraphQLOptions := with_default_debug env options.

(** the second member of the batch [numeric_query; good] *)
Definition after_first : RunState Store :=
  Eval vm_compute in
    snd (member env processor (post (JArr [numeric_query; good])) defaults
           false true numeric_query start).

Definition second : Res GraphQLResponse * RunState Store :=
  Eval vm_compute in
    member_try env processor (post (JArr [numeric_query; good])) defaults
      false good after_first.

Definition single : Res GraphQLResponse * RunState Store :=
  Eval vm_compute in member_try env processor (post good) defaults false good start.

(** the processor, run for the second member *)
Definition second_processed : ProcessorRequest :=
  processed_request env (post (JArr [numeric_query; good])) false good.

Definition second_run : Res GraphQLResponse * World Store :=
  Eval vm_compute in
    processor (processor_options env defaults false ∅ good) None
      second_processed
      (processing_world defaults second_processed
         match after_first with mkRunState _ w => w end).

Definition echo_variables : JSValue :=
  JObj [("query", JStr "{ testString }"); ("variables", JStr "{ echo: 1 }")].

Definition echo_processed : ProcessorRequest :=
  processed_request env (post echo_variables) false echo_variables.

Definition echo_run : Res GraphQLResponse * World Store :=
  Eval vm_compute in
    processor (processor_options env defaults false ∅ echo_variables) None
      echo_processed (processing_world defaults echo_processed (world ∅ true)).
End HttpExamples.

(** ** Further requests, servers and documents *)
Module MoreExamples.
Import Demo HttpExamples.

Definition put (payload : JSValue) : HttpQueryRequest :=
  mkHttpQueryRequest "PUT" payload (inr options) (JObj []).

Definition broken_options : HttpQueryRequest :=
  mkHttpQueryRequest "POST" good
    (inl (mkGraphQLError "schema must be provided" None None)) (JObj []).

Definition unknown_hash : JSValue :=
  JObj [("extensions",
         JObj [("persistedQuery",
                JObj [("version", JNum 1); ("sha256Hash", JStr "abc")])])].

Definition unknown_hash_run : Res GraphQLResponse * RunState Store :=
  Eval vm_compute in
    member_try env processor (post unknown_hash) defaults false unknown_hash
      start.

Definition good_run : Res HttpQueryResponse * World Store :=
  Eval vm_compute in runHttpQuery env processor (post good) (world ∅ true).

Definition rejected_run : Res HttpQueryResponse * World Store :=
  Eval vm_compute in
    runHttpQuery env processor (post numeric_query) (world ∅ true).

Definition unauthenticated : GraphQLError :=
  mkGraphQLError "no token" (Some "UNAUTHENTICATED") None.

Definition with_context (c : ContextOption) : GraphQLOptions :=
  mkOptions c None None None CacheControlUndefined None
            (Some (mkPersistedQueryOptions (Some the_pq_cache))) false None.

Definition with_dataSources : GraphQLOptions :=
  mkOptions (ContextValue (<["dataSources" := JObj []]> ∅)) None None
            (Some (Some [("db", mkDataSource true)])) CacheControlUndefined
            None None false None.

Definition proxy : GraphQLOptions :=
  mkOptions ContextAbsent None None None (CacheControlBoolean true) None
            (Some (mkPersistedQueryOptions (Some the_pq_cache))) false None.

Definition request_with (o : GraphQLOptions) (method : string)
    (payload : JSValue) : HttpQueryRequest :=
  mkHttpQueryRequest method payload (inr o) (JObj []).

Definition prepared_good : Prepared :=
  mkPrepared (JStr "{ testString }") JUndefined JUndefined JUndefined ∅.

Definition proxy_run : Res GraphQLResponse * World Store :=
  Eval vm_compute in
    member_process processor (request_with proxy "POST" good)
      (with_default_debug env proxy) false
      (Some (mkCacheControlOptions 0 false false)) prepared_good
      (world ∅ true).

Definition bad_extensions : JSValue :=
  JObj [("query", JStr "{ testString }"); ("extensions", JStr "{")].

Definition no_cache : GraphQLRequestPipelineConfig :=
  mkConfig None None false None None None None.

Definition version_2 : GraphQLRequestContext :=
  requestContext
    (mkRequest None None None
       (Some (mkExtensions (Some (mkPersistedQuery 2 "abc")) [])) None).

Definition with_sources : GraphQLRequestPipelineConfig :=
  mkConfig (Some [("db", mkDataSource true); ("files", mkDataSource false)])
           None false None None None None.

Definition clashing : GraphQLRequestContext :=
  mkRequestContext (mkRequest (Some "{ testString }") None None None None)
    (<["dataSources" := JNull]> ∅) None None None None.

Definition literal (q : string) : GraphQLRequestContext :=
  requestContext (mkRequest (Some q) None None None None).

Definition syntax_error : Exn :=
  Error (mkGraphQLError "Syntax Error" None None).

Definition unknown_field : DocumentNode :=
  mkDocument [mkOperation query_op None "{ unknownField }"].

Definition resolver_failure : Exn :=
  Error (mkGraphQLError "resolver failed" None None).

(** a plugin whose listener refuses every document at validation *)
Definition strict : GraphQLRequestPipelineConfig :=
  mkConfig None None false None None None
    (Some [mkPlugin
             (Some (λ _, Some (mkListener None
                                 (Some (λ _, Throw resolver_failure))
                                 None None None)))]).

(** the demo server, with a graphql-js whose [execute] throws *)
Definition failing : Env :=
  mkEnv (sha256_hex env) (graphql_parse env) (graphql_validate env)
        (getOperationAST env) (λ _, Throw resolver_failure)
        (fromGraphQLError env) (formatApolloErrors env)
        (TracingExtension env) (CacheControlExtension env)
        (stack_format env) (stack_willSendResponse env)
        (JSON_parse env) (JSON_stringify env) (Buffer_byteLength env)
        (NODE_ENV env) (calculateCacheControlHeaders env).

Definition validator_failure : Exn :=
  Error (mkGraphQLError "validation rule crashed" None None).

(** the demo server, with a graphql-js whose [validate] throws *)
Definition crashing : Env :=
  mkEnv (sha256_hex env) (graphql_parse env) (λ _, Throw validator_failure)
        (getOperationAST env) (graphql_execute env)
        (fromGraphQLError env) (formatApolloErrors env)
        (TracingExtension env) (CacheControlExtension env)
        (stack_format env) (stack_willSendResponse env)
        (JSON_parse env) (JSON_stringify env) (Buffer_byteLength env)
        (NODE_ENV env) (calculateCacheControlHeaders env).

Definition guarded : ApolloServerBase :=
  mkApolloServerBase
    (Some (ServerContextFunction (λ _, inl unauthenticated)))
    []
    (mkRequestOptions None None None CacheControlUndefined
       (Some (mkPersistedQueryOptions (Some the_pq_cache))) false None).

Import OperationRegistry.

Definition manifest : Response :=
  mkFetchResponse 200 true (Some "v1") "{}".

Definition not_modified : Response :=
  mkFetchResponse 304 false None EmptyString.

Definition forbidden : Response :=
  mkFetchResponse 403 false None "Forbidden".

Definition nothing_fetched : FetchState := mkFetchState ∅ [] [].

Import Federation.

Definition product_document : SDLValidationContext :=
  mkSDLValidationContext None
    [mkDefinitionNode INTERFACE_TYPE_DEFINITION "Product" None;
     mkDefinitionNode OBJECT_TYPE_EXTENSION "Product" (Some "reviews")].

Definition extend_type_Product : DefinitionNode :=
  mkDefinitionNode OBJECT_TYPE_EXTENSION "Product" (Some "reviews").
End MoreExamples.

(** * Properties *)

Arguments runStages : simpl never.

Section Init.
Context {C : Type} `{KeyValueCache C}.
Variable env : Env.

Lemma processRequest_init config rc w :
  init_ok config rc →
  processRequest env config rc w =
  (rq <- resolveQuery env config (request rc) ;;
   runStages env config (new_Dispatcher (requestListeners_of config rc))
     (extensionStack_of env config) (initialized config rc) rq)
    (init_world config w).
Proof.
  intros Hok.
  unfold processRequest, initializeExtensionStack, initializeDataSources,
    init_world, initialized, init_events, extensionStack_of, bind at 1 2.
  destruct (dataSources config) as [sources|] eqn:Hds; cbn.
  - destruct Hok as [Hok|Hok]; [congruence|].
    unfold bind at 1, emits. cbn.
    rewrite lookup_insert_ne by done. rewrite Hok.
    rewrite bool_decide_eq_false_2 by (intros [? ?]; discriminate).
    reflexivity.
  - reflexivity.
Qed.
End Init.

Section ResolveQuery.
Context {C : Type} `{KeyValueCache C}.
Variable env : Env.

Lemma init_world_pq_cache config (w : World C) :
  pq_cache (init_world config w) = pq_cache w.
Proof. unfold init_world. by destruct (dataSources config). Qed.

(** C9. On a lookup (hash present, no query text) the text retrieved
    from the cache is a hit only when it is not empty: when the cache
    answers the empty string, [processRequest] fails with
    [PersistedQueryNotFoundError] and leaves the world exactly as it does
    when the cache has no entry. *)
Theorem empty_persisted_text_is_a_miss config rc (w : World C) pq found :
  init_ok config rc →
  extensions (request rc) ≫= persistedQuery = Some pq →
  is_Some (persistedQueries config ≫= cache) →
  version pq = 1%Z →
  query (request rc) = None →
  cache_get (pq_cache w) ("apq:" +:+ sha256Hash pq) = Ok found →
  (found = None ∨ found = Some EmptyString →
   processRequest env config rc w =
   (Throw PersistedQueryNotFoundError,
    with_trace (trace (init_world config w)
                ++ [EvCacheGet ("apq:" +:+ sha256Hash pq)])
               (init_world config w)))
  ∧ (∀ text, found = Some text → text ≠ EmptyString →
     fst (resolveQuery env config (request rc) w)
     = Ok (mkResolved text true false)).
Proof.
  intros Hinit Hpq [ref Hcache] Hversion Hquery Hget. split.
  - intros Hfound. rewrite (processRequest_init env) by done.
    unfold bind at 1, resolveQuery.
    rewrite Hpq, Hcache, Hversion, Hquery. cbn.
    rewrite init_world_pq_cache, Hget.
    by destruct Hfound as [-> | ->].
  - intros text -> Hne. unfold resolveQuery.
    rewrite Hpq, Hcache, Hversion, Hquery. cbn.
    rewrite Hget.
    destruct (String.eqb_spec text EmptyString); [done|]. reflexivity.
Qed.

(** C4 (amended). When a query text and a version-1 hash are both
    supplied, the cache is configured and the hash is not the digest of
    the text, [processRequest] fails with [InvalidGraphQLRequestError],
    whose message is "provided sha does not match query", whatever the
    cache holds; the store, the writes in flight and the console are left
    as they were. *)
Theorem hash_mismatch_is_invalid_request config rc (w : World C) pq q :
  init_ok config rc →
  extensions (request rc) ≫= persistedQuery = Some pq →
  is_Some (persistedQueries config ≫= cache) →
  version pq = 1%Z →
  query (request rc) = Some q →
  sha256_hex env q ≠ sha256Hash pq →
  ∃ w',
    processRequest env config rc w =
    (Throw (InvalidGraphQLRequestError "provided sha does not match query"), w')
    ∧ pq_cache w' = pq_cache w
    ∧ inflight w' = inflight w
    ∧ console w' = console w.
Proof.
  intros Hinit Hpq [ref Hcache] Hversion Hquery Hne.
  exists (init_world config w). split.
  - rewrite (processRequest_init env) by done.
    unfold bind at 1, resolveQuery, computeQueryHash.
    rewrite Hpq, Hcache, Hversion, Hquery. cbn.
    destruct (String.eqb_spec (sha256Hash pq) (sha256_hex env q)); [congruence|].
    reflexivity.
  - unfold init_world. by destruct (dataSources config).
Qed.
End ResolveQuery.

(** ** Two runs of the stages side by side *)
Section Sim.
Context {C : Type} `{KeyValueCache C}.
Variable env : Env.
Variable Rel : list ExtCall → list ExtCall → Prop.
Variable RC : GraphQLRequestContext → GraphQLRequestContext → Prop.
Variable dispatcher : Dispatcher.
Variable stack : list GraphQLExtension.

Hypothesis Rel_snoc : ∀ l l' c, Rel l l' → Rel (l ++ [c]) (l' ++ [c]).
Hypothesis Rel_format : ∀ l l',
  Rel l l' → stack_format env stack l = stack_format env stack l'.
Hypothesis Rel_willSendResponse : ∀ l l' r,
  Rel l l' →
  stack_willSendResponse env stack l r = stack_willSendResponse env stack l' r.
Hypothesis RC_fields : ∀ rc rc',
  RC rc rc' →
  context rc = context rc'
  ∧ rc_response rc = rc_response rc'
  ∧ operationName (request rc) = operationName (request rc')
  ∧ variables (request rc) = variables (request rc').
Hypothesis RC_set_document : ∀ d rc rc',
  RC rc rc' → RC (set_document d rc) (set_document d rc').
Hypothesis RC_set_operation : ∀ op n rc rc',
  RC rc rc' → RC (set_operation op n rc) (set_operation op n rc').
Hypothesis RC_set_response : ∀ r rc rc',
  RC rc rc' → RC (set_response r rc) (set_response r rc').
Hypothesis RC_hooks : ∀ i l h hook rc rc',
  (i, l) ∈ dispatcher → method l h = Some hook → RC rc rc' →
  hook rc = hook rc'.

Lemma bind_ext {A} c (k : unit → M C A) w :
  bind (ext c) k w
  = k () (with_trace (trace w ++ [EvExt c]) (with_ext_calls (ext_calls w ++ [c]) w)).
Proof. reflexivity. Qed.

Lemma sim_ret {A} (a : A) : sim (C:=C) Rel (ret a) (ret a).
Proof. by intros w w' HR. Qed.

Lemma sim_throw {A} e : sim (C:=C) Rel (@throw _ A e) (throw e).
Proof. by intros w w' HR. Qed.

Lemma sim_lift {A} (r : Res A) : sim (C:=C) Rel (lift r) (lift r).
Proof. by intros w w' HR. Qed.

Lemma sim_bind {A B} (m m' : M C A) (k k' : A → M C B) :
  sim Rel m m' → (∀ a, sim (C:=C) Rel (k a) (k' a)) → sim (C:=C) Rel (bind m k) (bind m' k').
Proof.
  intros Hm Hk w w' HR. unfold bind.
  destruct (Hm w w' HR) as [Hfst Hsnd].
  destruct (m w) as [[a|e] w1], (m' w') as [[a'|e'] w1']; simplify_eq/=; eauto.
  by apply Hk.
Qed.

Lemma sim_try_catch {A} (m m' : M C A) (h h' : Exn → M C A) :
  sim Rel m m' → (∀ e, sim (C:=C) Rel (h e) (h' e)) → sim (C:=C) Rel (try_catch m h) (try_catch m' h').
Proof.
  intros Hm Hh w w' HR. unfold try_catch.
  destruct (Hm w w' HR) as [Hfst Hsnd].
  destruct (m w) as [[a|e] w1], (m' w') as [[a'|e'] w1']; simplify_eq/=; eauto.
  by apply Hh.
Qed.

Lemma sim_try_finally {A} (m m' : M C A) (f f' : M C unit) :
  sim Rel m m' → sim Rel f f' → sim (C:=C) Rel (try_finally m f) (try_finally m' f').
Proof.
  intros Hm Hf w w' HR. unfold try_finally.
  destruct (Hm w w' HR) as [Hfst Hsnd].
  destruct (m w) as [r w1], (m' w') as [r' w1']; simplify_eq/=.
  destruct (Hf w1 w1' Hsnd) as [Hfst' Hsnd'].
  destruct (f w1) as [[a|e] w2], (f' w1') as [[a'|e'] w2']; simplify_eq/=; eauto.
Qed.

Lemma sim_emits es es' : sim (C:=C) Rel (emits es) (emits es').
Proof. by intros w w' HR. Qed.

Lemma sim_emit e e' : sim (C:=C) Rel (emit e) (emit e').
Proof. by intros w w' HR. Qed.

Lemma sim_ext c : sim (C:=C) Rel (ext c) (ext c).
Proof. intros w w' HR. split; [done|]. by apply Rel_snoc. Qed.

Lemma sim_with_calls {A} (k k' : list ExtCall → M C A) :
  (∀ l l', Rel l l' → sim (C:=C) Rel (k l) (k' l')) →
  sim (C:=C) Rel (bind get_ext_calls k) (bind get_ext_calls k').
Proof. intros Hk w w' HR. unfold bind, get_ext_calls. by apply Hk. Qed.

Lemma sim_invokeAsync targets h rc rc' :
  targets ⊆ dispatcher → RC rc rc' →
  sim (C:=C) Rel (invokeAsync targets h rc) (invokeAsync targets h rc').
Proof.
  intros Hsub HRC. induction targets as [|[i l] rest IH]; cbn [invokeAsync].
  - apply sim_ret.
  - assert (rest ⊆ dispatcher) by (intros x Hx; apply Hsub; by right).
    assert ((i, l) ∈ dispatcher) by (apply Hsub; by left).
    destruct (method l h) as [hook|] eqn:Hm; [|by apply IH].
    apply sim_bind; [apply sim_emit|intros _].
    rewrite (RC_hooks i l h hook rc rc') by done.
    apply sim_bind; [apply sim_lift|intros _]. by apply IH.
Qed.

Lemma sim_invokeDidStart targets h rc rc' :
  targets ⊆ dispatcher → RC rc rc' →
  sim (C:=C) Rel (invokeDidStart targets h rc) (invokeDidStart targets h rc').
Proof.
  intros Hsub HRC. induction targets as [|[i l] rest IH]; cbn [invokeDidStart].
  - apply sim_ret.
  - assert (rest ⊆ dispatcher) by (intros x Hx; apply Hsub; by right).
    assert ((i, l) ∈ dispatcher) by (apply Hsub; by left).
    destruct (method l h) as [hook|] eqn:Hm; [|by apply IH].
    apply sim_bind; [apply sim_emit|intros _].
    rewrite (RC_hooks i l h hook rc rc') by done.
    apply sim_bind; [apply sim_lift|intros b].
    apply sim_bind; [by apply IH|intros ends]. apply sim_ret.
Qed.

Lemma sim_didEnd h ends arg : sim (C:=C) Rel (didEnd h ends arg) (didEnd h ends arg).
Proof. apply sim_emits. Qed.

Lemma sim_parse q : sim (C:=C) Rel (parse env q) (parse env q).
Proof.
  unfold parse. apply sim_bind; [apply sim_ext|intros _].
  apply sim_try_finally; [|apply sim_ext].
  apply sim_bind; [apply sim_emit|intros _]. apply sim_lift.
Qed.

Lemma sim_validate d : sim (C:=C) Rel (validate env d) (validate env d).
Proof.
  unfold validate. apply sim_bind; [apply sim_ext|intros _].
  apply sim_try_finally; [|apply sim_ext].
  apply sim_bind; [apply sim_emit|intros _]. apply sim_lift.
Qed.

Lemma sim_execute rc rc' d n v :
  RC rc rc' → sim (C:=C) Rel (execute env rc d n v) (execute env rc' d n v).
Proof.
  intros HRC. unfold execute.
  destruct (RC_fields _ _ HRC) as (-> & _).
  apply sim_bind; [apply sim_ext|intros _].
  apply sim_try_finally; [|apply sim_ext].
  apply sim_bind; [apply sim_emit|intros _]. apply sim_lift.
Qed.

Lemma sim_sendResponse rc rc' r :
  RC rc rc' →
  sim (C:=C) Rel (sendResponse env dispatcher stack rc r)
      (sendResponse env dispatcher stack rc' r).
Proof.
  intros HRC. unfold sendResponse.
  destruct (RC_fields _ _ HRC) as (_ & -> & _).
  apply sim_with_calls. intros l l' Hl.
  apply sim_bind; [apply sim_ext|intros _].
  rewrite (Rel_willSendResponse l l') by done.
  apply sim_bind; [apply sim_lift|intros sent].
  apply sim_bind; [|intros _; apply sim_ret].
  apply sim_invokeAsync; [done|]. by apply RC_set_response.
Qed.

Lemma runStages_sim config rc rc' rq rq' (w w' : World C) :
  RC rc rc' →
  resolved_query rq = resolved_query rq' →
  Rel (ext_calls w ++ [XRequestDidStart (requestDidStart_args rc rq)])
      (ext_calls w' ++ [XRequestDidStart (requestDidStart_args rc' rq')]) →
  fst (runStages env config dispatcher stack rc rq w)
  = fst (runStages env config dispatcher stack rc' rq' w').
Proof.
  intros HRC Hq HR.
  destruct (RC_fields _ _ HRC) as (Hctx & Hresp & Hname & Hvars).
  unfold runStages. rewrite !bind_ext.
  match goal with
  | |- fst (?m ?w1) = fst (?m' ?w1') =>
      enough (Hsim : sim Rel m m') by (apply (Hsim w1 w1'); exact HR)
  end.
  rewrite Hq, Hname, Hvars.
  apply sim_bind; [by apply sim_invokeDidStart|intros parsingDidEnd].
  apply sim_try_finally; [|apply sim_ext].
  apply sim_bind.
  { apply sim_try_catch.
    - apply sim_bind; [apply sim_parse|intros document].
      apply sim_bind; [apply sim_didEnd|intros _]. apply sim_ret.
    - intros syntaxError.
      apply sim_bind; [apply sim_didEnd|intros _].
      apply sim_bind; [by apply sim_sendResponse|intros sent]. apply sim_ret. }
  intros [document|sent]; [|apply sim_ret].
  apply sim_bind; [apply sim_invokeDidStart; by auto|intros validationDidEnd].
  apply sim_bind; [apply sim_validate|intros validationErrors].
  destruct (0 <? length validationErrors)%nat.
  { apply sim_bind; [apply sim_didEnd|intros _].
    apply sim_sendResponse. by auto. }
  apply sim_bind; [apply sim_didEnd|intros _].
  apply sim_bind; [apply sim_invokeAsync; by auto|intros _].
  apply sim_bind; [apply sim_invokeDidStart; by auto|intros executionDidEnd].
  apply sim_bind.
  { apply sim_try_catch.
    - apply sim_bind; [apply sim_execute; by auto|intros result].
      apply sim_bind; [apply sim_didEnd|intros _]. apply sim_ret.
    - intros executionError.
      apply sim_bind; [apply sim_didEnd|intros _].
      apply sim_bind; [apply sim_sendResponse; by auto|intros sent].
      apply sim_ret. }
  intros [result|sent]; [|apply sim_ret].
  apply sim_with_calls. intros l l' Hl.
  apply sim_bind; [apply sim_ext|intros _].
  rewrite (Rel_format l l') by done.
  apply sim_bind; [apply sim_lift|intros formattedExtensions].
  cbn [context set_operation set_document]. rewrite Hctx.
  apply sim_bind;
    [destruct (formatResponse config); [apply sim_lift|apply sim_ret]
    |intros response].
  apply sim_sendResponse. by auto.
Qed.
End Sim.

(** ** What the stages leave alone *)
Section Frame.
Context {C : Type} `{KeyValueCache C}.
Variable env : Env.

Lemma same_store_trans (w1 w2 w3 : World C) :
  same_store w1 w2 → same_store w2 w3 → same_store w1 w3.
Proof. intros (?&?&?) (?&?&?). repeat split; congruence. Qed.

Lemma frame_ret {A} (a : A) : frame (C:=C) (ret a).
Proof. by intros w. Qed.
Lemma frame_throw {A} e : frame (C:=C) (@throw _ A e).
Proof. by intros w. Qed.
Lemma frame_lift {A} (r : Res A) : frame (C:=C) (lift r).
Proof. by intros w. Qed.
Lemma frame_emits es : frame (C:=C) (emits es).
Proof. by intros w. Qed.
Lemma frame_emit e : frame (C:=C) (emit e).
Proof. by intros w. Qed.
Lemma frame_ext c : frame (C:=C) (ext c).
Proof. by intros w. Qed.
Lemma frame_get_ext_calls : frame (C:=C) get_ext_calls.
Proof. by intros w. Qed.

Lemma frame_bind {A B} (m : M C A) (k : A → M C B) :
  frame m → (∀ a, frame (C:=C) (k a)) → frame (C:=C) (bind m k).
Proof.
  intros Hm Hk w. unfold bind. specialize (Hm w).
  destruct (m w) as [[a|e] w1]; [|done].
  eapply same_store_trans; [exact Hm|apply Hk].
Qed.

Lemma frame_try_catch {A} (m : M C A) (h : Exn → M C A) :
  frame m → (∀ e, frame (C:=C) (h e)) → frame (C:=C) (try_catch m h).
Proof.
  intros Hm Hh w. unfold try_catch. specialize (Hm w).
  destruct (m w) as [[a|e] w1]; [done|].
  eapply same_store_trans; [exact Hm|apply Hh].
Qed.

Lemma frame_try_finally {A} (m : M C A) (f : M C unit) :
  frame m → frame f → frame (C:=C) (try_finally m f).
Proof.
  intros Hm Hf w. unfold try_finally. specialize (Hm w).
  destruct (m w) as [r w1]. specialize (Hf w1).
  destruct (f w1) as [[a|e] w2]; eapply same_store_trans; eauto.
Qed.

Lemma frame_invokeAsync targets h rc : frame (C:=C) (invokeAsync targets h rc).
Proof.
  induction targets as [|[i l] rest IH]; cbn [invokeAsync]; [apply frame_ret|].
  destruct (method l h); [|done].
  apply frame_bind; [apply frame_emit|intros _].
  apply frame_bind; [apply frame_lift|intros _]. done.
Qed.

Lemma frame_invokeDidStart targets h rc : frame (C:=C) (invokeDidStart targets h rc).
Proof.
  induction targets as [|[i l] rest IH]; cbn [invokeDidStart]; [apply frame_ret|].
  destruct (method l h); [|done].
  apply frame_bind; [apply frame_emit|intros _].
  apply frame_bind; [apply frame_lift|intros b].
  apply frame_bind; [done|intros ends]. apply frame_ret.
Qed.

Lemma frame_sendResponse d stack rc r : frame (C:=C) (sendResponse env d stack rc r).
Proof.
  unfold sendResponse.
  apply frame_bind; [apply frame_get_ext_calls|intros calls].
  apply frame_bind; [apply frame_ext|intros _].
  apply frame_bind; [apply frame_lift|intros sent].
  apply frame_bind; [apply frame_invokeAsync|intros _]. apply frame_ret.
Qed.

Lemma frame_runStages config d stack rc rq :
  frame (C:=C) (runStages env config d stack rc rq).
Proof.
  unfold runStages, parse, validate, execute, didEnd.
  repeat first
    [ apply frame_ret | apply frame_ext | apply frame_emit | apply frame_emits
    | apply frame_lift | apply frame_get_ext_calls
    | apply frame_invokeAsync | apply frame_invokeDidStart
    | apply frame_sendResponse
    | apply frame_try_finally | apply frame_try_catch
    | apply frame_bind
    | match goal with
      | |- ∀ _ : _ + _, _ => intros [?|?]
      | |- ∀ _, _ => intro
      | |- frame (C:=C) (if ?b then _ else _) => destruct b
      | |- frame (C:=C) (match ?o with Some _ => _ | None => _ end) =>
          destruct o
      end ].
Qed.
End Frame.

(** ** Automatic persisted queries *)
Section PersistedQueries.
Context {C : Type} `{KeyValueCache C}.
Variable env : Env.

Lemma init_world_ext_calls config (w : World C) :
  ext_calls (init_world config w) = [].
Proof. unfold init_world. by destruct (dataSources config). Qed.

Lemma init_world_same_store config (w : World C) :
  same_store w (init_world config w).
Proof. unfold init_world. by destruct (dataSources config). Qed.

(** A registering request: what [resolveQuery] does. *)
Lemma resolveQuery_register config request (w : World C) pq q :
  extensions request ≫= persistedQuery = Some pq →
  is_Some (persistedQueries config ≫= cache) →
  version pq = 1%Z →
  query request = Some q →
  sha256_hex env q = sha256Hash pq →
  resolveQuery env config request w =
  (Ok (mkResolved q false true),
   with_trace (trace w ++ [EvCacheSet ("apq:" +:+ sha256Hash pq) q])
     (with_inflight (inflight w ++ [("apq:" +:+ sha256Hash pq, q)])
        (with_pq_cache
           (cache_set_call (pq_cache w) ("apq:" +:+ sha256Hash pq) q) w))).
Proof.
  intros Hpq [ref Hcache] Hversion Hquery Hhash.
  unfold resolveQuery, computeQueryHash.
  rewrite Hpq, Hcache, Hversion, Hquery, Hhash. cbn.
  by rewrite String.eqb_refl.
Qed.

Lemma bind_Ok {S A B} (m : St S A) (k : A → St S B) s a s' :
  m s = (Ok a, s') → bind m k s = k a s'.
Proof. intros Hm. unfold bind. by rewrite Hm. Qed.

Lemma bind_Throw {S A B} (m : St S A) (k : A → St S B) s e s' :
  m s = (Throw e, s') → bind m k s = (Throw e, s').
Proof. intros Hm. unfold bind. by rewrite Hm. Qed.

(** A lookup that finds a non-empty text. *)
Lemma resolveQuery_hit config request (w : World C) pq q :
  extensions request ≫= persistedQuery = Some pq →
  is_Some (persistedQueries config ≫= cache) →
  version pq = 1%Z →
  query request = None →
  q ≠ EmptyString →
  cache_get (pq_cache w) ("apq:" +:+ sha256Hash pq) = Ok (Some q) →
  resolveQuery env config request w =
  (Ok (mkResolved q true false),
   with_trace (trace w ++ [EvCacheGet ("apq:" +:+ sha256Hash pq)]) w).
Proof.
  intros Hpq [ref Hcache] Hversion Hquery Hne Hget.
  unfold resolveQuery. rewrite Hpq, Hcache, Hversion, Hquery. cbn.
  rewrite Hget. by destruct (String.eqb_spec q EmptyString).
Qed.

(** A literal query and no persisted-query extension. *)
Lemma resolveQuery_literal config request (w : World C) q :
  extensions request ≫= persistedQuery = None →
  query request = Some q →
  q ≠ EmptyString →
  resolveQuery env config request w = (Ok (mkResolved q false false), w).
Proof.
  intros Hpq Hquery Hne.
  unfold resolveQuery. rewrite Hpq, Hquery.
  by destruct (String.eqb_spec q EmptyString).
Qed.

(** C5. On a registration (query text and matching hash) the pipeline
    calls [cache.set] for [apq:<hash>] and returns without the promise
    having settled: when the invocation completes the write is still in
    flight, the store is as the call itself left it and the console is
    untouched. The outcome of the invocation is the same in every world,
    so in particular whatever the store does with writes; and a write that
    is rejected when it settles only adds its error to the console. *)
Theorem register_write_is_fire_and_forget config rc (w : World C) pq q :
  init_ok config rc →
  extensions (request rc) ≫= persistedQuery = Some pq →
  is_Some (persistedQueries config ≫= cache) →
  version pq = 1%Z →
  query (request rc) = Some q →
  sha256_hex env q = sha256Hash pq →
  let key := "apq:" +:+ sha256Hash pq in
  let w' := snd (processRequest env config rc w) in
  (pq_cache w' = cache_set_call (pq_cache w) key q
   ∧ inflight w' = inflight w ++ [(key, q)]
   ∧ console w' = console w)
  ∧ (∀ w2 : World C,
       fst (processRequest env config rc w2) = fst (processRequest env config rc w))
  ∧ (∀ e, cache_set (pq_cache w') key q = Throw e →
       settle_one (key, q) w' = with_console (console w' ++ [e]) w').
Proof.
  intros Hinit Hpq Hcache Hversion Hquery Hhash key w'.
  assert (Hrun : ∀ w0 : World C,
    processRequest env config rc w0 =
    runStages env config (new_Dispatcher (requestListeners_of config rc))
      (extensionStack_of env config) (initialized config rc)
      (mkResolved q false true)
      (with_trace (trace (init_world config w0) ++ [EvCacheSet key q])
         (with_inflight (inflight (init_world config w0) ++ [(key, q)])
            (with_pq_cache
               (cache_set_call (pq_cache (init_world config w0)) key q)
               (init_world config w0))))).
  { intros w0. rewrite (processRequest_init env) by done.
    unfold bind at 1.
    by rewrite (resolveQuery_register config _ _ pq q). }
  split; [|split].
  - subst w'. rewrite Hrun.
    destruct (frame_runStages env config
      (new_Dispatcher (requestListeners_of config rc))
      (extensionStack_of env config) (initialized config rc)
      (mkResolved q false true)
      (with_trace (trace (init_world config w) ++ [EvCacheSet key q])
         (with_inflight (inflight (init_world config w) ++ [(key, q)])
            (with_pq_cache
               (cache_set_call (pq_cache (init_world config w)) key q)
               (init_world config w))))) as (Hc & Hi & Hl).
    destruct (init_world_same_store config w) as (Hc' & Hi' & Hl').
    rewrite Hc, Hi, Hl. cbn. by rewrite Hc', Hi', Hl'.
  - intros w2. rewrite !Hrun.
    apply (runStages_sim env eq eq); try done; try (intros; by subst).
    cbn [ext_calls with_trace with_inflight with_pq_cache].
    by rewrite !init_world_ext_calls.
  - intros e He. unfold settle_one. cbn [fst snd]. by rewrite He.
Qed.
End PersistedQueries.

(** ** The round trip *)
Section RoundTrip.
Context {C : Type} `{KeyValueCache C}.
Variable env : Env.

Lemma requestListeners_of_agree config rc rc' :
  blind_plugins config → agree rc rc' →
  requestListeners_of config rc = requestListeners_of config rc'.
Proof.
  intros Hblind Hagree. unfold requestListeners_of.
  unfold blind_plugins in Hblind.
  induction (default [] (plugins config)) as [|plugin rest IH]; [done|].
  cbn [omap list_omap].
  rewrite IH by (intros p f Hp; apply Hblind; by right).
  destruct (requestDidStart plugin) as [factory|] eqn:Hf; [|done].
  destruct (Hblind plugin factory) as [Hfac _]; [by left|done|].
  by rewrite (Hfac rc rc').
Qed.

Lemma dispatcher_hooks_blind config rc0 i l h hook rc rc' :
  blind_plugins config →
  (i, l) ∈ new_Dispatcher (requestListeners_of config rc0) →
  method l h = Some hook → agree rc rc' → hook rc = hook rc'.
Proof.
  intros Hblind Hin Hm Hagree.
  unfold new_Dispatcher in Hin.
  apply elem_of_lookup_imap in Hin as (j & l' & Heq & Hl). simplify_eq.
  apply list_elem_of_lookup_2 in Hl.
  unfold requestListeners_of in Hl.
  apply list_elem_of_omap in Hl as (plugin & Hplugin & Hl).
  destruct (requestDidStart plugin) as [factory|] eqn:Hf; [|done].
  destruct (Hblind plugin factory Hplugin Hf) as [_ Hhooks].
  by eapply Hhooks.
Qed.

Lemma agree_initialized config rc rc' :
  agree rc rc' → agree (initialized config rc) (initialized config rc').
Proof.
  intros (Hctx & ? & ? & ? & ? & ? & ?). unfold initialized.
  destruct (dataSources config); repeat split; cbn; by rewrite ?Hctx.
Qed.

(** C2 (amended). For a non-empty query text: once the write of a
    registration has settled and the cache returns the text for
    [apq:<digest>], a request carrying only the hash has the same outcome
    as a request carrying the text and no persisted-query extension,
    provided the extension stack and the plugins do not look at how the
    text was supplied. *)
Theorem apq_round_trip config rc0 opName vars httpv ext other q (w0 w3 : World C) :
  let hash := sha256_hex env q in
  let register := with_request (mkRequest (Some q) opName vars (Some ext) httpv) rc0 in
  let lookup := with_request (mkRequest None opName vars (Some ext) httpv) rc0 in
  let direct := with_request (mkRequest (Some q) opName vars other httpv) rc0 in
  let w1 := settle (snd (processRequest env config register w0)) in
  q ≠ EmptyString →
  persistedQuery ext = Some (mkPersistedQuery 1 hash) →
  other ≫= persistedQuery = None →
  is_Some (persistedQueries config ≫= cache) →
  init_ok config rc0 →
  blind_stack env (extensionStack_of env config) →
  blind_plugins config →
  cache_get (pq_cache w1) ("apq:" +:+ hash) = Ok (Some q) →
  fst (processRequest env config lookup w1)
  = fst (processRequest env config direct w3).
Proof.
  intros hash register lookup direct w1 Hq Hext Hother [ref Hcache] Hinit
    Hstack Hplugins Hget.
  assert (Hagree : agree lookup direct) by done.
  rewrite !(processRequest_init env) by done.
  erewrite (bind_Ok _ _ (init_world config w1)); cycle 1.
  { apply (resolveQuery_hit env config (request lookup) _
             (mkPersistedQuery 1 hash) q);
      [exact Hext|by eexists|done|done|done|by rewrite init_world_pq_cache]. }
  erewrite (bind_Ok _ _ (init_world config w3)); cycle 1.
  { by apply (resolveQuery_literal env config (request direct) _ q). }
  rewrite (requestListeners_of_agree config lookup direct) by done.
  apply (runStages_sim env same_after_start agree).
  - intros l l' c []. constructor.
  - intros l l' []. apply Hstack.
  - intros l l' r []. apply Hstack.
  - intros rc rc' (?&?&?&?&?&?&?). done.
  - intros d rc rc' (?&?&?&?&?&?&?). done.
  - intros op n rc rc' (?&?&?&?&?&?&?). done.
  - intros r rc rc' (?&?&?&?&?&?&?). done.
  - intros i l h hook rc rc' Hin. by eapply dispatcher_hooks_blind.
  - by apply agree_initialized.
  - done.
  - cbn [ext_calls with_trace]. rewrite !init_world_ext_calls. constructor.
Qed.
End RoundTrip.

(** ** The stages, when no listener throws *)
Section Runs.
Context {C : Type} `{KeyValueCache C}.
Variable env : Env.

Lemma extend_nil (w : World C) : extend [] [] w = w.
Proof. destruct w. unfold extend, with_trace, with_ext_calls; cbn. by rewrite !app_nil_r. Qed.

Lemma extend_extend xs es xs' es' (w : World C) :
  extend xs' es' (extend xs es w) = extend (xs ++ xs') (es ++ es') w.
Proof. unfold extend, with_trace, with_ext_calls; cbn. by rewrite !app_assoc. Qed.

Lemma runs_ret {A} (a : A) (w : World C) : runs (ret a) w (Ok a) [] [].
Proof. unfold runs, ret. by rewrite extend_nil. Qed.

Lemma runs_throw {A} e (w : World C) : runs (@throw _ A e) w (Throw e) [] [].
Proof. unfold runs, throw. by rewrite extend_nil. Qed.

Lemma runs_lift {A} (r : Res A) (w : World C) : runs (lift r) w r [] [].
Proof. unfold runs, lift. by rewrite extend_nil. Qed.

Lemma runs_emits es (w : World C) : runs (emits es) w (Ok ()) [] es.
Proof. destruct w. unfold runs, emits, extend, with_trace, with_ext_calls; cbn. by rewrite app_nil_r. Qed.

Lemma runs_emit e (w : World C) : runs (emit e) w (Ok ()) [] [e].
Proof. apply runs_emits. Qed.

Lemma runs_ext c (w : World C) : runs (ext c) w (Ok ()) [c] [EvExt c].
Proof. reflexivity. Qed.

Lemma runs_get_ext_calls (w : World C) :
  runs get_ext_calls w (Ok (ext_calls w)) [] [].
Proof. unfold runs, get_ext_calls. by rewrite extend_nil. Qed.

Lemma runs_bind {A B} (m : M C A) (k : A → M C B) w a xs es r xs' es' :
  runs m w (Ok a) xs es →
  runs (k a) (extend xs es w) r xs' es' →
  runs (bind m k) w r (xs ++ xs') (es ++ es').
Proof.
  unfold runs, bind. intros -> ->. by rewrite extend_extend.
Qed.

Lemma runs_bind_Throw {A B} (m : M C A) (k : A → M C B) w e xs es :
  runs m w (Throw e) xs es → runs (bind m k) w (Throw e) xs es.
Proof. unfold runs, bind. by intros ->. Qed.

Lemma runs_try_catch_Ok {A} (m : M C A) h w a xs es :
  runs m w (Ok a) xs es → runs (try_catch m h) w (Ok a) xs es.
Proof. unfold runs, try_catch. by intros ->. Qed.

Lemma runs_try_catch_Throw {A} (m : M C A) h w e xs es r xs' es' :
  runs m w (Throw e) xs es →
  runs (h e) (extend xs es w) r xs' es' →
  runs (try_catch m h) w r (xs ++ xs') (es ++ es').
Proof. unfold runs, try_catch. intros -> ->. by rewrite extend_extend. Qed.

Lemma runs_try_finally {A} (m : M C A) f w r xs es xs' es' :
  runs m w r xs es →
  runs f (extend xs es w) (Ok ()) xs' es' →
  runs (try_finally m f) w r (xs ++ xs') (es ++ es').
Proof. unfold runs, try_finally. intros -> ->. by rewrite extend_extend. Qed.

Lemma quiet_cons il d : quiet (il :: d) → quiet d.
Proof. intros Hq i l h hook rc Hin Hm. eapply Hq; [by right|done]. Qed.

Lemma runs_eq {A} (m : M C A) w r xs es xs' es' :
  runs m w r xs es → xs = xs' → es = es' → runs m w r xs' es'.
Proof. by intros ? <- <-. Qed.

Lemma runs_eq_result {A} (m : M C A) w r r' xs es xs' es' :
  runs m w r xs es → xs = xs' → es = es' → r = r' → runs m w r' xs' es'.
Proof. by intros ? <- <- <-. Qed.

Lemma runs_invokeAsync d h rc (w : World C) :
  quiet d → runs (invokeAsync d h rc) w (Ok ()) [] (hook_events d h).
Proof.
  revert w. induction d as [|[i l] rest IH]; intros w Hq; cbn [invokeAsync].
  - apply runs_ret.
  - unfold hook_events. cbn [omap list_omap fst snd].
    fold (hook_events rest h).
    destruct (method l h) as [hook|] eqn:Hm; [|apply IH; by eapply quiet_cons].
    destruct (Hq i l h hook rc) as [b Hb]; [by left|done|].
    rewrite Hb.
    eapply runs_eq.
    + eapply runs_bind; [apply runs_emit|].
      eapply runs_bind; [apply runs_lift|].
      apply IH. by eapply quiet_cons.
    + done.
    + done.
Qed.

Lemma runs_invokeDidStart d h rc (w : World C) :
  quiet d →
  runs (invokeDidStart d h rc) w (Ok (end_handlers d h rc)) [] (hook_events d h).
Proof.
  revert w. induction d as [|[i l] rest IH]; intros w Hq; cbn [invokeDidStart].
  - apply runs_ret.
  - unfold hook_events, end_handlers. cbn [omap list_omap fst snd].
    fold (hook_events rest h). fold (end_handlers rest h rc).
    destruct (method l h) as [hook|] eqn:Hm; [|apply IH; by eapply quiet_cons].
    destruct (Hq i l h hook rc) as [b Hb]; [by left|done|].
    rewrite Hb.
    eapply runs_eq_result.
    + eapply runs_bind; [apply runs_emit|].
      eapply runs_bind; [apply runs_lift|].
      eapply runs_bind; [apply IH; by eapply quiet_cons|]. apply runs_ret.
    + done.
    + cbn. by rewrite app_nil_r.
    + by destruct b.
Qed.

Lemma runs_parse q (w : World C) :
  runs (parse env q) w (graphql_parse env q)
    [XParsingDidStart q; XParsingDidEnd]
    [EvExt (XParsingDidStart q); EvParse q; EvExt XParsingDidEnd].
Proof.
  unfold parse. eapply runs_eq.
  - eapply runs_bind; [apply runs_ext|].
    eapply runs_try_finally; [|apply runs_ext].
    eapply runs_bind; [apply runs_emit|]. apply runs_lift.
  - done.
  - done.
Qed.

Lemma runs_validate doc (w : World C) :
  runs (validate env doc) w (graphql_validate env doc)
    [XValidationDidStart; XValidationDidEnd]
    [EvExt XValidationDidStart; EvValidate doc; EvExt XValidationDidEnd].
Proof.
  unfold validate. eapply runs_eq.
  - eapply runs_bind; [apply runs_ext|].
    eapply runs_try_finally; [|apply runs_ext].
    eapply runs_bind; [apply runs_emit|]. apply runs_lift.
  - done.
  - done.
Qed.

Lemma runs_execute rc doc n v (w : World C) :
  let args := mkExecutionArgs doc (context rc) v n in
  runs (execute env rc doc n v) w (graphql_execute env args)
    [XExecutionDidStart args; XExecutionDidEnd]
    [EvExt (XExecutionDidStart args); EvExecute args; EvExt XExecutionDidEnd].
Proof.
  intros args. unfold execute. eapply runs_eq.
  - eapply runs_bind; [apply runs_ext|].
    eapply runs_try_finally; [|apply runs_ext].
    eapply runs_bind; [apply runs_emit|]. apply runs_lift.
  - done.
  - done.
Qed.

Lemma runs_sendResponse d stack rc r sent (w : World C) :
  quiet d →
  stack_willSendResponse env stack (ext_calls w) (outgoing rc r) = Ok sent →
  runs (sendResponse env d stack rc r) w (Ok sent)
    [XWillSendResponse (outgoing rc r)]
    (EvExt (XWillSendResponse (outgoing rc r)) :: hook_events d willSendResponse).
Proof.
  intros Hq Hsent. unfold sendResponse. eapply runs_eq.
  - eapply runs_bind; [apply runs_get_ext_calls|].
    eapply runs_bind; [apply runs_ext|].
    eapply runs_bind;
      [eapply runs_eq_result; [apply runs_lift|done|done|exact Hsent]|].
    eapply runs_bind; [by apply runs_invokeAsync|]. apply runs_ret.
  - done.
  - cbn. by rewrite app_nil_r.
Qed.

Lemma runs_sendResponse_Throw d stack rc r e (w : World C) :
  stack_willSendResponse env stack (ext_calls w) (outgoing rc r) = Throw e →
  runs (sendResponse env d stack rc r) w (Throw e)
    [XWillSendResponse (outgoing rc r)]
    [EvExt (XWillSendResponse (outgoing rc r))].
Proof.
  intros Hsent. unfold sendResponse. eapply runs_eq.
  - eapply runs_bind; [apply runs_get_ext_calls|].
    eapply runs_bind; [apply runs_ext|].
    apply runs_bind_Throw.
    eapply runs_eq_result; [apply runs_lift|done|done|exact Hsent].
  - done.
  - done.
Qed.

(** Whether the stack's [willSendResponse] returns or throws. *)
Lemma runs_sendResponse_either d stack rc r (w : World C) :
  quiet d →
  let outcome :=
    stack_willSendResponse env stack (ext_calls w) (outgoing rc r) in
  runs (sendResponse env d stack rc r) w outcome
    [XWillSendResponse (outgoing rc r)]
    (EvExt (XWillSendResponse (outgoing rc r))
     :: match outcome with
        | Ok _ => hook_events d willSendResponse
        | Throw _ => []
        end).
Proof.
  intros Hq outcome. subst outcome.
  destruct (stack_willSendResponse env stack (ext_calls w) (outgoing rc r))
    as [sent|e] eqn:Hsent.
  - by apply runs_sendResponse.
  - by apply runs_sendResponse_Throw.
Qed.

Lemma runs_fmap {A B} (m : M C A) (f : A → B) w r xs es :
  runs m w r xs es → runs (a <- m ;; ret (f a)) w (res_map f r) xs es.
Proof. unfold runs, bind, ret. intros ->. by destruct r. Qed.

(** A block that either carries on ([inl]) or has returned ([inr]). *)
Lemma runs_bind_inr {A B} (m : M C (A + B)) (k : A → M C B) w (r : Res B)
    xs es :
  runs m w (res_map inr r) xs es →
  runs (p <- m ;; match p with inl a => k a | inr b => ret b end) w r xs es.
Proof. unfold runs, bind, ret. intros ->. by destruct r. Qed.

Ltac elem :=
  lazymatch goal with
  | |- _ ∈ _ :: _ =>
      first [ apply list_elem_of_here | apply list_elem_of_further; elem ]
  | |- _ ∈ _ ++ _ => apply elem_of_app; first [ left; elem | right; elem ]
  | |- _ => assumption
  end.

Lemma hook_events_elem d h i l :
  (i, l) ∈ d → is_Some (method l h) → EvHook i h ∈ hook_events d h.
Proof.
  intros Hin [hook Hm]. unfold hook_events.
  apply list_elem_of_omap. exists (i, l). split; [done|]. cbn. by rewrite Hm.
Qed.

Ltac drain d :=
  unfold drained; split_and!;
  [ elem
  | eexists; elem
  | let i := fresh "i" in let l := fresh "l" in
    let Hin := fresh "Hin" in let Hm := fresh "Hm" in
    intros i l Hin Hm;
    pose proof (hook_events_elem d willSendResponse i l Hin Hm); elem
  | elem ].

Lemma ok_or_spec {A} (d : A) (r : Res A) :
  (∃ a, r = Ok a) → r = Ok (ok_or d r).
Proof. by intros [a ->]. Qed.

Lemma runStages_quiet config d stack rc rq (w : World C) :
  quiet d →
  returning env config stack →
  ∃ sent xs es,
    runs (runStages env config d stack rc rq) w (Ok sent) xs es
    ∧ drained d (requestDidStart_args rc rq) es.
Proof.
  intros Hq (Hvalidates & Hformats & HformatResponse & Hsends).
  assert (Hsend : ∀ rc0 r0 (w0 : World C),
    runs (sendResponse env d stack rc0 r0) w0
      (Ok (ok_or r0 (stack_willSendResponse env stack (ext_calls w0)
                       (outgoing rc0 r0))))
      [XWillSendResponse (outgoing rc0 r0)]
      (EvExt (XWillSendResponse (outgoing rc0 r0))
       :: hook_events d willSendResponse)).
  { intros. apply runs_sendResponse; [done|]. apply ok_or_spec, Hsends. }
  unfold runStages.
  destruct (graphql_parse env (resolved_query rq)) as [doc|syntaxError] eqn:Hparse.
  2:{ eexists _, _, _. split.
      {
      eapply runs_bind; [apply runs_ext|].
      eapply runs_bind; [by apply runs_invokeDidStart|].
      eapply runs_try_finally; [|apply runs_ext].
      eapply runs_bind.
      { eapply runs_try_catch_Throw.
        - eapply runs_bind_Throw. rewrite <- Hparse. apply runs_parse.
        - eapply runs_bind; [apply runs_emits|].
          eapply runs_bind; [apply Hsend|]. apply runs_ret. }
      cbv beta iota. apply runs_ret. }
      drain d. }
  destruct (graphql_validate env doc) as [[|validationError rest]|e]
    eqn:Hvalidate.
  3:{ destruct (Hvalidates doc) as [? ?]. congruence. }
  2:{ eexists _, _, _. split.
      {
      eapply runs_bind; [apply runs_ext|].
      eapply runs_bind; [by apply runs_invokeDidStart|].
      eapply runs_try_finally; [|apply runs_ext].
      eapply runs_bind.
      { eapply runs_try_catch_Ok.
        eapply runs_bind; [rewrite <- Hparse; apply runs_parse|].
        eapply runs_bind; [apply runs_emits|]. apply runs_ret. }
      cbv beta iota.
      eapply runs_bind; [by apply runs_invokeDidStart|].
      eapply runs_bind;
        [eapply runs_eq_result; [apply runs_validate|done|done|exact Hvalidate]|].
      cbn [length Nat.ltb Nat.leb].
      eapply runs_bind; [apply runs_emits|].
      apply Hsend. }
      drain d. }
  set (operation := getOperationAST env doc (operationName (request rc))).
  set (rc' := set_operation operation
                (match operation ≫= name with
                 | Some n => if String.eqb n EmptyString then None else Some n
                 | None => None
                 end) (set_document doc rc)).
  destruct (graphql_execute env
              (mkExecutionArgs doc (context rc') (variables (request rc))
                 (operationName (request rc))))
    as [result|executionError] eqn:Hexecute.
  2:{ eexists _, _, _. split.
      {
      eapply runs_bind; [apply runs_ext|].
      eapply runs_bind; [by apply runs_invokeDidStart|].
      eapply runs_try_finally; [|apply runs_ext].
      eapply runs_bind.
      { eapply runs_try_catch_Ok.
        eapply runs_bind; [rewrite <- Hparse; apply runs_parse|].
        eapply runs_bind; [apply runs_emits|]. apply runs_ret. }
      cbv beta iota.
      eapply runs_bind; [by apply runs_invokeDidStart|].
      eapply runs_bind;
        [eapply runs_eq_result; [apply runs_validate|done|done|exact Hvalidate]|].
      cbn [length Nat.ltb Nat.leb].
      eapply runs_bind; [apply runs_emits|].
      eapply runs_bind; [by apply runs_invokeAsync|].
      eapply runs_bind; [by apply runs_invokeDidStart|].
      eapply runs_bind.
      { eapply runs_try_catch_Throw.
        - eapply runs_bind_Throw. rewrite <- Hexecute. apply runs_execute.
        - eapply runs_bind; [apply runs_emits|].
          eapply runs_bind; [apply Hsend|]. apply runs_ret. }
      cbv beta iota. apply runs_ret. }
      drain d. }
  destruct (formatResponse config) as [format|] eqn:Hformat;
    (eexists _, _, _; split;
     [ eapply runs_bind; [apply runs_ext|];
       eapply runs_bind; [by apply runs_invokeDidStart|];
       eapply runs_try_finally; [|apply runs_ext];
       eapply runs_bind;
         [ eapply runs_try_catch_Ok;
           eapply runs_bind; [rewrite <- Hparse; apply runs_parse|];
           eapply runs_bind; [apply runs_emits|]; apply runs_ret |];
       cbv beta iota;
       eapply runs_bind; [by apply runs_invokeDidStart|];
       eapply runs_bind;
         [eapply runs_eq_result;
            [apply runs_validate|done|done|exact Hvalidate]|];
       cbn [length Nat.ltb Nat.leb];
       eapply runs_bind; [apply runs_emits|];
       eapply runs_bind; [by apply runs_invokeAsync|];
       eapply runs_bind; [by apply runs_invokeDidStart|];
       eapply runs_bind;
         [ eapply runs_try_catch_Ok;
           eapply runs_bind; [rewrite <- Hexecute; apply runs_execute|];
           eapply runs_bind; [apply runs_emits|]; apply runs_ret |];
       cbv beta iota;
       eapply runs_bind; [apply runs_get_ext_calls|];
       eapply runs_bind; [apply runs_ext|];
       eapply runs_bind;
         [eapply runs_eq_result;
            [apply runs_lift|done|done|apply (ok_or_spec []), Hformats]|];
       eapply runs_bind;
         [first
            [ apply runs_ret
            | eapply runs_eq_result;
                [apply runs_lift|done|done
                |apply (ok_or_spec (response_of None));
                 by eapply HformatResponse] ]|];
       apply Hsend
     | drain d ]).
Qed.

Lemma hook_events_no_willSendResponse d h :
  h ≠ willSendResponse → no_willSendResponse (hook_events d h).
Proof.
  intros Hh. apply Forall_forall. intros ev Hev.
  apply list_elem_of_omap in Hev as ([i l] & _ & Hev). cbn in Hev.
  destruct (method l h); simplify_eq. cbn.
  destruct h; first [tauto | by destruct Hh].
Qed.

Lemma didEnd_no_willSendResponse h ends arg :
  no_willSendResponse (map (λ i, EvHookEnd i h arg) ends).
Proof.
  apply Forall_forall. intros ev (i & -> & _)%list_elem_of_fmap. cbn. tauto.
Qed.

(** An exception of [graphql.validate] leaves through the [finally]
    blocks alone. *)
Lemma runStages_validate_throws config d stack rc rq doc e (w : World C) :
  quiet d →
  graphql_parse env (resolved_query rq) = Ok doc →
  graphql_validate env doc = Throw e →
  ∃ xs es,
    runs (runStages env config d stack rc rq) w (Throw e) xs es
    ∧ EvExt XRequestDidEnd ∈ es
    ∧ no_willSendResponse es.
Proof.
  intros Hq Hparse Hvalidate. unfold runStages.
  eexists _, _. split; [|split].
  - eapply runs_bind; [apply runs_ext|].
    eapply runs_bind; [by apply runs_invokeDidStart|].
    eapply runs_try_finally; [|apply runs_ext].
    eapply runs_bind.
    { eapply runs_try_catch_Ok.
      eapply runs_bind; [rewrite <- Hparse; apply runs_parse|].
      eapply runs_bind; [apply runs_emits|]. apply runs_ret. }
    cbv beta iota.
    eapply runs_bind; [by apply runs_invokeDidStart|].
    apply runs_bind_Throw.
    eapply runs_eq_result; [apply runs_validate|done|done|exact Hvalidate].
  - elem.
  - unfold no_willSendResponse.
    repeat first
      [ apply Forall_app; split
      | apply Forall_cons; split; [cbn; tauto|]
      | apply Forall_nil; done
      | apply hook_events_no_willSendResponse; done
      | apply didEnd_no_willSendResponse ].
Qed.
End Runs.

(** ** Draining the response *)
Section Draining.
Context {C : Type} `{KeyValueCache C}.
Variable env : Env.

(** A failing persisted-query block has at most asked the cache. *)
Lemma resolveQuery_Throw config request (w w1 : World C) e :
  resolveQuery env config request w = (Throw e, w1) →
  ext_calls w1 = ext_calls w
  ∧ (trace w1 = trace w ∨ ∃ key, trace w1 = trace w ++ [EvCacheGet key]).
Proof.
  unfold resolveQuery, bind, cache_get_await, cache_set_detached, throw, ret.
  intros Hr.
  repeat (match type of Hr with
          | context [match ?x with _ => _ end] => destruct x
          end; try discriminate); simplify_eq/=; eauto.
Qed.

(** C1 (amended). Once the persisted-query block has resolved the query,
    and as long as nothing throws but [graphql.parse] and
    [graphql.execute], whose exceptions are caught (no listener hook, nor
    [graphql.validate], nor the stack's [format] and [willSendResponse],
    nor [formatResponse]), every path through parsing, validation and
    execution, failed or not, completes with a response after the request
    was opened on the extension stack, the stack's and every listener's
    [willSendResponse] were invoked and the [requestDidEnd] handler was
    called. A failure of the persisted-query block is thrown to the caller
    as it is: the extension stack has received no call and no listener
    hook has run. An exception of [graphql.validate] is thrown to the
    caller too: the [requestDidEnd] handler has been called on the way
    out, no [willSendResponse] has. *)
Theorem response_is_drained_once_query_is_resolved config rc (w : World C) :
  init_ok config rc →
  let dispatcher := new_Dispatcher (requestListeners_of config rc) in
  quiet dispatcher →
  (returning env config (extensionStack_of env config) →
   ∀ rq w1,
     resolveQuery env config (request rc) (init_world config w) = (Ok rq, w1) →
     ∃ sent w' es,
       processRequest env config rc w = (Ok sent, w')
       ∧ trace w' = trace w1 ++ es
       ∧ drained dispatcher (requestDidStart_args (initialized config rc) rq) es)
  ∧ (∀ e w1,
       resolveQuery env config (request rc) (init_world config w) = (Throw e, w1) →
       processRequest env config rc w = (Throw e, w1)
       ∧ ext_calls w1 = []
       ∧ (trace w1 = trace (init_world config w)
          ∨ ∃ key, trace w1 = trace (init_world config w) ++ [EvCacheGet key]))
  ∧ (∀ rq w1 document e,
       resolveQuery env config (request rc) (init_world config w) = (Ok rq, w1) →
       graphql_parse env (resolved_query rq) = Ok document →
       graphql_validate env document = Throw e →
       ∃ w' es,
         processRequest env config rc w = (Throw e, w')
         ∧ trace w' = trace w1 ++ es
         ∧ EvExt XRequestDidEnd ∈ es
         ∧ no_willSendResponse es).
Proof.
  intros Hinit dispatcher Hquiet. split_and!.
  - intros Hreturning rq w1 Hresolve.
    destruct (runStages_quiet env config dispatcher (extensionStack_of env config)
                (initialized config rc) rq w1 Hquiet Hreturning)
      as (sent & xs & es & Hruns & Hdrained).
    exists sent, (extend xs es w1), es. split_and!; [|done|done].
    rewrite (processRequest_init env) by done.
    by rewrite (bind_Ok _ _ _ _ _ Hresolve).
  - intros e w1 Hresolve. split.
    + rewrite (processRequest_init env) by done.
      by rewrite (bind_Throw _ _ _ _ _ Hresolve).
    + destruct (resolveQuery_Throw _ _ _ _ _ Hresolve) as [Hx Ht].
      split; [|done]. rewrite Hx. unfold init_world.
      by destruct (dataSources config).
  - intros rq w1 document e Hresolve Hparse Hvalidate.
    destruct (runStages_validate_throws env config dispatcher
                (extensionStack_of env config) (initialized config rc) rq
                document e w1 Hquiet Hparse Hvalidate)
      as (xs & es & Hruns & Hend & Hnone).
    exists (extend xs es w1), es. split_and!; [|done|done|done].
    rewrite (processRequest_init env) by done.
    by rewrite (bind_Ok _ _ _ _ _ Hresolve).
Qed.
End Draining.

(** ** The coordinator *)
Section Http.
Context {C : Type} `{KeyValueCache C}.
Variable env : Env.
Variable P :
  GraphQLRequestProcessorOptions → option WillExecuteOperation →
  ProcessorRequest → M C GraphQLResponse.

Lemma check_method_accepted request isGet (s : RunState C) :
  accepted request isGet → check_method request s = (Ok isGet, s).
Proof.
  intros [[[Hm ->]|[Hm ->]] Hmissing]; unfold check_method;
    rewrite Hm, Hmissing; reflexivity.
Qed.

Lemma resolve_options_inr request o (s : RunState C) :
  options request = inr o →
  resolve_options env request s = (Ok (with_default_debug env o), s).
Proof.
  intros Ho. unfold resolve_options, with_default_debug. rewrite Ho.
  reflexivity.
Qed.

Lemma runHttpQuery_accepted request o isGet (w : World C) :
  options request = inr o →
  accepted request isGet →
  let o' := with_default_debug env o in
  let isBatch := Array_isArray (http_query request) in
  let requestPayload :=
    match http_query request with
    | JArr items => items
    | payload => [payload]
    end in
  runHttpQuery env P request w =
  match
    (responses <-
       try_catch
         (all (member env P request o' isGet isBatch) requestPayload)
         (λ error,
            if is_HttpQueryError error then throw error
            else throwHttpGraphQLError env 500 [error]
                   (Some (format_options o'))) ;;
     cacheControl <- read_cacheControl ;;
     respond env isBatch cacheControl responses) (mkRunState None w)
  with
  | (r, s) => (r, world s)
  end.
Proof.
  intros Ho Hacc o' isBatch requestPayload.
  unfold runHttpQuery, runHttpQuery_body.
  unfold bind at 1. rewrite (resolve_options_inr _ o) by done.
  unfold bind at 1. rewrite (check_method_accepted _ isGet) by done.
  reflexivity.
Qed.

Lemma strip_if_errors cc r : errors (strip_if cc r) = errors r.
Proof.
  unfold strip_if, strip_cacheControl.
  destruct cc as [cc|]; [|done].
  destruct (stripFormattedExtensions cc); [|done].
  by destruct (resp_extensions r).
Qed.

Lemma strip_if_data cc r : data (strip_if cc r) = data r.
Proof.
  unfold strip_if, strip_cacheControl.
  destruct cc as [cc|]; [|done].
  destruct (stripFormattedExtensions cc); [|done].
  by destruct (resp_extensions r).
Qed.

(** C6. A single (not batched) request whose pipeline result has
    [errors] and whose [data] is undefined makes [runHttpQuery] fail with
    an [HttpQueryError] of status 400 carrying those errors; every other
    pipeline result is returned, serialised, with its headers. *)
Theorem single_result_status request o isGet r s1 (w : World C) :
  options request = inr o →
  accepted request isGet →
  Array_isArray (http_query request) = false →
  member_try env P request (with_default_debug env o) isGet
    (http_query request) (mkRunState None w) = (Ok r, s1) →
  (∀ errs,
     errors r = Some errs → data r = JUndefined →
     runHttpQuery env P request w =
     (Throw (HttpQueryError 400
               (prettyJSONStringify env (JsonErrors (map Error errs)))
               true (Some [("Content-Type", "application/json")])),
      world s1))
  ∧ (errors r = None ∨ data r ≠ JUndefined →
     let sent := strip_if (local_cacheControl s1) r in
     let stringified := prettyJSONStringify env (JsonResponse sent) in
     runHttpQuery env P request w =
     (Ok (mkHttpQueryResponse stringified
            (response_headers env (local_cacheControl s1) [r] stringified)),
      world s1)).
Proof.
  intros Ho Hacc Hsingle Htry.
  assert (Hrun : runHttpQuery env P request w =
    match respond env false (local_cacheControl s1) [r] s1 with
    | (res, s) => (res, world s)
    end).
  { rewrite (runHttpQuery_accepted request o isGet) by done.
    rewrite Hsingle.
    destruct (http_query request) eqn:Hq; try discriminate;
      unfold bind at 1, try_catch, all, bind at 1, member, try_catch;
      rewrite Htry; reflexivity. }
  rewrite Hrun. unfold respond. cbn [negb map].
  split.
  - intros errs Herrs Hdata.
    rewrite strip_if_errors, strip_if_data, Herrs, Hdata. reflexivity.
  - intros Hok.
    rewrite strip_if_errors, strip_if_data.
    destruct Hok as [Hnone|Hdata].
    + rewrite Hnone. reflexivity.
    + destruct (errors r), (data r); try done.
Qed.

Lemma run_single_member_Throw request o isGet e s1 (w : World C) :
  options request = inr o →
  accepted request isGet →
  Array_isArray (http_query request) = false →
  member_try env P request (with_default_debug env o) isGet
    (http_query request) (mkRunState None w) = (Throw e, s1) →
  is_HttpQueryError e = true →
  runHttpQuery env P request w =
  (Throw e,
   with_trace (trace (world s1)
               ++ [EvConsoleLog (log_line (with_default_debug env o))])
              (world s1)).
Proof.
  intros Ho Hacc Hsingle Htry He.
  rewrite (runHttpQuery_accepted request o isGet) by done.
  rewrite Hsingle.
  assert (Hpayload :
    match http_query request with JArr items => items | payload => [payload] end
    = [http_query request]) by (by destruct (http_query request)).
  rewrite Hpayload.
  unfold bind at 1, try_catch at 1, all, bind at 1, member, try_catch at 1.
  rewrite Htry.
  unfold member_catch, bind at 1, in_world, emit, emits. cbn [world local_cacheControl].
  destruct e; try discriminate. reflexivity.
Qed.

Lemma run_single_prepare_Throw request o isGet e w1 (w : World C) :
  options request = inr o →
  accepted request isGet →
  Array_isArray (http_query request) = false →
  member_prepare env (with_default_debug env o) isGet (http_query request) w
  = (Throw e, w1) →
  is_HttpQueryError e = true →
  runHttpQuery env P request w =
  (Throw e,
   with_trace (trace w1 ++ [EvConsoleLog (log_line (with_default_debug env o))]) w1).
Proof.
  intros Ho Hacc Hsingle Hprep He.
  apply (run_single_member_Throw request o isGet e (mkRunState None w1));
    [done|done|done| |done].
  unfold member_try, bind at 1, in_world at 1. cbn [world].
  by rewrite Hprep.
Qed.

(** C8 (amended). A single request whose [query] is truthy and not a
    string (and, on GET, whose extensions decode) makes [runHttpQuery]
    fail with an [HttpQueryError] of status 400, "GraphQL queries must be
    strings.", or the longer text when the value has [kind] 'Document';
    the request processor is not run: apart from the line logged by the
    [catch] block, the world is as it was. *)
Theorem truthy_non_string_query_is_rejected request o isGet q (w : World C) :
  options request = inr o →
  accepted request isGet →
  Array_isArray (http_query request) = false →
  prop (http_query request) "query" = Ok q →
  truthy q = true →
  is_string q = false →
  (isGet = true →
   ∀ ext, prop (http_query request) "extensions" = Ok ext →
          truthy ext = true → is_Some (JSON_parse env ext)) →
  runHttpQuery env P request w =
  (Throw (HttpQueryError 400
            (if is_Document (prop q "kind")
             then queries_must_be_strings_Document
             else "GraphQL queries must be strings.")
            false None),
   with_trace (trace w ++ [EvConsoleLog (log_line (with_default_debug env o))]) w).
Proof.
  intros Ho Hacc Hsingle Hq Htruthy Hstring Hext.
  apply (run_single_prepare_Throw request o isGet); [done|done|done| |].
  - unfold member_prepare. unfold bind at 1, lift. rewrite Hq.
    destruct (http_query request) as [| | | | |?|fields] eqn:Hpayload;
      try (cbn in Hq; simplify_eq; discriminate).
    unfold bind at 1. cbn [prop].
    set (ext := default JUndefined (assoc "extensions" fields)).
    assert (Hparse : isGet && truthy ext = true → is_Some (JSON_parse env ext)).
    { intros [-> Ht]%andb_true_iff. by apply Hext. }
    unfold bind at 1.
    destruct (isGet && truthy ext); [destruct Hparse as [? ->]; [done|]|];
      cbn; rewrite Htruthy, Hstring; cbn;
      by destruct (is_Document (prop q "kind")).
  - by destruct (is_Document (prop q "kind")).
Qed.

Lemma member_try_prepared request o isGet payload p w1 l (w : World C) :
  member_prepare env o isGet payload w = (Ok p, w1) →
  member_try env P request o isGet payload (mkRunState l w)
  = in_world (member_process P request o isGet (assigned o l) p)
             (mkRunState (assigned o l) w1).
Proof.
  intros Hprep. unfold member_try, bind at 1, in_world at 1. cbn [world].
  rewrite Hprep. unfold assigned. cbn [local_cacheControl].
  by destruct (cacheControl_of o).
Qed.

Lemma member_prepare_params_ok o isGet X (w : World C) :
  params_ok env isGet X →
  ∃ qs ext op vars,
    prop X "query" = Ok qs
    ∧ prop X "extensions" = Ok ext
    ∧ prop X "operationName" = Ok op
    ∧ prop X "variables" = Ok vars
    ∧ member_prepare env o isGet X w =
      (context <-
         match opt_context o with
         | ContextAbsent => ret ∅
         | ContextFunction result =>
             emit EvContextFunction ;;;
             match result with
             | inr value => ret value
             | inl e =>
                 let e :=
                   with_message ("Context creation failed: " +:+ message e) e in
                 if code_is_not_internal e then
                   throwHttpGraphQLError env 400 [Error e]
                     (Some (format_options o))
                 else
                   throwHttpGraphQLError env 500 [Error e]
                     (Some (format_options o))
             end
         | ContextValue value => ret value
         end ;;
       context <-
         match opt_dataSources o with
         | Some made =>
             let dataSources := default [] made in
             emits (initialize_events dataSources) ;;;
             if bool_decide (is_Some (context !! "dataSources")) then
               throw dataSources_clash
             else
               ret (<["dataSources" :=
                        JObj (map (λ '(name, _), (name, JObj [])) dataSources)]>
                      context)
         | None => ret context
         end ;;
       ret (mkPrepared qs (decoded env (isGet && truthy ext) ext) op
              (decoded env (is_string vars) vars) context)) w.
Proof.
  intros (fields & -> & Hext & Hq & Hvars). cbn [prop].
  eexists _, _, _, _. split_and!; try reflexivity.
  unfold member_prepare. cbn [prop].
  unfold bind at 1, lift. unfold bind at 1. unfold bind at 1.
  set (ext := default JUndefined (assoc "extensions" fields)) in *.
  set (vars := default JUndefined (assoc "variables" fields)) in *.
  unfold decoded.
  destruct (isGet && truthy ext) eqn:Hg.
  - destruct Hext as [parsed Hparsed]; [done|]. rewrite Hparsed. cbn [ret default].
    unfold bind at 1. rewrite Hq. cbn [ret].
    unfold bind at 1. unfold bind at 1.
    destruct (is_string vars) eqn:Hs.
    + destruct Hvars as [pv Hpv]; [done|]. rewrite Hpv. cbn [ret default].
      reflexivity.
    + reflexivity.
  - cbn [ret]. unfold bind at 1. rewrite Hq. cbn [ret].
    unfold bind at 1. unfold bind at 1.
    destruct (is_string vars) eqn:Hs.
    + destruct Hvars as [pv Hpv]; [done|]. rewrite Hpv. cbn [ret default].
      reflexivity.
    + reflexivity.
Qed.

Lemma with_trace_app (w : World C) es es' :
  with_trace (trace (with_trace (trace w ++ es) w) ++ es')
    (with_trace (trace w ++ es) w)
  = with_trace (trace w ++ es ++ es') w.
Proof. unfold with_trace. cbn. by rewrite app_assoc. Qed.

(** A member callback whose parameters pass their checks and whose
    context can be created: what it has prepared when it builds the
    processor. *)
Lemma member_prepare_ok o isGet X ctx (w : World C) :
  params_ok env isGet X →
  created_context o = Some ctx →
  opt_dataSources o = None ∨ ctx !! "dataSources" = None →
  member_prepare env o isGet X w =
  (Ok (mkPrepared (param X "query")
         (decoded env (isGet && truthy (param X "extensions"))
            (param X "extensions"))
         (param X "operationName")
         (decoded env (is_string (param X "variables")) (param X "variables"))
         (prepared_context o ctx)),
   with_trace (trace w ++ prepare_events o) w).
Proof.
  intros Hparams Hctx Hds.
  destruct (member_prepare_params_ok o isGet X w Hparams)
    as (qs & ext & op & vars & Hq & He & Ho & Hv & ->).
  unfold param. rewrite Hq, He, Ho, Hv. cbn [ok_or].
  unfold prepare_events, context_events, prepared_context, created_context in *.
  destruct (opt_context o) as [|[e|value]|value]; simplify_eq;
    (destruct (opt_dataSources o) as [made|];
     [destruct Hds as [?|Hds]; [done|]|]);
    unfold bind, emit, emits, ret; cbn [fst snd trace with_trace];
    rewrite ?Hds, ?bool_decide_eq_false_2 by (intros [? ?]; discriminate);
    f_equal; destruct w; unfold with_trace; cbn;
    by rewrite ?app_nil_r, <- ?app_assoc.
Qed.

(** When the context can be created, a member callback that fails
    before it builds the processor fails on its parameters: nothing has
    happened by then. *)
Lemma member_prepare_Throw_world o isGet X ctx e (w w' : World C) :
  created_context o = Some ctx →
  opt_dataSources o = None ∨ ctx !! "dataSources" = None →
  member_prepare env o isGet X w = (Throw e, w') →
  w' = w.
Proof.
  intros Hctx Hds. unfold created_context in Hctx.
  unfold member_prepare, bind, lift, ret, throw, emit, emits,
    throwHttpGraphQLError.
  intros Hprep.
  repeat match type of Hprep with
         | context [match ?x with _ => _ end] => destruct x eqn:?
         end;
    simplify_eq; try done;
    repeat match goal with
           | H : context [match ?x with _ => _ end] |- _ =>
               destruct x eqn:?; simplify_eq
           end; try done;
    match goal with
    | Hb : bool_decide (is_Some (?c !! "dataSources")) = true |- _ =>
        apply bool_decide_eq_true in Hb as [? Hb];
        destruct Hds as [?|Hds]; [done|congruence]
    end.
Qed.

(** The [try] block of a member callback, for parameters that pass their
    checks: the processor, run on the decoded parameters. *)
Lemma member_try_processed request o isGet X ctx l (w : World C) :
  params_ok env isGet X →
  created_context o = Some ctx →
  opt_dataSources o = None ∨ ctx !! "dataSources" = None →
  assigned o l = cacheControl_of o →
  let processed := processed_request env request isGet X in
  member_try env P request o isGet X (mkRunState l w)
  = in_world
      (P (processor_options env o isGet ctx X)
         (if isGet then Some willExecuteOperation else None) processed)
      (mkRunState (cacheControl_of o) (processing_world o processed w)).
Proof.
  intros Hparams Hctx Hds Hassigned processed.
  rewrite (member_try_prepared request o isGet X _ _ l w
             (member_prepare_ok o isGet X ctx w Hparams Hctx Hds)).
  rewrite Hassigned.
  unfold in_world, member_process, bind, emit, emits. cbn [world fst snd].
  unfold processing_world. by rewrite with_trace_app.
Qed.

Lemma assigned_None o : assigned o None = cacheControl_of o.
Proof. unfold assigned. by destruct (cacheControl_of o). Qed.

Lemma assigned_cacheControl_of o : assigned o (cacheControl_of o) = cacheControl_of o.
Proof. unfold assigned. by destruct (cacheControl_of o). Qed.

Lemma strip_if_response_of cc errs :
  strip_if cc (response_of errs) = response_of errs.
Proof.
  unfold strip_if, strip_cacheControl, response_of.
  destruct cc as [cc|]; [|done]. by destruct (stripFormattedExtensions cc).
Qed.

Lemma member_batch request o isGet X (s : RunState C) :
  fst (member env P request o isGet true X s)
  = Ok (slot_of env o (fst (member_try env P request o isGet X s))).
Proof.
  unfold member, try_catch.
  by destruct (member_try env P request o isGet X s) as [[r|e] s'].
Qed.

(** Every slot of a batch is what its member's callback left there. *)
Lemma all_member_lookup request o isGet items (s : RunState C) :
  ∃ rs s',
    all (member env P request o isGet true) items s = (Ok rs, s')
    ∧ ∀ i X, items !! i = Some X →
        ∃ si, rs !! i
              = Some (slot_of env o
                        (fst (member_try env P request o isGet X si))).
Proof.
  revert s. induction items as [|X0 rest IH]; intros s; cbn [all].
  - eexists _, _. split; [reflexivity|]. intros i X Hi. done.
  - unfold bind at 1.
    pose proof (member_batch request o isGet X0 s) as Hslot.
    destruct (member env P request o isGet true X0 s) as [r0 s1].
    cbn [fst] in Hslot. subst r0.
    unfold bind at 1. destruct (IH s1) as (rs & s2 & -> & Hrs).
    eexists _, _. split; [reflexivity|].
    intros [|i] X Hi; cbn in Hi.
    + simplify_eq. by exists s.
    + destruct (Hrs i X Hi) as [si Hsi]. by exists si.
Qed.

(** A member callback whose string variables do not decode throws,
    whatever the state it runs in. *)
Lemma member_try_bad_variables request o isGet X text (s : RunState C) :
  prop X "variables" = Ok (JStr text) →
  (∀ q, prop X "query" = Ok q → truthy q = true → is_string q = true) →
  (isGet = true →
   ∀ ext, prop X "extensions" = Ok ext →
          truthy ext = true → is_Some (JSON_parse env ext)) →
  JSON_parse env (JStr text) = None →
  member_try env P request o isGet X s
  = (Throw (HttpQueryError 400 "Variables are invalid JSON." false None), s).
Proof.
  intros Hvars Hquery Hext Hnone.
  destruct X as [| | | | |?|fields]; try (cbn in Hvars; simplify_eq; discriminate).
  cbn [prop] in *.
  set (q := default JUndefined (assoc "query" fields)) in *.
  set (ext := default JUndefined (assoc "extensions" fields)) in *.
  assert (Hq : truthy q && negb (is_string q) = false).
  { destruct (truthy q) eqn:Ht; [|done]. by rewrite (Hquery q). }
  assert (Hparse : isGet && truthy ext = true → is_Some (JSON_parse env ext)).
  { intros [-> Ht]%andb_true_iff. by apply Hext. }
  unfold member_try, bind at 1, in_world at 1.
  assert (Hprep : member_prepare env o isGet (JObj fields) (world s)
                  = (Throw (HttpQueryError 400 "Variables are invalid JSON."
                              false None), world s)).
  { unfold member_prepare.
    unfold bind at 1, lift. cbn [prop]. unfold bind at 1. fold ext.
    unfold bind at 1. simplify_eq.
    destruct (isGet && truthy ext); [destruct Hparse as [? ->]; [done|]|];
      cbn; fold q; rewrite Hq; cbn;
      match goal with Hv : default _ _ = JStr _ |- _ => rewrite Hv end;
      cbn; rewrite Hnone; reflexivity. }
  rewrite Hprep. by destruct s.
Qed.

(** The parameters pass their checks when the variables decode. *)
Lemma params_ok_variables isGet X text :
  prop X "variables" = Ok (JStr text) →
  (∀ q, prop X "query" = Ok q → truthy q = true → is_string q = true) →
  (isGet = true →
   ∀ ext, prop X "extensions" = Ok ext →
          truthy ext = true → is_Some (JSON_parse env ext)) →
  is_Some (JSON_parse env (JStr text)) →
  params_ok env isGet X.
Proof.
  intros Hvars Hquery Hext Hsome.
  destruct X as [| | | | |?|fields]; try (cbn in Hvars; simplify_eq; discriminate).
  cbn [prop] in *. exists fields. split; [done|]. cbv zeta. split_and!.
  - intros [-> Ht]%andb_true_iff. by apply Hext.
  - destruct (truthy _) eqn:Ht; [|done]. cbn [andb].
    by rewrite (Hquery _ eq_refl Ht).
  - intros _. injection Hvars as ->. exact Hsome.
Qed.

(** A single request whose callback returns a response that has data or
    no errors. *)
Lemma run_single_Ok request o isGet r s1 (w : World C) :
  options request = inr o →
  accepted request isGet →
  Array_isArray (http_query request) = false →
  member_try env P request (with_default_debug env o) isGet
    (http_query request) (mkRunState None w) = (Ok r, s1) →
  errors r = None ∨ data r ≠ JUndefined →
  let sent := strip_if (local_cacheControl s1) r in
  let stringified := prettyJSONStringify env (JsonResponse sent) in
  runHttpQuery env P request w =
  (Ok (mkHttpQueryResponse stringified
         (response_headers env (local_cacheControl s1) [r] stringified)),
   world s1).
Proof.
  intros Ho Hacc Hsingle Htry Hok.
  rewrite (runHttpQuery_accepted request o isGet) by done.
  rewrite Hsingle.
  assert (Hpayload :
    match http_query request with JArr items => items | payload => [payload] end
    = [http_query request]) by (by destruct (http_query request)).
  rewrite Hpayload.
  unfold bind at 1, try_catch, all, bind at 1, member, try_catch.
  rewrite Htry. unfold bind, ret, read_cacheControl, respond. cbn [negb map].
  rewrite strip_if_errors, strip_if_data.
  destruct Hok as [Hnone|Hdata].
  - rewrite Hnone. reflexivity.
  - destruct (errors r), (data r); try done.
Qed.

(** C10 (amended). On POST as on GET, the [variables] of a request,
    when a string, are decoded with [JSON.parse] once the extensions and
    the query have passed their checks. For a single request: if decoding
    fails [runHttpQuery] fails with an [HttpQueryError] of status 400,
    "Variables are invalid JSON.", and the processor is not run; if it
    succeeds and the context can be created, the processor is run with the
    decoded value as the request's variables, and its response, when it
    has data or no errors, is what is sent. For a member of a batch: if
    decoding fails [runHttpQuery] does not fail; the member's slot carries
    the error, formatted. *)
Theorem string_variables_are_decoded request o isGet X text (w : World C) :
  options request = inr o →
  accepted request isGet →
  prop X "variables" = Ok (JStr text) →
  (∀ q, prop X "query" = Ok q → truthy q = true → is_string q = true) →
  (isGet = true →
   ∀ ext, prop X "extensions" = Ok ext →
          truthy ext = true → is_Some (JSON_parse env ext)) →
  let o' := with_default_debug env o in
  let invalid := HttpQueryError 400 "Variables are invalid JSON." false None in
  (http_query request = X →
   (JSON_parse env (JStr text) = None →
    runHttpQuery env P request w =
    (Throw invalid, with_trace (trace w ++ [EvConsoleLog (log_line o')]) w))
   ∧ (∀ parsed ctx,
        JSON_parse env (JStr text) = Some parsed →
        created_context o' = Some ctx →
        opt_dataSources o' = None ∨ ctx !! "dataSources" = None →
        let processed := processed_request env request isGet X in
        pr_variables processed = parsed
        ∧ ∀ r w',
            P (processor_options env o' isGet ctx X)
              (if isGet then Some willExecuteOperation else None) processed
              (processing_world o' processed w)
            = (Ok r, w') →
            errors r = None ∨ data r ≠ JUndefined →
            let sent := strip_if (cacheControl_of o') r in
            let stringified := prettyJSONStringify env (JsonResponse sent) in
            runHttpQuery env P request w =
            (Ok (mkHttpQueryResponse stringified
                   (response_headers env (cacheControl_of o') [r] stringified)),
             w')))
  ∧ (∀ items i,
       http_query request = JArr items →
       items !! i = Some X →
       JSON_parse env (JStr text) = None →
       ∃ slots headers w',
         runHttpQuery env P request w =
         (Ok (mkHttpQueryResponse
                (prettyJSONStringify env (JsonResponses slots)) headers),
          w')
         ∧ slots !! i
           = Some (response_of
                     (Some (formatApolloErrors env [invalid]
                              (mkFormatOptions (opt_debug o') None))))).
Proof.
  intros Ho Hacc Hvars Hquery Hext o' invalid. split.
  - intros Hpayload.
    assert (Hsingle : Array_isArray (http_query request) = false).
    { rewrite Hpayload. by destruct X. }
    split.
    + intros Hnone.
      pose proof (member_try_bad_variables request o' isGet X text
                    (mkRunState None w) Hvars Hquery Hext Hnone) as Htry.
      rewrite <- Hpayload in Htry.
      by rewrite (run_single_member_Throw request o isGet invalid
                    (mkRunState None w)).
    + intros parsed ctx Hsome Hctx Hds processed. split.
      * subst processed. unfold processed_request, param. rewrite Hvars.
        cbn [pr_variables ok_or is_string typeof]. unfold decoded at 1.
        by rewrite Hsome.
      * intros r w' HP Hok sent stringified.
        assert (Hparams : params_ok env isGet X)
          by (apply (params_ok_variables isGet X text); eauto).
        pose proof (member_try_processed request o' isGet X ctx None w
                      Hparams Hctx Hds (assigned_None o')) as Htry.
        cbv zeta in Htry. fold processed in Htry.
        unfold in_world in Htry. cbn [world local_cacheControl] in Htry.
        rewrite HP in Htry. rewrite <- Hpayload in Htry.
        by rewrite (run_single_Ok request o isGet r _ w Ho Hacc Hsingle Htry Hok).
  - intros items i Hpayload Hi Hnone.
    rewrite (runHttpQuery_accepted request o isGet) by done.
    rewrite Hpayload. cbn [Array_isArray]. fold o'.
    destruct (all_member_lookup request o' isGet items (mkRunState None w))
      as (rs & s1 & Hall & Hrs).
    unfold bind at 1, try_catch. rewrite Hall.
    unfold bind, read_cacheControl, respond. cbn [negb].
    eexists _, _, _. split; [reflexivity|].
    destruct (Hrs i X Hi) as [si Hsi].
    rewrite list_lookup_fmap, Hsi. cbn [fmap option_fmap option_map].
    rewrite (member_try_bad_variables request o' isGet X text si)
      by done.
    cbn [fst slot_of]. by rewrite strip_if_response_of.
Qed.

Lemma assigned_idem o l : assigned o (assigned o l) = assigned o l.
Proof. unfold assigned. by destruct (cacheControl_of o). Qed.

Lemma member_try_local request o isGet X (s : RunState C) :
  let out := member_try env P request o isGet X s in
  match fst out with
  | Ok _ => local_cacheControl (snd out) = assigned o (local_cacheControl s)
  | Throw _ =>
      local_cacheControl (snd out) = local_cacheControl s
      ∨ local_cacheControl (snd out) = assigned o (local_cacheControl s)
  end.
Proof.
  unfold member_try, bind, in_world, assigned, assign_cacheControl,
    read_cacheControl, ret. cbn -[member_process member_prepare].
  destruct (member_prepare env o isGet X (world s)) as [[p|e] w1];
    cbn -[member_process]; [|auto].
  destruct (cacheControl_of o) as [cc|]; cbn -[member_process];
    match goal with
    | |- context [member_process ?a1 ?a2 ?a3 ?a4 ?a5 ?a6 ?a7] =>
        destruct (member_process a1 a2 a3 a4 a5 a6 a7) as [[r|e] w2]
    end; cbn; auto.
Qed.

Lemma member_local request o isGet isBatch X (s : RunState C) :
  let s' := snd (member env P request o isGet isBatch X s) in
  local_cacheControl s' = local_cacheControl s
  ∨ local_cacheControl s' = assigned o (local_cacheControl s).
Proof.
  pose proof (member_try_local request o isGet X s) as Htry.
  unfold member, try_catch. cbv zeta in *.
  destruct (member_try env P request o isGet X s) as [[r|e] s1];
    cbn [fst snd] in *; [auto|].
  assert (local_cacheControl (snd (member_catch env o isBatch e s1))
          = local_cacheControl s1) as ->; [|done].
  unfold member_catch, bind, in_world, emit, emits; cbn.
  destruct isBatch; [done|]. by destruct e.
Qed.

(** A batch of two members, the second of which gets a result. *)
Lemma batch_pair request o A B rB sB (w : World C) :
  options request = inr o →
  method_ request = "POST" ∨ method_ request = "GET" →
  http_query request = JArr [A; B] →
  let isGet := String.eqb (method_ request) "GET" in
  let o' := with_default_debug env o in
  let s0 := mkRunState None w in
  let outcomeA := fst (member_try env P request o' isGet A s0) in
  let sA := snd (member env P request o' isGet true A s0) in
  member_fails outcomeA →
  member_try env P request o' isGet B sA = (Ok rB, sB) →
  let cc := cacheControl_of o' in
  let slot0 := strip_if cc (slot_of env o' outcomeA) in
  let slot1 := strip_if cc rB in
  let stringified := prettyJSONStringify env (JsonResponses [slot0; slot1]) in
  runHttpQuery env P request w =
  (Ok (mkHttpQueryResponse stringified
         (response_headers env cc [slot_of env o' outcomeA; rB] stringified)),
   world sB)
  ∧ is_Some (errors slot0)
  ∧ (∀ e, outcomeA = Throw e →
       slot0 = response_of
                 (Some (formatApolloErrors env [e]
                          (mkFormatOptions (opt_debug o') None)))).
Proof.
  intros Ho Hmethod Hpayload isGet o' s0 outcomeA sA HA HB cc slot0 slot1
    stringified.
  assert (Hacc : accepted request isGet).
  { split; [|by rewrite Hpayload]. subst isGet.
    destruct Hmethod as [Hm|Hm]; rewrite Hm; auto. }
  assert (Hcc : local_cacheControl sB = cc).
  { pose proof (member_try_local request o' isGet B sA) as HlB.
    rewrite HB in HlB. cbn in HlB. rewrite HlB.
    pose proof (member_local request o' isGet true A s0) as HlA.
    fold sA in HlA. cbn in HlA.
    destruct HlA as [-> | ->]; rewrite ?assigned_idem;
      unfold assigned, cc; by destruct (cacheControl_of o'). }
  split_and!.
  - assert (Hall : all (member env P request o' isGet true) [A; B] s0
                   = (Ok [slot_of env o' outcomeA; rB], sB)).
    { pose proof (member_batch request o' isGet A s0) as HmA.
      fold outcomeA in HmA. subst sA.
      cbn [all]. unfold bind at 1.
      destruct (member env P request o' isGet true A s0) as [rA sA'].
      cbn [fst snd] in *. subst rA.
      unfold bind, member, try_catch. rewrite HB. reflexivity. }
    rewrite (runHttpQuery_accepted request o isGet) by done.
    rewrite Hpayload. cbn [Array_isArray].
    fold o' s0.
    unfold bind at 1, try_catch at 1. rewrite Hall.
    cbn. rewrite Hcc. reflexivity.
  - subst slot0. rewrite strip_if_errors.
    destruct outcomeA; [exact HA|]. cbn. eauto.
  - intros e He. subst slot0. rewrite He. cbn.
    unfold strip_if, strip_cacheControl. cbn.
    destruct cc as [c|]; [|done]. by destruct (stripFormattedExtensions c).
Qed.

(** C3. For a batch of two members, the first of which fails (its
    callback raises, or its pipeline answers with errors) and the second
    of which passes its checks: when the request processor answers the
    second member's request with a response, [runHttpQuery] returns (it
    does not throw) the serialised array of two slots; slot 0 carries
    [errors], slot 1 is the processor's response to the second member.
    When the first member fails on its parameters, its slot carries that
    error, formatted, and all it leaves behind is the line its [catch]
    block logs. *)
Theorem batch_members_are_isolated request o A B ctx rB wB (w : World C) :
  options request = inr o →
  method_ request = "POST" ∨ method_ request = "GET" →
  http_query request = JArr [A; B] →
  let isGet := String.eqb (method_ request) "GET" in
  let o' := with_default_debug env o in
  let s0 := mkRunState None w in
  let outcomeA := fst (member_try env P request o' isGet A s0) in
  let wA := world (snd (member env P request o' isGet true A s0)) in
  member_fails outcomeA →
  params_ok env isGet B →
  created_context o' = Some ctx →
  opt_dataSources o' = None ∨ ctx !! "dataSources" = None →
  let processed := processed_request env request isGet B in
  P (processor_options env o' isGet ctx B)
    (if isGet then Some willExecuteOperation else None) processed
    (processing_world o' processed wA)
  = (Ok rB, wB) →
  let cc := cacheControl_of o' in
  let slot0 := strip_if cc (slot_of env o' outcomeA) in
  let slot1 := strip_if cc rB in
  let stringified := prettyJSONStringify env (JsonResponses [slot0; slot1]) in
  runHttpQuery env P request w =
  (Ok (mkHttpQueryResponse stringified
         (response_headers env cc [slot_of env o' outcomeA; rB] stringified)),
   wB)
  ∧ is_Some (errors slot0)
  ∧ (∀ e, outcomeA = Throw e →
       slot0 = response_of
                 (Some (formatApolloErrors env [e]
                          (mkFormatOptions (opt_debug o') None))))
  ∧ (∀ e wA', member_prepare env o' isGet A w = (Throw e, wA') →
       outcomeA = Throw e
       ∧ wA = with_trace (trace w ++ [EvConsoleLog (log_line o')]) w).
Proof.
  intros Ho Hmethod Hpayload isGet o' s0 outcomeA wA HA HB Hctx Hds processed
    HP cc slot0 slot1 stringified.
  assert (Hassigned :
    assigned o' (local_cacheControl (snd (member env P request o' isGet true A s0)))
    = cacheControl_of o').
  { pose proof (member_local request o' isGet true A s0) as HlA.
    cbn in HlA.
    destruct HlA as [-> | ->];
      [apply assigned_None|by rewrite assigned_None, assigned_cacheControl_of]. }
  assert (Htry :
    member_try env P request o' isGet B (snd (member env P request o' isGet true A s0))
    = (Ok rB, mkRunState cc wB)).
  { destruct (snd (member env P request o' isGet true A s0)) as [lA wA0] eqn:HsA.
    cbn [local_cacheControl] in Hassigned.
    rewrite (member_try_processed request o' isGet B ctx lA wA0) by done.
    subst wA. cbn [world] in HP. fold processed.
    unfold in_world. cbn [world local_cacheControl]. by rewrite HP. }
  destruct (batch_pair request o A B rB (mkRunState cc wB) w Ho Hmethod Hpayload
              HA Htry) as (Hrun & Herrors & Hslot0).
  split_and!; [exact Hrun|exact Herrors|exact Hslot0|].
  intros e wA' Hprep.
  pose proof (member_prepare_Throw_world o' isGet A ctx e w wA' Hctx Hds Hprep)
    as ->.
  assert (Htry' : member_try env P request o' isGet A s0
                  = (Throw e, mkRunState None w)).
  { subst s0. unfold member_try, bind at 1, in_world at 1. cbn [world].
    by rewrite Hprep. }
  subst outcomeA wA. unfold member, try_catch. rewrite Htry'.
  split; reflexivity.
Qed.
End Http.

(** ** GET requests and the request processor *)
Section ReadOnly.
Context {C : Type} `{KeyValueCache C}.
Variable env : Env.

Lemma resolveQuery_cache_only config request (w w0 : World C) :
  pq_cache w = pq_cache w0 →
  fst (resolveQuery env config request w) = fst (resolveQuery env config request w0).
Proof.
  intros Hc. unfold resolveQuery, bind, cache_get_await, cache_set_detached,
    throw, ret.
  repeat (cbn; rewrite ?Hc;
          match goal with
          | |- context [match ?x with _ => _ end] => destruct x
          end; try done).
Qed.

Lemma grows_ret {A} (a : A) : grows (C:=C) (ret a).
Proof. intros w. exists []. split; [by rewrite app_nil_r|constructor]. Qed.

Lemma grows_throw {A} e : grows (C:=C) (@throw _ A e).
Proof. intros w. exists []. split; [by rewrite app_nil_r|constructor]. Qed.

Lemma grows_lift {A} (r : Res A) : grows (C:=C) (lift r).
Proof. intros w. exists []. split; [by rewrite app_nil_r|constructor]. Qed.

Lemma grows_emits es : no_execution es → grows (C:=C) (emits es).
Proof. intros Hes w. by exists es. Qed.

Lemma grows_emit ev : ¬ is_execution ev → grows (C:=C) (emit ev).
Proof. intros Hev. apply grows_emits. by constructor. Qed.

Lemma grows_bind {A B} (m : M C A) (k : A → M C B) :
  grows m → (∀ a, grows (k a)) → grows (bind m k).
Proof.
  intros Hm Hk w. unfold bind. destruct (Hm w) as (es & Ht & Hes).
  destruct (m w) as [[a|e] w1]; cbn in *; [|eauto].
  destruct (Hk a w1) as (es' & Ht' & Hes').
  exists (es ++ es'). rewrite Ht', Ht, app_assoc. split; [done|].
  by apply Forall_app.
Qed.

Lemma no_execution_dataSources (sources : list (string * DataSource)) :
  no_execution
    (omap (λ '(name, ds),
             if has_initialize ds then Some (EvDataSourceInitialize name)
             else None) sources).
Proof.
  apply Forall_forall. intros ev (x & _ & Hx)%list_elem_of_omap.
  destruct x as [name ds]. destruct (has_initialize ds); simplify_eq. by intros [].
Qed.

Ltac grow :=
  repeat first
    [ apply grows_ret | apply grows_throw | apply grows_lift
    | apply grows_emits, no_execution_dataSources
    | apply grows_emit; by intros []
    | apply grows_bind
    | match goal with
      | |- ∀ _, _ => intro
      | |- grows (if ?b then _ else _) => destruct b
      | |- grows (match ?x with _ => _ end) => destruct x
      end ].

Lemma grows_cache_get_await key : grows (C:=C) (cache_get_await key).
Proof. intros w. exists [EvCacheGet key]. split; [done|]. repeat constructor. by intros []. Qed.

Lemma grows_cache_set_detached key value :
  grows (C:=C) (cache_set_detached key value).
Proof. intros w. exists [EvCacheSet key value]. split; [done|]. repeat constructor. by intros []. Qed.

Lemma grows_resolveQuery config request : grows (resolveQuery env config request).
Proof.
  unfold resolveQuery, computeQueryHash.
  repeat first [ apply grows_cache_get_await | apply grows_cache_set_detached
               | progress grow ].
Qed.

Lemma grows_member_prepare o isGet X :
  grows (C:=C) (member_prepare env o isGet X).
Proof. unfold member_prepare, throwHttpGraphQLError. grow. Qed.

Lemma willExecuteOperation_rejects op :
  operation op ≠ query_op → willExecuteOperation op = Throw method_not_allowed.
Proof. unfold willExecuteOperation. by destruct (operation op). Qed.

Lemma processor_stops_at_resolution options request rq doc op (w w2 : World C) :
  let cfg := GraphQLRequestProcessor.config_of options (Some willExecuteOperation) in
  let req := GraphQLRequestProcessor.as_request request in
  resolveQuery env cfg req (with_ext_calls [] w) = (Ok rq, w2) →
  graphql_parse env (resolved_query rq) = Ok doc →
  graphql_validate env doc = Ok [] →
  getOperationAST env doc (operationName req) = Some op →
  operation op ≠ query_op →
  ∃ xs es,
    GraphQLRequestProcessor.processRequest env options
      (Some willExecuteOperation) request w
    = (Throw method_not_allowed, extend xs es w2)
    ∧ no_execution es.
Proof.
  intros cfg req Hresolve Hparse Hvalidate Hop Hkind.
  unfold GraphQLRequestProcessor.processRequest. fold cfg req.
  rewrite (processRequest_init env) by (by left).
  change (init_world cfg w) with (with_ext_calls [] w).
  rewrite (bind_Ok _ _ _ _ _ Hresolve).
  eexists _, _. split.
  - unfold runStages.
    eapply runs_bind; [apply runs_ext|].
    eapply runs_bind; [cbn; apply runs_ret|].
    eapply runs_try_finally; [|apply runs_ext].
    eapply runs_bind.
    { eapply runs_try_catch_Ok.
      eapply runs_bind; [rewrite <- Hparse; apply runs_parse|].
      eapply runs_bind; [apply runs_emits|]. apply runs_ret. }
    cbv beta iota.
    eapply runs_bind; [cbn; apply runs_ret|].
    eapply runs_bind;
      [eapply runs_eq_result; [apply runs_validate|done|done|exact Hvalidate]|].
    cbn [length Nat.ltb Nat.leb].
    eapply runs_bind; [apply runs_emits|].
    eapply runs_bind_Throw.
    unfold req in Hop. cbn -[willExecuteOperation] in Hop.
    cbn -[willExecuteOperation]. rewrite Hop. cbn -[willExecuteOperation].
    rewrite (willExecuteOperation_rejects op Hkind).
    eapply runs_bind; [apply runs_emit|].
    eapply runs_bind_Throw. apply runs_lift.
  - cbn. repeat constructor; by intros [].
Qed.

(** C7. A single GET request that resolves to an operation whose kind
    is not 'query' makes [runHttpQuery] fail with an [HttpQueryError] of
    status 405 and header [Allow: POST]; no event of the EXECUTE stage is
    added to the trace. *)
Theorem get_mutation_is_method_not_allowed request o p w1 rq doc op (w : World C) :
  options request = inr o →
  method_ request = "GET" →
  missing (http_query request) = false →
  Array_isArray (http_query request) = false →
  let o' := with_default_debug env o in
  member_prepare env o' true (http_query request) w = (Ok p, w1) →
  let processed :=
    mkProcessorRequest (prep_queryString p) (prep_operationName p)
      (prep_variables p) (prep_extensions p) (http_request request) in
  let cfg :=
    GraphQLRequestProcessor.config_of
      (mkProcessorOptions (prep_context p) (opt_extensions o')
         (opt_persistedQueries o') (opt_tracing o') (assigned o' None)
         (opt_formatResponse o') (opt_debug o') (prep_extensions p))
      (Some willExecuteOperation) in
  let req := GraphQLRequestProcessor.as_request processed in
  fst (resolveQuery env cfg req w1) = Ok rq →
  graphql_parse env (resolved_query rq) = Ok doc →
  graphql_validate env doc = Ok [] →
  getOperationAST env doc (operationName req) = Some op →
  operation op ≠ query_op →
  ∃ w' es,
    runHttpQuery env (GraphQLRequestProcessor.processRequest env) request w
    = (Throw (HttpQueryError 405 "GET supports only query operation" false
                (Some [("Allow", "POST")])),
       w')
    ∧ trace w' = trace w ++ es
    ∧ no_execution es.
Proof.
  intros Ho Hmethod Hmissing Hsingle o' Hprep processed cfg req Hresolve
    Hparse Hvalidate Hop Hkind.
  assert (Hacc : accepted request true) by (split; [by right|done]).
  set (w1' := with_trace (trace w1 ++ [EvProcessRequest processed]) w1).
  destruct (resolveQuery env cfg req (with_ext_calls [] w1')) as [r w2] eqn:Hr.
  assert (r = Ok rq) as ->.
  { rewrite <- Hresolve.
    change r with (fst (r, w2)). rewrite <- Hr.
    by apply resolveQuery_cache_only. }
  destruct (processor_stops_at_resolution
              (mkProcessorOptions (prep_context p) (opt_extensions o')
                 (opt_persistedQueries o') (opt_tracing o') (assigned o' None)
                 (opt_formatResponse o') (opt_debug o') (prep_extensions p))
              processed rq doc op w1' w2 Hr Hparse Hvalidate Hop Hkind)
    as (xs & es & Hrun & Hes).
  destruct (grows_member_prepare o' true (http_query request) w)
    as (es1 & Ht1 & Hes1).
  rewrite Hprep in Ht1. cbn [snd] in Ht1.
  destruct (grows_resolveQuery cfg req (with_ext_calls [] w1'))
    as (es2 & Ht2 & Hes2).
  rewrite Hr in Ht2. cbn [snd] in Ht2.
  eexists _, _. split_and!.
  - apply (run_single_member_Throw env _ request o true _
             (mkRunState (assigned o' None) (extend xs es w2)));
      [done|done|done| |done].
    rewrite (member_try_prepared env _ request o' true _ p w1) by done.
    unfold in_world, member_process. cbn [world local_cacheControl].
    fold processed. unfold bind at 1, emit, emits. fold w1'.
    by rewrite Hrun.
  - cbn [trace with_trace world extend]. rewrite Ht2. cbn [trace with_ext_calls w1' with_trace].
    rewrite Ht1. rewrite <- !app_assoc. reflexivity.
  - repeat (apply Forall_app; split); try done.
    all: repeat constructor; by intros [].
Qed.
End ReadOnly.

(** ** The coordinator: methods, options, failures *)
Section HttpEdges.
Context {C : Type} `{KeyValueCache C}.
Variable env : Env.
Variable P :
  GraphQLRequestProcessorOptions → option WillExecuteOperation →
  ProcessorRequest → M C GraphQLResponse.

Lemma runHttpQuery_inr request o (w : World C) :
  options request = inr o →
  runHttpQuery env P request w =
  match
    (isGetRequest <- check_method request ;;
     let optionsObject := with_default_debug env o in
     let isBatch := Array_isArray (http_query request) in
     let requestPayload :=
       match http_query request with
       | JArr items => items
       | payload => [payload]
       end in
     responses <-
       try_catch
         (all (member env P request optionsObject isGetRequest isBatch)
              requestPayload)
         (λ error,
            if is_HttpQueryError error then throw error
            else throwHttpGraphQLError env 500 [error]
                   (Some (format_options optionsObject))) ;;
     cacheControl <- read_cacheControl ;;
     respond env isBatch cacheControl responses) (mkRunState None w)
  with
  | (r, s) => (r, world s)
  end.
Proof.
  intros Ho. unfold runHttpQuery, runHttpQuery_body.
  unfold bind at 1. rewrite (resolve_options_inr env request o) by done. reflexivity.
Qed.

(** X1. Once the options are resolved, a method other than POST and GET
    makes [runHttpQuery] fail with status 405 and [Allow: GET, POST]; a
    POST whose payload is absent or has no key fails with status 500, a
    GET with status 400. Nothing else has happened by then. *)
Theorem method_and_payload_are_checked request o (w : World C) :
  options request = inr o →
  (method_ request ≠ "POST" → method_ request ≠ "GET" →
   runHttpQuery env P request w =
   (Throw (HttpQueryError 405 "Apollo Server supports only GET/POST requests."
             false (Some [("Allow", "GET, POST")])),
    w))
  ∧ (method_ request = "POST" → missing (http_query request) = true →
     runHttpQuery env P request w =
     (Throw (HttpQueryError 500
               "POST body missing. Did you forget use body-parser middleware?"
               false None),
      w))
  ∧ (method_ request = "GET" → missing (http_query request) = true →
     runHttpQuery env P request w =
     (Throw (HttpQueryError 400 "GET query missing." false None), w)).
Proof.
  intros Ho. rewrite (runHttpQuery_inr request o) by done.
  unfold bind at 1, check_method. split_and!.
  - intros Hpost Hget.
    destruct (String.eqb_spec (method_ request) "POST"); [done|].
    destruct (String.eqb_spec (method_ request) "GET"); [done|].
    reflexivity.
  - intros -> ->. reflexivity.
  - intros -> ->. reflexivity.
Qed.

(** X2. When the options cannot be resolved, [runHttpQuery] fails with
    status 500 whatever the method and the payload: the error's message is
    prefixed, the warning about NODE_ENV is attached unless the debug
    default is on, and the error is formatted with that default. *)
Theorem options_failure_is_500 request e (w : World C) :
  options request = inl e →
  let e1 :=
    with_message ("Invalid options provided to ApolloServer: " +:+ message e) e in
  let e2 :=
    if debugDefault env then e1
    else with_warning
           "To remove the stacktrace, set the NODE_ENV environment variable to production if the options creation can fail"
           e1 in
  runHttpQuery env P request w =
  (Throw (HttpQueryError 500
            (prettyJSONStringify env
               (JsonErrors
                  (map Error
                     (formatApolloErrors env [Error e2]
                        (mkFormatOptions (Some (debugDefault env)) None)))))
            true (Some [("Content-Type", "application/json")])),
   w).
Proof.
  intros He e1 e2. unfold runHttpQuery, runHttpQuery_body.
  unfold bind at 1, resolve_options, bind at 1. rewrite He.
  subst e2 e1. by destruct (debugDefault env).
Qed.

Lemma all_length {S A B} (f : A → St S B) items s rs s' :
  all f items s = (Ok rs, s') → length rs = length items.
Proof.
  revert s rs s'. induction items as [|item rest IH]; intros s rs s'; cbn [all].
  - intros [= <- <-]. done.
  - unfold bind at 1. destruct (f item s) as [[r|e] s1]; [|done].
    unfold bind at 1. destruct (all f rest s1) as [[rs1|e] s2] eqn:Hall; [|done].
    intros [= <- <-]. cbn. f_equal. by eapply IH.
Qed.

Lemma throwHttpGraphQLError_is_http {S A} statusCode errs o (s : S) :
  ∃ e, @throwHttpGraphQLError env S A statusCode errs o s = (Throw e, s)
       ∧ is_HttpQueryError e = true.
Proof. eexists. split; reflexivity. Qed.

Lemma respond_outcome isBatch cc responses (s : RunState C) :
  (isBatch = false → responses ≠ []) →
  ∃ r, respond env isBatch cc responses s = (r, s)
       ∧ match r with
         | Throw e => is_HttpQueryError e = true
         | Ok sent =>
             ∃ j, graphqlResponse sent = prettyJSONStringify env j
                  ∧ ∃ headers,
                      responseInit sent =
                      assign_header "Content-Length"
                        (Buffer_byteLength env (graphqlResponse sent)) headers
         end.
Proof.
  intros Hne. unfold respond. destruct isBatch; cbn [negb].
  - eexists. split; [reflexivity|]. cbn. eauto.
  - destruct responses as [|r rest]; [by destruct Hne|]. cbn [map].
    destruct (errors (strip_if cc r)) as [errs|];
      [destruct (data (strip_if cc r))|];
      eexists; (split; [reflexivity|]); cbn; eauto.
Qed.

Lemma runHttpQuery_outcome request (w : World C) :
  match fst (runHttpQuery env P request w) with
  | Throw e => is_HttpQueryError e = true
  | Ok sent =>
      ∃ j, graphqlResponse sent = prettyJSONStringify env j
           ∧ ∃ headers,
               responseInit sent =
               assign_header "Content-Length"
                 (Buffer_byteLength env (graphqlResponse sent)) headers
  end.
Proof.
  unfold runHttpQuery, runHttpQuery_body.
  unfold bind at 1, resolve_options, bind at 1.
  destruct (options request) as [e|o]; [done|]. cbn [ret].
  unfold bind at 1, check_method.
  set (o' := match opt_debug o with
             | Some _ => o
             | None => set_debug (Some (debugDefault env)) o
             end).
  assert (Hpayload :
    Array_isArray (http_query request) = false →
    match http_query request with JArr items => items | payload => [payload] end
    ≠ []).
  { by destruct (http_query request). }
  set (payload := match http_query request with
                  | JArr items => items | p => [p] end) in *.
  assert (Hrest : ∀ isGet s,
    match fst (let '(r, s) :=
      (responses <-
         try_catch
           (all (member env P request o' isGet (Array_isArray (http_query request)))
                payload)
           (λ error,
              if is_HttpQueryError error then throw error
              else throwHttpGraphQLError env 500 [error]
                     (Some (format_options o'))) ;;
       cacheControl <- read_cacheControl ;;
       respond env (Array_isArray (http_query request)) cacheControl responses) s
      in (r, world s)) with
    | Throw e => is_HttpQueryError e = true
    | Ok sent =>
        ∃ j, graphqlResponse sent = prettyJSONStringify env j
             ∧ ∃ headers,
                 responseInit sent =
                 assign_header "Content-Length"
                   (Buffer_byteLength env (graphqlResponse sent)) headers
    end).
  { intros isGet s. unfold bind at 1, try_catch.
    destruct (all _ payload s) as [[rs|e] s1] eqn:Hall.
    - unfold bind, read_cacheControl.
      destruct (respond_outcome (Array_isArray (http_query request))
                  (local_cacheControl s1) rs s1) as (r & -> & Hr).
      + intros Hsingle Hnil. subst rs. apply all_length in Hall.
        apply Hpayload in Hsingle. by destruct payload.
      + done.
    - destruct (is_HttpQueryError e) eqn:He; cbn; done. }
  destruct (String.eqb (method_ request) "POST").
  - destruct (missing (http_query request)); [done|]. apply Hrest.
  - destruct (String.eqb (method_ request) "GET"); [|done].
    destruct (missing (http_query request)); [done|]. apply Hrest.
Qed.

(** X3. Whatever the request and the request processor, an error thrown
    by [runHttpQuery] is an [HttpQueryError]. *)
Theorem failures_are_http_query_errors request (w w' : World C) e :
  runHttpQuery env P request w = (Throw e, w') → is_HttpQueryError e = true.
Proof.
  intros Hrun. pose proof (runHttpQuery_outcome request w) as Hout.
  by rewrite Hrun in Hout.
Qed.

Lemma assoc_assign_header key value headers :
  assoc key (assign_header key value headers) = Some value.
Proof.
  induction headers as [|[k v] rest IH]; cbn.
  - by rewrite String.eqb_refl.
  - destruct (String.eqb_spec k key) as [->|Hne]; cbn.
    + by rewrite String.eqb_refl.
    + destruct (String.eqb_spec key k); [congruence|done].
Qed.

(** X4. Every response [runHttpQuery] returns is a serialisation followed
    by a newline, and its [Content-Length] header is the byte length of
    that text. *)
Theorem success_carries_content_length request (w w' : World C) sent :
  runHttpQuery env P request w = (Ok sent, w') →
  assoc "Content-Length" (responseInit sent)
  = Some (Buffer_byteLength env (graphqlResponse sent))
  ∧ ∃ j, graphqlResponse sent = JSON_stringify env j +:+ newline.
Proof.
  intros Hrun. pose proof (runHttpQuery_outcome request w) as Hout.
  rewrite Hrun in Hout. cbn in Hout.
  destruct Hout as (j & Hj & headers & Hh). split; [|by exists j].
  rewrite Hh. apply assoc_assign_header.
Qed.

Lemma member_batch_Ok request o isGet X (s : RunState C) :
  ∃ r s', member env P request o isGet true X s = (Ok r, s').
Proof.
  unfold member, try_catch.
  destruct (member_try env P request o isGet X s) as [[r|e] s1]; [eauto|].
  unfold member_catch, bind, in_world, emit, emits; cbn. eauto.
Qed.

Lemma all_member_batch request o isGet items (s : RunState C) :
  ∃ rs s', all (member env P request o isGet true) items s = (Ok rs, s').
Proof.
  revert s. induction items as [|X rest IH]; intros s; cbn [all].
  - by eexists _, _.
  - unfold bind at 1.
    destruct (member_batch_Ok request o isGet X s) as (r & s1 & ->).
    unfold bind at 1. destruct (IH s1) as (rs & s2 & ->). by eexists _, _.
Qed.

(** X5. A batch that passes the method check is always answered: whatever
    its members do, [runHttpQuery] returns the serialised array, one slot
    per member. *)
Theorem batch_always_answers request o isGet items (w : World C) :
  options request = inr o →
  accepted request isGet →
  http_query request = JArr items →
  ∃ slots headers w',
    runHttpQuery env P request w =
    (Ok (mkHttpQueryResponse
           (prettyJSONStringify env (JsonResponses slots)) headers),
     w')
    ∧ length slots = length items.
Proof.
  intros Ho Hacc Hpayload.
  rewrite (runHttpQuery_accepted env P request o isGet) by done.
  rewrite Hpayload. cbn [Array_isArray].
  unfold bind at 1, try_catch.
  destruct (all_member_batch request (with_default_debug env o) isGet items
              (mkRunState None w)) as (rs & s1 & Hall).
  rewrite Hall. unfold bind, read_cacheControl, respond. cbn [negb].
  eexists _, _, _. split; [reflexivity|].
  rewrite length_map. by eapply all_length.
Qed.

Lemma run_single_member_failure request o isGet e s1 (w : World C) :
  options request = inr o →
  accepted request isGet →
  Array_isArray (http_query request) = false →
  member_try env P request (with_default_debug env o) isGet
    (http_query request) (mkRunState None w) = (Throw e, s1) →
  let o' := with_default_debug env o in
  runHttpQuery env P request w =
  (Throw
     match e with
     | InvalidGraphQLRequestError msg => HttpQueryError 400 msg false None
     | PersistedQueryNotSupportedError | PersistedQueryNotFoundError =>
         HttpQueryError 200
           (prettyJSONStringify env
              (JsonErrors
                 (map Error (formatApolloErrors env [e] (format_options o')))))
           true (Some [("Content-Type", "application/json")])
     | HttpQueryError _ _ _ _ => e
     | Error _ =>
         HttpQueryError 500
           (prettyJSONStringify env
              (JsonErrors
                 (map Error (formatApolloErrors env [e] (format_options o')))))
           true (Some [("Content-Type", "application/json")])
     end,
   with_trace (trace (world s1) ++ [EvConsoleLog (log_line o')]) (world s1)).
Proof.
  intros Ho Hacc Hsingle Htry o'.
  rewrite (runHttpQuery_accepted env P request o isGet) by done.
  rewrite Hsingle.
  assert (Hpayload :
    match http_query request with JArr items => items | payload => [payload] end
    = [http_query request]) by (by destruct (http_query request)).
  rewrite Hpayload.
  unfold bind at 1, try_catch at 1, all, bind at 1, member, try_catch at 1.
  rewrite Htry.
  unfold member_catch, bind at 1, in_world, emit, emits.
  cbn [world local_cacheControl].
  by destruct e.
Qed.

(** X6. When the callback of a single request throws: an
    [InvalidGraphQLRequestError] becomes status 400 with its message, a
    persisted-query error becomes status 200 with the formatted error, and
    a plain error becomes status 500 with the formatted error; the [catch]
    block has logged one line. *)
Theorem member_failure_status request o isGet e s1 (w : World C) :
  options request = inr o →
  accepted request isGet →
  Array_isArray (http_query request) = false →
  let o' := with_default_debug env o in
  member_try env P request o' isGet (http_query request) (mkRunState None w)
  = (Throw e, s1) →
  let logged :=
    with_trace (trace (world s1) ++ [EvConsoleLog (log_line o')]) (world s1) in
  let formatted status :=
    HttpQueryError status
      (prettyJSONStringify env
         (JsonErrors
            (map Error (formatApolloErrors env [e] (format_options o')))))
      true (Some [("Content-Type", "application/json")]) in
  (∀ msg, e = InvalidGraphQLRequestError msg →
     runHttpQuery env P request w =
     (Throw (HttpQueryError 400 msg false None), logged))
  ∧ (e = PersistedQueryNotSupportedError ∨ e = PersistedQueryNotFoundError →
     runHttpQuery env P request w = (Throw (formatted 200%Z), logged))
  ∧ (∀ error, e = Error error →
     runHttpQuery env P request w = (Throw (formatted 500%Z), logged)).
Proof.
  intros Ho Hacc Hsingle o' Htry logged formatted.
  pose proof (run_single_member_failure request o isGet e s1 w Ho Hacc Hsingle
                Htry) as Hrun.
  split_and!.
  - intros msg ->. exact Hrun.
  - intros [-> | ->]; exact Hrun.
  - intros error ->. exact Hrun.
Qed.
End HttpEdges.

(** ** The coordinator: context, data sources, cache control *)
Section HttpContext.
Context {C : Type} `{KeyValueCache C}.
Variable env : Env.
Variable P :
  GraphQLRequestProcessorOptions → option WillExecuteOperation →
  ProcessorRequest → M C GraphQLResponse.

Lemma with_default_debug_context o :
  opt_context (with_default_debug env o) = opt_context o.
Proof. unfold with_default_debug. by destruct (opt_debug o). Qed.

Lemma with_default_debug_dataSources o :
  opt_dataSources (with_default_debug env o) = opt_dataSources o.
Proof. unfold with_default_debug. by destruct (opt_debug o). Qed.

Lemma with_default_debug_cacheControl o :
  opt_cacheControl (with_default_debug env o) = opt_cacheControl o.
Proof. unfold with_default_debug. by destruct (opt_debug o). Qed.

Lemma member_prepare_context_failure o isGet X e (w : World C) :
  params_ok env isGet X →
  opt_context o = ContextFunction (inl e) →
  let e' := with_message ("Context creation failed: " +:+ message e) e in
  member_prepare env o isGet X w =
  (Throw (HttpQueryError (if code_is_not_internal e then 400 else 500)
            (prettyJSONStringify env
               (JsonErrors
                  (map Error
                     (formatApolloErrors env [Error e'] (format_options o)))))
            true (Some [("Content-Type", "application/json")])),
   with_trace (trace w ++ [EvContextFunction]) w).
Proof.
  intros Hparams Hctx e'.
  destruct (member_prepare_params_ok env o isGet X w Hparams)
    as (qs & ext & op & vars & _ & _ & _ & _ & ->).
  unfold bind at 1. rewrite Hctx. unfold bind at 1, emit, emits.
  change (code_is_not_internal
            (with_message ("Context creation failed: " +:+ message e) e))
    with (code_is_not_internal e).
  by destruct (code_is_not_internal e).
Qed.

(** X7. When the context function of the options throws, a single
    request whose parameters pass their checks fails with the formatted
    error, "Context creation failed: " put before its message: status 400
    when the error carries a code other than INTERNAL_SERVER_ERROR, 500
    otherwise. The request processor is not run. *)
Theorem context_failure_status request o isGet e (w : World C) :
  options request = inr o →
  accepted request isGet →
  Array_isArray (http_query request) = false →
  params_ok env isGet (http_query request) →
  opt_context o = ContextFunction (inl e) →
  let o' := with_default_debug env o in
  let e' := with_message ("Context creation failed: " +:+ message e) e in
  runHttpQuery env P request w =
  (Throw (HttpQueryError (if code_is_not_internal e then 400 else 500)
            (prettyJSONStringify env
               (JsonErrors
                  (map Error
                     (formatApolloErrors env [Error e'] (format_options o')))))
            true (Some [("Content-Type", "application/json")])),
   with_trace (trace w ++ [EvContextFunction; EvConsoleLog (log_line o')]) w).
Proof.
  intros Ho Hacc Hsingle Hparams Hctx o' e'.
  assert (Hctx' : opt_context o' = ContextFunction (inl e))
    by (subst o'; by rewrite with_default_debug_context).
  pose proof (member_prepare_context_failure o' isGet (http_query request) e w
                Hparams Hctx') as Hprep.
  rewrite (run_single_prepare_Throw env P request o isGet _ _ w Ho Hacc Hsingle
             Hprep eq_refl).
  cbn [trace with_trace]. by rewrite <- app_assoc.
Qed.

(** X8. When data sources are configured and the context already has a
    [dataSources] key, a single request fails with status 500; the data
    sources have been initialised by then, and the request processor is
    not run. *)
Theorem context_with_dataSources_is_rejected request o isGet ctx made (w : World C) :
  options request = inr o →
  accepted request isGet →
  Array_isArray (http_query request) = false →
  params_ok env isGet (http_query request) →
  created_context o = Some ctx →
  opt_dataSources o = Some made →
  is_Some (ctx !! "dataSources") →
  let o' := with_default_debug env o in
  runHttpQuery env P request w =
  (Throw (HttpQueryError 500
            (prettyJSONStringify env
               (JsonErrors
                  (map Error
                     (formatApolloErrors env [dataSources_clash]
                        (format_options o')))))
            true (Some [("Content-Type", "application/json")])),
   with_trace (trace w ++ context_events o
               ++ initialize_events (default [] made)
               ++ [EvConsoleLog (log_line o')]) w).
Proof.
  intros Ho Hacc Hsingle Hparams Hctx Hds Hclash o'.
  destruct (member_prepare_params_ok env o' isGet (http_query request) w Hparams)
    as (qs & ext & op & vars & _ & _ & _ & _ & Hprep).
  assert (Htry :
    member_try env P request o' isGet (http_query request) (mkRunState None w)
    = (Throw dataSources_clash,
       mkRunState None
         (with_trace (trace w ++ context_events o
                      ++ initialize_events (default [] made)) w))).
  { unfold member_try, bind at 1, in_world at 1. cbn [world].
    rewrite Hprep. unfold bind at 1.
    subst o'. rewrite with_default_debug_context, with_default_debug_dataSources.
    unfold created_context in Hctx. unfold context_events.
    rewrite Hds.
    destruct (opt_context o) as [|[?|?]|?]; simplify_eq; cbn;
      rewrite bool_decide_eq_true_2 by done; cbn;
      rewrite ?app_nil_r, <- ?app_assoc; reflexivity. }
  rewrite (run_single_member_failure env P request o isGet _ _ w Ho Hacc
             Hsingle Htry).
  cbn [world trace with_trace]. by rewrite <- !app_assoc.
Qed.

(** X9. On GET, extensions that are present and do not decode make a
    single request fail with status 400, "Extensions are invalid JSON.",
    before the query is looked at. *)
Theorem get_extensions_must_be_json request o ext (w : World C) :
  options request = inr o →
  method_ request = "GET" →
  missing (http_query request) = false →
  Array_isArray (http_query request) = false →
  prop (http_query request) "extensions" = Ok ext →
  truthy ext = true →
  JSON_parse env ext = None →
  runHttpQuery env P request w =
  (Throw (HttpQueryError 400 "Extensions are invalid JSON." false None),
   with_trace (trace w ++ [EvConsoleLog (log_line (with_default_debug env o))]) w).
Proof.
  intros Ho Hm Hmissing Hsingle Hext Htruthy Hparse.
  apply (run_single_prepare_Throw env P request o true);
    [done|by split; [right|]|done| |done].
  unfold member_prepare.
  destruct (http_query request) as [| | | | |?|fields];
    try (cbn in Hext; simplify_eq; discriminate).
  cbn [prop] in *. simplify_eq.
  unfold bind at 1, lift. unfold bind at 1. unfold bind at 1.
  rewrite Htruthy. cbn [andb]. by rewrite Hparse.
Qed.

(** X10. With [cacheControl: true] the request processor is given
    [{stripFormattedExtensions: false, calculateHttpHeaders: false,
    defaultMaxAge: 0}], with [cacheControl: false] none; either way the
    result of a single request is serialised as the processor returned it,
    and the headers are [Content-Type] and [Content-Length] alone. *)
Theorem cacheControl_boolean_is_passthrough request o isGet b p w1 r w2
    (w : World C) :
  options request = inr o →
  accepted request isGet →
  Array_isArray (http_query request) = false →
  opt_cacheControl o = CacheControlBoolean b →
  let o' := with_default_debug env o in
  let cacheControl :=
    if b then Some (mkCacheControlOptions 0 false false) else None in
  member_prepare env o' isGet (http_query request) w = (Ok p, w1) →
  member_process P request o' isGet cacheControl p w1 = (Ok r, w2) →
  errors r = None ∨ data r ≠ JUndefined →
  let stringified := prettyJSONStringify env (JsonResponse r) in
  runHttpQuery env P request w =
  (Ok (mkHttpQueryResponse stringified
         [("Content-Type", "application/json");
          ("Content-Length", Buffer_byteLength env stringified)]),
   w2).
Proof.
  intros Ho Hacc Hsingle Hcc o' cacheControl Hprep Hproc Hok stringified.
  assert (Hassigned : assigned o' None = cacheControl).
  { unfold assigned, cacheControl_of. subst o'.
    rewrite with_default_debug_cacheControl, Hcc. by destruct b. }
  rewrite (runHttpQuery_accepted env P request o isGet) by done.
  rewrite Hsingle.
  assert (Hpayload :
    match http_query request with JArr items => items | payload => [payload] end
    = [http_query request]) by (by destruct (http_query request)).
  rewrite Hpayload.
  unfold bind at 1, try_catch at 1, all, bind at 1, member, try_catch at 1.
  fold o'.
  rewrite (member_try_prepared env P request o' isGet _ p w1) by done.
  rewrite Hassigned. unfold in_world. cbn [world local_cacheControl].
  rewrite Hproc. cbn [bind ret]. unfold bind, read_cacheControl, ret.
  cbn [local_cacheControl]. unfold respond. cbn [negb map].
  assert (Hstrip : strip_if cacheControl r = r).
  { subst cacheControl. by destruct b. }
  rewrite Hstrip.
  assert (Hheaders :
    match cacheControl with
    | Some cc =>
        if calculateHttpHeaders cc
        then spread_headers [("Content-Type", "application/json")]
               (calculateCacheControlHeaders env [r])
        else [("Content-Type", "application/json")]
    | None => [("Content-Type", "application/json")]
    end = [("Content-Type", "application/json")]).
  { subst cacheControl. by destruct b. }
  rewrite Hheaders.
  destruct Hok as [Hnone|Hdata].
  - rewrite Hnone. reflexivity.
  - destruct (errors r), (data r); try done.
Qed.
End HttpContext.

Section Strip.
Lemma assoc_filter_ne {A} k key (l : list (string * A)) :
  k ≠ key → assoc k (filter (λ kv, kv.1 ≠ key) l) = assoc k l.
Proof.
  intros Hne. induction l as [|[k' v] rest IH]; [done|].
  rewrite filter_cons. cbn [fst assoc].
  destruct (decide (k' ≠ key)) as [Hk|Hk]; cbn [assoc].
  - by rewrite IH.
  - apply dec_stable in Hk. subst k'.
    destruct (String.eqb_spec k key); [done|]. exact IH.
Qed.

Lemma assoc_filter_eq {A} key (l : list (string * A)) :
  assoc key (filter (λ kv, kv.1 ≠ key) l) = None.
Proof.
  induction l as [|[k' v] rest IH]; [done|].
  rewrite filter_cons. cbn [fst].
  destruct (decide (k' ≠ key)) as [Hk|Hk]; cbn [assoc]; [|done].
  destruct (String.eqb_spec key k'); [congruence|done].
Qed.

(** X11. Stripping the cache-control extension leaves [data], [errors]
    and [http] alone, removes the [cacheControl] key and no other, never
    leaves an empty [extensions] object behind, and is idempotent. *)
Theorem strip_cacheControl_spec r :
  let r' := strip_cacheControl r in
  data r' = data r
  ∧ errors r' = errors r
  ∧ resp_http r' = resp_http r
  ∧ resp_extensions r' ≠ Some []
  ∧ (resp_extensions r' ≫= assoc "cacheControl") = None
  ∧ (∀ k, k ≠ "cacheControl" →
       (resp_extensions r' ≫= assoc k) = (resp_extensions r ≫= assoc k))
  ∧ strip_cacheControl r' = r'.
Proof.
  unfold strip_cacheControl.
  destruct r as [d e [exts|] h]; cbn [data errors resp_http resp_extensions];
    [|done].
  set (kept := filter (λ kv : string * JSValue, kv.1 ≠ "cacheControl") exts).
  assert (Hk : ∀ k, k ≠ "cacheControl" → assoc k kept = assoc k exts)
    by (intros k Hne; by apply assoc_filter_ne).
  assert (Hc : assoc "cacheControl" kept = None) by apply assoc_filter_eq.
  assert (Hidem : filter (λ kv : string * JSValue, kv.1 ≠ "cacheControl") kept
                  = kept).
  { subst kept. rewrite list_filter_filter. apply list_filter_iff. tauto. }
  destruct kept as [|kv kept'] eqn:Hkept;
    cbn [length Nat.ltb Nat.leb data errors resp_http resp_extensions
         mbind option_bind].
  - split_and!; [done|done|done|done|done| |done].
    intros k Hne. by rewrite <- Hk.
  - split_and!; [done|done|done|done|done| |].
    + intros k Hne. by apply Hk.
    + by rewrite Hidem.
Qed.
End Strip.

(** ** The pipeline: what it refuses, what it leaves alone *)
Section ResolutionErrors.
Context {C : Type} `{KeyValueCache C}.
Variable env : Env.

(** X12. A request that carries a persisted-query extension fails with
    [PersistedQueryNotSupportedError] when the pipeline has no
    persisted-query cache, whatever its version, hash and query; with a
    cache, it fails with [InvalidGraphQLRequestError], "Unsupported
    persisted query version", when its version is not 1. Either way the
    cache is neither read nor written and the stages have not started. *)
Theorem persisted_queries_need_a_cache_and_version_1 config rc pq (w : World C) :
  init_ok config rc →
  extensions (request rc) ≫= persistedQuery = Some pq →
  (persistedQueries config ≫= cache = None →
   processRequest env config rc w
   = (Throw PersistedQueryNotSupportedError, init_world config w))
  ∧ (is_Some (persistedQueries config ≫= cache) →
     version pq ≠ 1%Z →
     processRequest env config rc w
     = (Throw (InvalidGraphQLRequestError "Unsupported persisted query version"),
        init_world config w)).
Proof.
  intros Hinit Hpq. rewrite (processRequest_init env) by done.
  unfold bind at 1, resolveQuery. rewrite Hpq. split.
  - by intros ->.
  - intros [ref ->] Hversion.
    destruct (Z.eqb_spec (version pq) 1); [done|]. reflexivity.
Qed.

Lemma settle_one_write (w : World C) key q c' :
  inflight w = [(key, q)] →
  cache_set (pq_cache w) key q = Ok c' →
  settle w = with_pq_cache c' (with_inflight [] w).
Proof.
  intros Hin Hset. unfold settle. rewrite Hin. cbn [foldl].
  unfold settle_one. cbn [fst snd pq_cache with_inflight]. by rewrite Hset.
Qed.

(** X13. After a registration, once the write that was left in flight
    settles and the store accepts it, the store is the one the settling of
    [cache.set] answered, on the store its call had left; nothing is in
    flight and nothing was written to the console. *)
Theorem registered_text_is_stored_once_settled config rc (w : World C) pq q c' :
  init_ok config rc →
  extensions (request rc) ≫= persistedQuery = Some pq →
  is_Some (persistedQueries config ≫= cache) →
  version pq = 1%Z →
  query (request rc) = Some q →
  sha256_hex env q = sha256Hash pq →
  inflight w = [] →
  let key := "apq:" +:+ sha256Hash pq in
  cache_set (cache_set_call (pq_cache w) key q) key q = Ok c' →
  let w1 := settle (snd (processRequest env config rc w)) in
  pq_cache w1 = c' ∧ inflight w1 = [] ∧ console w1 = console w.
Proof.
  intros Hinit Hpq Hcache Hversion Hquery Hhash Hnone key Hset w1.
  assert (Hout : same_store
            (with_inflight [(key, q)]
               (with_pq_cache (cache_set_call (pq_cache w) key q) w))
            (snd (processRequest env config rc w))).
  { rewrite (processRequest_init env) by done.
    unfold bind at 1.
    rewrite (resolveQuery_register env config _ _ pq q) by done.
    match goal with
    | |- same_store _ (snd (runStages ?e ?c ?d ?st ?r ?rq ?ww)) =>
        pose proof (frame_runStages e c d st r rq ww) as (Hc & Hi & Hl)
    end.
    destruct (init_world_same_store config w) as (Hc' & Hi' & Hl').
    split_and!; [rewrite Hc|rewrite Hi|rewrite Hl];
      cbn [pq_cache inflight console with_trace with_inflight with_pq_cache];
      rewrite ?Hc', ?Hi', ?Hl', ?Hnone; done. }
  destruct Hout as (Hc & Hi & Hl).
  cbn [pq_cache inflight console with_inflight with_pq_cache] in *.
  subst w1. rewrite (settle_one_write _ key q c') by (by rewrite ?Hc).
  cbn [pq_cache inflight console with_pq_cache with_inflight]. by rewrite Hl.
Qed.

(** X14. Without a persisted-query extension, a request whose query is
    absent or empty fails with [InvalidGraphQLRequestError], "Must provide
    query string."; the stages have not started. *)
Theorem query_string_is_required config rc (w : World C) :
  init_ok config rc →
  extensions (request rc) ≫= persistedQuery = None →
  query (request rc) = None ∨ query (request rc) = Some EmptyString →
  processRequest env config rc w
  = (Throw (InvalidGraphQLRequestError "Must provide query string."),
     init_world config w).
Proof.
  intros Hinit Hpq Hquery. rewrite (processRequest_init env) by done.
  unfold bind at 1, resolveQuery. rewrite Hpq.
  by destruct Hquery as [-> | ->].
Qed.

(** X15. When data sources are configured and the context already has a
    [dataSources] key, [processRequest] throws; every data source that has
    an [initialize] has been initialised by then, and neither the
    persisted-query block nor the stages are reached. *)
Theorem dataSources_on_context_is_rejected config rc sources (w : World C) :
  dataSources config = Some sources →
  is_Some (context rc !! "dataSources") →
  processRequest env config rc w
  = (Throw dataSources_clash,
     with_trace (trace w ++ initialize_events sources) (with_ext_calls [] w)).
Proof.
  intros Hds Hclash.
  unfold processRequest, initializeExtensionStack, bind at 1.
  unfold bind at 1, initializeDataSources. rewrite Hds.
  unfold bind at 1, emits. cbn [context set_context].
  rewrite lookup_insert_ne by done.
  by rewrite bool_decide_eq_true_2.
Qed.



End ResolutionErrors.

(** ** The pipeline: the four ways through the stages *)
Section Paths.
Context {C : Type} `{KeyValueCache C}.
Variable env : Env.

Lemma resolveQuery_ext_calls config request (w : World C) :
  ext_calls (snd (resolveQuery env config request w)) = ext_calls w.
Proof.
  unfold resolveQuery, bind, cache_get_await, cache_set_detached, throw, ret.
  repeat (match goal with
          | |- context [match ?x with _ => _ end] => destruct x
          end; cbn [snd ext_calls with_trace with_inflight]); done.
Qed.

Lemma runs_ext_calls {A} (m : M C A) w r xs es :
  runs m w r xs es → ext_calls (snd (m w)) = ext_calls w ++ xs.
Proof. unfold runs. by intros ->. Qed.

Lemma runStages_syntax_error config d stack rc rq syntaxError (w : World C) :
  quiet d →
  graphql_parse env (resolved_query rq) = Throw syntaxError →
  let response :=
    response_of (Some [fromGraphQLError env syntaxError (Some SyntaxError)]) in
  let before := parsed_calls rc rq in
  ∃ es,
    runs (runStages env config d stack rc rq) w
      (sent_after env stack rc (ext_calls w ++ before) response)
      (calls_after rc before response) es.
Proof.
  intros Hq Hparse response before. unfold runStages.
  eexists. eapply runs_eq_result.
  - eapply runs_bind; [apply runs_ext|].
    eapply runs_bind; [by apply (runs_invokeDidStart)|].
    eapply runs_try_finally; [|apply runs_ext].
    apply runs_bind_inr.
    eapply runs_try_catch_Throw.
    + eapply runs_bind_Throw. rewrite <- Hparse. apply (runs_parse env).
    + eapply runs_bind; [apply runs_emits|].
      apply runs_fmap. by apply (runs_sendResponse_either env).
  - reflexivity.
  - reflexivity.
  - unfold sent_after. cbn [ext_calls extend with_trace with_ext_calls].
    by rewrite <- !app_assoc.
Qed.

Lemma runStages_validation_errors config d stack rc rq doc validationErrors
    (w : World C) :
  quiet d →
  graphql_parse env (resolved_query rq) = Ok doc →
  graphql_validate env doc = Ok validationErrors →
  validationErrors ≠ [] →
  let response :=
    response_of
      (Some (map (λ validationError,
                    fromGraphQLError env (Error validationError)
                      (Some ValidationError))
                 validationErrors)) in
  let before := validated_calls rc rq in
  ∃ es,
    runs (runStages env config d stack rc rq) w
      (sent_after env stack rc (ext_calls w ++ before) response)
      (calls_after rc before response) es.
Proof.
  intros Hq Hparse Hvalidate Hne response before. unfold runStages.
  assert (Hlen : (0 <? length validationErrors)%nat = true)
    by (by destruct validationErrors).
  eexists. eapply runs_eq_result.
  - eapply runs_bind; [apply runs_ext|].
    eapply runs_bind; [by apply (runs_invokeDidStart)|].
    eapply runs_try_finally; [|apply runs_ext].
    eapply runs_bind.
    { eapply runs_try_catch_Ok.
      eapply runs_bind; [rewrite <- Hparse; apply (runs_parse env)|].
      eapply runs_bind; [apply runs_emits|]. apply runs_ret. }
    cbv beta iota.
    eapply runs_bind; [by apply runs_invokeDidStart|].
    eapply runs_bind;
      [eapply runs_eq_result;
         [apply (runs_validate env)|done|done|exact Hvalidate]|].
    rewrite Hlen.
    eapply runs_bind; [apply runs_emits|].
    by apply (runs_sendResponse_either env).
  - reflexivity.
  - reflexivity.
  - unfold sent_after. cbn [ext_calls extend with_trace with_ext_calls].
    by rewrite <- !app_assoc.
Qed.

Lemma runStages_execution_error config d stack rc rq doc executionError
    (w : World C) :
  quiet d →
  graphql_parse env (resolved_query rq) = Ok doc →
  graphql_validate env doc = Ok [] →
  graphql_execute env (executionArgs_of rc doc) = Throw executionError →
  let response :=
    response_of (Some [fromGraphQLError env executionError None]) in
  let before := executed_calls rc rq doc in
  ∃ es,
    runs (runStages env config d stack rc rq) w
      (sent_after env stack rc (ext_calls w ++ before) response)
      (calls_after rc before response) es.
Proof.
  intros Hq Hparse Hvalidate Hexecute response before. unfold runStages.
  eexists. eapply runs_eq_result.
  - eapply runs_bind; [apply runs_ext|].
    eapply runs_bind; [by apply (runs_invokeDidStart)|].
    eapply runs_try_finally; [|apply runs_ext].
    eapply runs_bind.
    { eapply runs_try_catch_Ok.
      eapply runs_bind; [rewrite <- Hparse; apply (runs_parse env)|].
      eapply runs_bind; [apply runs_emits|]. apply runs_ret. }
    cbv beta iota.
    eapply runs_bind; [by apply runs_invokeDidStart|].
    eapply runs_bind;
      [eapply runs_eq_result;
         [apply (runs_validate env)|done|done|exact Hvalidate]|].
    cbn [length Nat.ltb Nat.leb].
    eapply runs_bind; [apply runs_emits|].
    eapply runs_bind; [by apply runs_invokeAsync|].
    eapply runs_bind; [by apply runs_invokeDidStart|].
    apply runs_bind_inr.
    eapply runs_try_catch_Throw.
    + eapply runs_bind_Throw.
      eapply runs_eq_result; [apply (runs_execute env)|done|done|].
      exact Hexecute.
    + eapply runs_bind; [apply runs_emits|].
      apply runs_fmap. by apply (runs_sendResponse_either env).
  - reflexivity.
  - reflexivity.
  - unfold sent_after. cbn [ext_calls extend with_trace with_ext_calls].
    by rewrite <- !app_assoc.
Qed.

(** The stages up to the end of a successful execution. *)
Ltac through_execution Hq Hparse Hvalidate Hexecute :=
  eapply runs_bind; [apply runs_ext|];
  eapply runs_bind; [by apply (runs_invokeDidStart)|];
  eapply runs_try_finally; [|apply runs_ext];
  eapply runs_bind;
    [ eapply runs_try_catch_Ok;
      eapply runs_bind; [rewrite <- Hparse; apply (runs_parse env)|];
      eapply runs_bind; [apply runs_emits|]; apply runs_ret |];
  cbv beta iota;
  eapply runs_bind; [by apply runs_invokeDidStart|];
  eapply runs_bind;
    [eapply runs_eq_result;
       [apply (runs_validate env)|done|done|exact Hvalidate]|];
  cbn [length Nat.ltb Nat.leb];
  eapply runs_bind; [apply runs_emits|];
  eapply runs_bind; [by apply runs_invokeAsync|];
  eapply runs_bind; [by apply runs_invokeDidStart|];
  eapply runs_bind;
    [ eapply runs_try_catch_Ok;
      eapply runs_bind;
        [eapply runs_eq_result;
           [apply (runs_execute env)|done|done|exact Hexecute]|];
      eapply runs_bind; [apply runs_emits|]; apply runs_ret |];
  cbv beta iota;
  eapply runs_bind; [apply runs_get_ext_calls|];
  eapply runs_bind; [apply runs_ext|].

(** The calls made before, in the shape [executed_calls] has. *)
Ltac executed_calls_shape :=
  unfold executed_calls, validated_calls, parsed_calls, executionArgs_of;
  cbn [ext_calls extend with_trace with_ext_calls app context rc_response
       request set_operation set_document];
  rewrite <- ?app_assoc; cbn [app].

Lemma runStages_executed config d stack rc rq doc result formatted
    (w : World C) :
  quiet d →
  graphql_parse env (resolved_query rq) = Ok doc →
  graphql_validate env doc = Ok [] →
  graphql_execute env (executionArgs_of rc doc) = Ok result →
  let executed := executed_calls rc rq doc in
  formatted_response env config stack rc (ext_calls w ++ executed) result
  = Ok formatted →
  let before := executed ++ [XFormat] in
  ∃ es,
    runs (runStages env config d stack rc rq) w
      (sent_after env stack rc (ext_calls w ++ before) formatted)
      (calls_after rc before formatted) es.
Proof.
  intros Hq Hparse Hvalidate Hexecute executed Hformatted before.
  subst before executed. unfold formatted_response in Hformatted.
  revert Hformatted. executed_calls_shape. intros Hformatted.
  destruct (stack_format env stack _) as [formattedExtensions|] eqn:Hformat;
    [|done].
  unfold runStages.
  destruct (formatResponse config) as [format|] eqn:HformatResponse;
    (eexists; eapply runs_eq_result;
     [ through_execution Hq Hparse Hvalidate Hexecute;
       eapply runs_bind;
         [eapply runs_eq_result;
            [apply runs_lift|done|done
            |executed_calls_shape; exact Hformat]|];
       eapply runs_bind;
         [first
            [ apply runs_ret
            | eapply runs_eq_result;
                [apply runs_lift|done|done
                |destruct formattedExtensions; exact Hformatted] ]|];
       by apply (runs_sendResponse_either env)
     | unfold calls_after; executed_calls_shape;
       destruct formattedExtensions; by simplify_eq
     | reflexivity
     | unfold sent_after; executed_calls_shape;
       destruct formattedExtensions; by simplify_eq ]).
Qed.

(** When the stack's [format] or [formatResponse] throws. *)
Lemma runStages_format_throws config d stack rc rq doc result e (w : World C) :
  quiet d →
  graphql_parse env (resolved_query rq) = Ok doc →
  graphql_validate env doc = Ok [] →
  graphql_execute env (executionArgs_of rc doc) = Ok result →
  let executed := executed_calls rc rq doc in
  formatted_response env config stack rc (ext_calls w ++ executed) result
  = Throw e →
  ∃ es,
    runs (runStages env config d stack rc rq) w (Throw e)
      (executed ++ [XFormat; XRequestDidEnd]) es.
Proof.
  intros Hq Hparse Hvalidate Hexecute executed Hformatted.
  subst executed. unfold formatted_response in Hformatted.
  revert Hformatted. executed_calls_shape. intros Hformatted.
  unfold runStages.
  destruct (stack_format env stack _) as [formattedExtensions|e'] eqn:Hformat.
  - destruct (formatResponse config) as [format|] eqn:HformatResponse; [|done].
    eexists. eapply runs_eq.
    + through_execution Hq Hparse Hvalidate Hexecute.
      eapply runs_bind;
        [eapply runs_eq_result;
           [apply runs_lift|done|done|executed_calls_shape; exact Hformat]|].
      apply runs_bind_Throw.
      eapply runs_eq_result;
        [apply runs_lift|done|done
        |destruct formattedExtensions; exact Hformatted].
    + executed_calls_shape. reflexivity.
    + reflexivity.
  - simplify_eq. eexists. eapply runs_eq.
    + through_execution Hq Hparse Hvalidate Hexecute.
      apply runs_bind_Throw.
      eapply runs_eq_result;
        [apply runs_lift|done|done|executed_calls_shape; exact Hformat].
    + executed_calls_shape. reflexivity.
    + reflexivity.
Qed.

Lemma processRequest_resolved config rc rq (w : World C) :
  init_ok config rc →
  fst (resolveQuery env config (request rc) w) = Ok rq →
  ∃ w1,
    ext_calls w1 = []
    ∧ processRequest env config rc w
      = runStages env config (new_Dispatcher (requestListeners_of config rc))
          (extensionStack_of env config) (initialized config rc) rq w1.
Proof.
  intros Hinit Hresolve.
  rewrite (processRequest_init env) by done.
  pose proof (resolveQuery_ext_calls config (request rc) (init_world config w))
    as Hcalls.
  pose proof (resolveQuery_cache_only env config (request rc)
                (init_world config w) w (init_world_pq_cache config w)) as Hfst.
  rewrite Hresolve in Hfst.
  destruct (resolveQuery env config (request rc) (init_world config w))
    as [r w1] eqn:Hr.
  cbn [fst snd] in *. subst r. exists w1. split.
  - by rewrite Hcalls, init_world_ext_calls.
  - by rewrite (bind_Ok _ _ _ _ _ Hr).
Qed.

(** X17. When parsing fails (and no listener hook throws), the outcome
    is what the stack's [willSendResponse] makes of the syntax error
    converted with class [SyntaxError], [formatResponse] is not applied,
    and the extension stack has seen the request opened, the parsing,
    [willSendResponse] and the request closed: neither validation nor
    execution. *)
Theorem syntax_error_is_answered config rc rq syntaxError (w : World C) :
  init_ok config rc →
  quiet (new_Dispatcher (requestListeners_of config rc)) →
  fst (resolveQuery env config (request rc) w) = Ok rq →
  graphql_parse env (resolved_query rq) = Throw syntaxError →
  let rc' := initialized config rc in
  let response :=
    response_of (Some [fromGraphQLError env syntaxError (Some SyntaxError)]) in
  let out := processRequest env config rc w in
  fst out
  = sent_after env (extensionStack_of env config) rc' (parsed_calls rc' rq)
      response
  ∧ ext_calls (snd out) = calls_after rc' (parsed_calls rc' rq) response.
Proof.
  intros Hinit Hquiet Hresolve Hparse. cbv zeta.
  destruct (processRequest_resolved config rc rq w Hinit Hresolve)
    as (w1 & Hcalls & ->).
  destruct (runStages_syntax_error config _ (extensionStack_of env config)
              (initialized config rc) rq syntaxError w1 Hquiet Hparse)
    as (es & Hruns).
  rewrite Hcalls in Hruns. cbn [app] in Hruns.
  unfold runs in Hruns. rewrite Hruns.
  cbn [fst snd ext_calls extend with_trace with_ext_calls].
  by rewrite Hcalls.
Qed.

(** X18. When validation reports errors (and no listener hook throws),
    the response handed to the stack's [willSendResponse] carries each of
    them converted with class [ValidationError], in order, and the
    extension stack has seen no execution. *)
Theorem validation_errors_are_answered config rc rq doc validationErrors
    (w : World C) :
  init_ok config rc →
  quiet (new_Dispatcher (requestListeners_of config rc)) →
  fst (resolveQuery env config (request rc) w) = Ok rq →
  graphql_parse env (resolved_query rq) = Ok doc →
  graphql_validate env doc = Ok validationErrors →
  validationErrors ≠ [] →
  let rc' := initialized config rc in
  let response :=
    response_of
      (Some (map (λ validationError,
                    fromGraphQLError env (Error validationError)
                      (Some ValidationError))
                 validationErrors)) in
  let out := processRequest env config rc w in
  fst out
  = sent_after env (extensionStack_of env config) rc' (validated_calls rc' rq)
      response
  ∧ ext_calls (snd out) = calls_after rc' (validated_calls rc' rq) response.
Proof.
  intros Hinit Hquiet Hresolve Hparse Hvalidate Hne. cbv zeta.
  destruct (processRequest_resolved config rc rq w Hinit Hresolve)
    as (w1 & Hcalls & ->).
  destruct (runStages_validation_errors config _ (extensionStack_of env config)
              (initialized config rc) rq doc validationErrors w1 Hquiet Hparse
              Hvalidate Hne)
    as (es & Hruns).
  rewrite Hcalls in Hruns. cbn [app] in Hruns.
  unfold runs in Hruns. rewrite Hruns.
  cbn [fst snd ext_calls extend with_trace with_ext_calls].
  by rewrite Hcalls.
Qed.

(** X19. When graphql-js's [execute] throws (and no listener hook
    throws), the response handed to the stack's [willSendResponse] carries
    the error converted without a class, and the extension stack has seen
    the execution ended before [willSendResponse]. *)
Theorem execution_error_is_answered config rc rq doc executionError
    (w : World C) :
  init_ok config rc →
  quiet (new_Dispatcher (requestListeners_of config rc)) →
  fst (resolveQuery env config (request rc) w) = Ok rq →
  graphql_parse env (resolved_query rq) = Ok doc →
  graphql_validate env doc = Ok [] →
  graphql_execute env (executionArgs_of (initialized config rc) doc)
  = Throw executionError →
  let rc' := initialized config rc in
  let response :=
    response_of (Some [fromGraphQLError env executionError None]) in
  let out := processRequest env config rc w in
  fst out
  = sent_after env (extensionStack_of env config) rc'
      (executed_calls rc' rq doc) response
  ∧ ext_calls (snd out) = calls_after rc' (executed_calls rc' rq doc) response.
Proof.
  intros Hinit Hquiet Hresolve Hparse Hvalidate Hexecute. cbv zeta.
  destruct (processRequest_resolved config rc rq w Hinit Hresolve)
    as (w1 & Hcalls & ->).
  destruct (runStages_execution_error config _ (extensionStack_of env config)
              (initialized config rc) rq doc executionError w1 Hquiet Hparse
              Hvalidate Hexecute) as (es & Hruns).
  rewrite Hcalls in Hruns. cbn [app] in Hruns.
  unfold runs in Hruns. rewrite Hruns.
  cbn [fst snd ext_calls extend with_trace with_ext_calls].
  by rewrite Hcalls.
Qed.

(** X20. When execution returns (and no listener hook throws): if the
    stack's [format] and [formatResponse] return, the outcome is the
    result with the formatted extensions when there are any, passed
    through [formatResponse], then through the stack's [willSendResponse],
    and the stack has seen, in this order, the request opened, parsing,
    validation, execution, [format], [willSendResponse] and the request
    closed; if one of the two throws, [processRequest] throws the same and
    the stack has seen [format] and the request closed, no
    [willSendResponse]. *)
Theorem executed_result_is_formatted_then_sent config rc rq doc result
    (w : World C) :
  init_ok config rc →
  quiet (new_Dispatcher (requestListeners_of config rc)) →
  fst (resolveQuery env config (request rc) w) = Ok rq →
  graphql_parse env (resolved_query rq) = Ok doc →
  graphql_validate env doc = Ok [] →
  graphql_execute env (executionArgs_of (initialized config rc) doc)
  = Ok result →
  let rc' := initialized config rc in
  let stack := extensionStack_of env config in
  let executed := executed_calls rc' rq doc in
  let response := formatted_response env config stack rc' executed result in
  let out := processRequest env config rc w in
  (∀ formatted,
     response = Ok formatted →
     fst out = sent_after env stack rc' (executed ++ [XFormat]) formatted
     ∧ ext_calls (snd out) = calls_after rc' (executed ++ [XFormat]) formatted)
  ∧ (∀ e,
       response = Throw e →
       fst out = Throw e
       ∧ ext_calls (snd out) = executed ++ [XFormat; XRequestDidEnd]).
Proof.
  intros Hinit Hquiet Hresolve Hparse Hvalidate Hexecute. cbv zeta.
  destruct (processRequest_resolved config rc rq w Hinit Hresolve)
    as (w1 & Hcalls & ->).
  split.
  - intros formatted Hformatted.
    destruct (runStages_executed config _ (extensionStack_of env config)
                (initialized config rc) rq doc result formatted w1 Hquiet
                Hparse Hvalidate Hexecute) as (es & Hruns).
    { by rewrite Hcalls. }
    rewrite Hcalls in Hruns. cbn [app] in Hruns.
    unfold runs in Hruns. rewrite Hruns.
    cbn [fst snd ext_calls extend with_trace with_ext_calls].
    by rewrite Hcalls.
  - intros e Hformatted.
    destruct (runStages_format_throws config _ (extensionStack_of env config)
                (initialized config rc) rq doc result e w1 Hquiet
                Hparse Hvalidate Hexecute) as (es & Hruns).
    { by rewrite Hcalls. }
    unfold runs in Hruns. rewrite Hruns.
    cbn [fst snd ext_calls extend with_trace with_ext_calls].
    by rewrite Hcalls.
Qed.
End Paths.

(** ** The pipeline: what is opened is closed *)
Section Closing.
Context {C : Type} `{KeyValueCache C}.
Variable env : Env.

Lemma appends_ret {A} (a : A) : appends (C:=C) (ret a).
Proof. intros w. exists []. by rewrite app_nil_r. Qed.
Lemma appends_throw {A} e : appends (C:=C) (@throw _ A e).
Proof. intros w. exists []. by rewrite app_nil_r. Qed.
Lemma appends_lift {A} (r : Res A) : appends (C:=C) (lift r).
Proof. intros w. exists []. by rewrite app_nil_r. Qed.
Lemma appends_emits es : appends (C:=C) (emits es).
Proof. intros w. exists []. by rewrite app_nil_r. Qed.
Lemma appends_emit e : appends (C:=C) (emit e).
Proof. apply appends_emits. Qed.
Lemma appends_ext c : appends (C:=C) (ext c).
Proof. intros w. by exists [c]. Qed.
Lemma appends_get_ext_calls : appends (C:=C) get_ext_calls.
Proof. intros w. exists []. by rewrite app_nil_r. Qed.

Lemma appends_bind {A B} (m : M C A) (k : A → M C B) :
  appends m → (∀ a, appends (k a)) → appends (bind m k).
Proof.
  intros Hm Hk w. unfold bind. destruct (Hm w) as [xs Hxs].
  destruct (m w) as [[a|e] w1]; cbn [snd] in *; [|eauto].
  destruct (Hk a w1) as [xs' Hxs']. exists (xs ++ xs').
  by rewrite Hxs', Hxs, app_assoc.
Qed.

Lemma appends_try_catch {A} (m : M C A) (h : Exn → M C A) :
  appends m → (∀ e, appends (h e)) → appends (try_catch m h).
Proof.
  intros Hm Hh w. unfold try_catch. destruct (Hm w) as [xs Hxs].
  destruct (m w) as [[a|e] w1]; cbn [snd] in *; [eauto|].
  destruct (Hh e w1) as [xs' Hxs']. exists (xs ++ xs').
  by rewrite Hxs', Hxs, app_assoc.
Qed.

(** [try { m } finally { ext c }]: whatever [m] does, [c] is the last
    call. *)
Lemma try_finally_ext {A} (m : M C A) c :
  appends m →
  ∀ w, ∃ xs, ext_calls (snd (try_finally m (ext c) w)) = ext_calls w ++ xs ++ [c].
Proof.
  intros Hm w. unfold try_finally. destruct (Hm w) as [xs Hxs].
  destruct (m w) as [r w1]. cbn [snd ext ext_calls with_trace with_ext_calls] in *.
  exists xs. by rewrite Hxs, app_assoc.
Qed.

Lemma appends_invokeAsync d h rc : appends (C:=C) (invokeAsync d h rc).
Proof.
  induction d as [|[i l] rest IH]; cbn [invokeAsync]; [apply appends_ret|].
  destruct (method l h); [|done].
  apply appends_bind; [apply appends_emit|intros _].
  apply appends_bind; [apply appends_lift|intros _]. done.
Qed.

Lemma appends_invokeDidStart d h rc : appends (C:=C) (invokeDidStart d h rc).
Proof.
  induction d as [|[i l] rest IH]; cbn [invokeDidStart]; [apply appends_ret|].
  destruct (method l h); [|done].
  apply appends_bind; [apply appends_emit|intros _].
  apply appends_bind; [apply appends_lift|intros b].
  apply appends_bind; [done|intros ends]. apply appends_ret.
Qed.

Lemma appends_try_finally {A} (m : M C A) (f : M C unit) :
  appends m → appends f → appends (try_finally m f).
Proof.
  intros Hm Hf w. unfold try_finally. destruct (Hm w) as [xs Hxs].
  destruct (m w) as [r w1]. cbn [snd] in *.
  destruct (Hf w1) as [xs' Hxs'].
  destruct (f w1) as [[a|e] w2]; cbn [snd] in *;
    exists (xs ++ xs'); by rewrite Hxs', Hxs, app_assoc.
Qed.

Lemma appends_sendResponse d stack rc r :
  appends (C:=C) (sendResponse env d stack rc r).
Proof.
  unfold sendResponse.
  apply appends_bind; [apply appends_get_ext_calls|intros calls].
  apply appends_bind; [apply appends_ext|intros _].
  apply appends_bind; [apply appends_lift|intros sent].
  apply appends_bind; [apply appends_invokeAsync|intros _]. apply appends_ret.
Qed.

Lemma invokeDidStart_returns d h rc (w : World C) :
  hooks_return d h rc →
  ∃ ends es, runs (invokeDidStart d h rc) w (Ok ends) [] es.
Proof.
  revert w. induction d as [|[i l] rest IH]; intros w Hq; cbn [invokeDidStart].
  - eexists _, _. apply runs_ret.
  - assert (Hrest : hooks_return rest h rc)
      by (intros ? ? ? Hin; eapply Hq; by right).
    destruct (method l h) as [hook|] eqn:Hm; [|by apply IH].
    destruct (Hq i l hook) as [b Hb]; [by left|done|].
    rewrite Hb.
    destruct (IH (extend [] [] (extend [] [EvHook i h] w)) Hrest)
      as (ends & es & Hends).
    eexists _, _.
    eapply runs_eq.
    + eapply runs_bind; [apply runs_emit|].
      eapply runs_bind; [apply runs_lift|].
      eapply runs_bind; [exact Hends|]. apply runs_ret.
    + reflexivity.
    + reflexivity.
Qed.

Lemma appends_parse q : appends (C:=C) (parse env q).
Proof.
  unfold parse. apply appends_bind; [apply appends_ext|intros _].
  apply appends_try_finally; [|apply appends_ext].
  apply appends_bind; [apply appends_emit|intros _]. apply appends_lift.
Qed.

Lemma appends_validate doc : appends (C:=C) (validate env doc).
Proof.
  unfold validate. apply appends_bind; [apply appends_ext|intros _].
  apply appends_try_finally; [|apply appends_ext].
  apply appends_bind; [apply appends_emit|intros _]. apply appends_lift.
Qed.

Lemma appends_execute rc doc n v : appends (C:=C) (execute env rc doc n v).
Proof.
  unfold execute. apply appends_bind; [apply appends_ext|intros _].
  apply appends_try_finally; [|apply appends_ext].
  apply appends_bind; [apply appends_emit|intros _]. apply appends_lift.
Qed.

Lemma runStages_closed config d stack rc rq (w : World C) :
  hooks_return d parsingDidStart rc →
  ∃ calls,
    ext_calls (snd (runStages env config d stack rc rq w))
    = ext_calls w
      ++ XRequestDidStart (requestDidStart_args rc rq) :: calls
      ++ [XRequestDidEnd].
Proof.
  intros Hreturn. unfold runStages. rewrite bind_ext.
  match goal with
  | |- context [bind (invokeDidStart d parsingDidStart rc) ?k ?w0] =>
      destruct (invokeDidStart_returns d parsingDidStart rc w0 Hreturn)
        as (ends & es & Hruns);
      unfold runs in Hruns; rewrite (bind_Ok _ k w0 _ _ Hruns)
  end.
  match goal with
  | |- context [try_finally ?m (ext XRequestDidEnd) ?w1] =>
      destruct (try_finally_ext m XRequestDidEnd) with (w := w1) as [xs Hxs]
  end.
  { unfold didEnd.
    repeat first
      [ apply appends_ret | apply appends_ext | apply appends_emit
      | apply appends_emits | apply appends_lift | apply appends_get_ext_calls
      | apply appends_invokeAsync | apply appends_invokeDidStart
      | apply appends_sendResponse | apply appends_parse
      | apply appends_validate | apply appends_execute
      | apply appends_try_catch | apply appends_bind
      | match goal with
        | |- ∀ _ : _ + _, _ => intros [?|?]
        | |- ∀ _, _ => intro
        | |- appends (if ?b then _ else _) => destruct b
        | |- appends (match ?o with Some _ => _ | None => _ end) =>
            destruct o
        end ]. }
  exists xs. rewrite Hxs.
  cbn [ext_calls extend with_trace with_ext_calls].
  by rewrite app_nil_r, <- app_assoc.
Qed.

Lemma invokeDidStart_throws d h rc (w : World C) i l hook e :
  (i, l) ∈ d → method l h = Some hook → hook rc = Throw e →
  ∃ e' es, runs (invokeDidStart d h rc) w (Throw e') [] es.
Proof.
  revert w. induction d as [|[i0 l0] rest IH]; intros w Hin Hm He;
    [by apply elem_of_nil in Hin|].
  cbn [invokeDidStart].
  assert (Hrest : (i0, l0) = (i, l) ∨ (i, l) ∈ rest).
  { apply elem_of_cons in Hin as [->|Hin]; [by left|by right]. }
  destruct (method l0 h) as [hook0|] eqn:Hm0.
  - destruct (hook0 rc) as [b|e0] eqn:Hb.
    + destruct Hrest as [Heq|Hin']; [injection Heq as -> ->; congruence|].
      destruct (IH (extend [] [] (extend [] [EvHook i0 h] w)) Hin' Hm He)
        as (e' & es & Hthrows).
      eexists _, _. eapply runs_eq.
      * eapply runs_bind; [apply runs_emit|].
        eapply runs_bind; [apply runs_lift|].
        apply runs_bind_Throw. exact Hthrows.
      * reflexivity.
      * reflexivity.
    + eexists _, _. eapply runs_eq.
      * eapply runs_bind; [apply runs_emit|].
        apply runs_bind_Throw. apply runs_lift.
      * reflexivity.
      * reflexivity.
  - destruct Hrest as [Heq|Hin']; [injection Heq as -> ->; congruence|].
    by apply IH.
Qed.

Lemma runStages_left_open config d stack rc rq (w : World C) i l hook e :
  (i, l) ∈ d → method l parsingDidStart = Some hook → hook rc = Throw e →
  (∃ e', fst (runStages env config d stack rc rq w) = Throw e')
  ∧ ext_calls (snd (runStages env config d stack rc rq w))
    = ext_calls w ++ [XRequestDidStart (requestDidStart_args rc rq)].
Proof.
  intros Hin Hm He. unfold runStages. rewrite bind_ext.
  match goal with
  | |- context [bind (invokeDidStart d parsingDidStart rc) ?k ?w0] =>
      destruct (invokeDidStart_throws d parsingDidStart rc w0 i l hook e
                  Hin Hm He) as (e' & es & Hruns);
      unfold runs in Hruns; rewrite (bind_Throw _ k w0 _ _ Hruns)
  end.
  split; [by exists e'|].
  cbn [snd ext_calls extend with_trace with_ext_calls].
  by rewrite app_nil_r.
Qed.

(** X21. Once the query is resolved the extension stack is told that the
    request started. When the [parsingDidStart] hooks return, the last
    call on the stack is [requestDidEnd], whatever throws afterwards and
    whether [processRequest] returns or throws. When one of them throws,
    [processRequest] throws and the start of the request is the only call:
    the request is never closed. *)
Theorem request_is_closed_unless_parsingDidStart_throws
    config rc rq (w : World C) :
  init_ok config rc →
  fst (resolveQuery env config (request rc) w) = Ok rq →
  let d := new_Dispatcher (requestListeners_of config rc) in
  let rc' := initialized config rc in
  let out := processRequest env config rc w in
  let opened := XRequestDidStart (requestDidStart_args rc' rq) in
  (hooks_return d parsingDidStart rc' →
   ∃ calls, ext_calls (snd out) = opened :: calls ++ [XRequestDidEnd])
  ∧ (∀ i l hook e,
       (i, l) ∈ d → method l parsingDidStart = Some hook →
       hook rc' = Throw e →
       (∃ e', fst out = Throw e') ∧ ext_calls (snd out) = [opened]).
Proof.
  intros Hinit Hresolve. cbv zeta.
  destruct (processRequest_resolved env config rc rq w Hinit Hresolve)
    as (w1 & Hcalls & ->).
  split.
  - intros Hreturn.
    destruct (runStages_closed config
                (new_Dispatcher (requestListeners_of config rc))
                (extensionStack_of env config) (initialized config rc) rq w1
                Hreturn) as [calls Hclosed].
    exists calls. by rewrite Hclosed, Hcalls.
  - intros i l hook e Hin Hm He.
    destruct (runStages_left_open config
                (new_Dispatcher (requestListeners_of config rc))
                (extensionStack_of env config) (initialized config rc) rq w1
                i l hook e Hin Hm He) as [Hthrows Hopen].
    split; [exact Hthrows|]. by rewrite Hopen, Hcalls.
Qed.

End Closing.

(** ** The service id *)
Section SplitProperties.
Variable sep : Ascii.ascii.

Lemma split_pieces s : Forall (λ piece, occurs sep piece = false) (split sep s).
Proof.
  induction s as [|c rest IH]; cbn [split]; [by repeat constructor|].
  destruct (Ascii.eqb_spec c sep) as [->|Hne].
  - by constructor.
  - destruct (split sep rest) as [|p ps]; [repeat constructor|].
    + cbn. by destruct (Ascii.eqb_spec c sep).
    + inversion IH; subst. constructor; [|done].
      cbn. by destruct (Ascii.eqb_spec c sep).
Qed.

Lemma split_prefix a b :
  occurs sep a = false → split sep (a +:+ String sep b) = a :: split sep b.
Proof.
  induction a as [|c rest IH].
  - intros _. change (EmptyString +:+ String sep b) with (String sep b).
    cbn [split]. by rewrite Ascii.eqb_refl.
  - change (String c rest +:+ String sep b)
      with (String c (rest +:+ String sep b)).
    cbn [split occurs].
    intros [Hc Hrest]%orb_false_iff. rewrite Hc. by rewrite IH.
Qed.

End SplitProperties.

Section EngineProperties.
Lemma second_piece prefix id rest :
  occurs colon prefix = false →
  occurs colon id = false →
  take 2 (split colon (prefix +:+ ":" +:+ id +:+ ":" +:+ rest)) !! 1%nat
  = Some id.
Proof.
  intros Hp Hid.
  change (":" +:+ id +:+ ":" +:+ rest) with (String colon (id +:+ String colon rest)).
  by rewrite !split_prefix.
Qed.

Lemma nonempty_with_colon prefix rest : nonempty (prefix +:+ ":" +:+ rest) = true.
Proof. by destruct prefix. Qed.

(** X22. For an API key of the form prefix:id:secret, where neither
    prefix nor id has a colon, the service id is id: whether the key comes
    from the [engine] option or, when the option has none, from
    ENGINE_API_KEY. *)
Theorem service_id_is_the_second_segment envKey prefix id secret :
  occurs colon prefix = false →
  occurs colon id = false →
  let key := prefix +:+ ":" +:+ id +:+ ":" +:+ secret in
  getEngineServiceId envKey (EngineObject (mkEngineReportingOptions (Some key)))
  = Some id
  ∧ getEngineServiceId (Some key) EngineUndefined = Some id
  ∧ getEngineServiceId (Some key) (EngineBoolean true) = Some id
  ∧ getEngineServiceId (Some key) (EngineObject (mkEngineReportingOptions None))
    = Some id.
Proof.
  intros Hp Hid key.
  assert (Hkey : nonempty key = true) by apply nonempty_with_colon.
  assert (Hsecond : take 2 (split colon key) !! 1%nat = Some id)
    by (by apply second_piece).
  unfold getEngineServiceId.
  cbn [default from_option Datatypes.id negb orb andb].
  rewrite !Hkey. cbn [negb orb andb]. by rewrite ?Hkey, ?Hsecond.
Qed.

Lemma take_2_second {A} (l : list A) x : take 2 l !! 1%nat = Some x → l !! 1%nat = Some x.
Proof. by destruct l as [|? [|? ?]]. Qed.

(** X23. [engine: false] gives no service id whatever ENGINE_API_KEY
    holds; a non-empty [apiKey] in the option is used whatever
    ENGINE_API_KEY holds; and a service id never has a colon. *)
Theorem engine_service_id_is_guarded envKey :
  getEngineServiceId envKey (EngineBoolean false) = None
  ∧ (∀ key,
       nonempty key = true →
       getEngineServiceId envKey
         (EngineObject (mkEngineReportingOptions (Some key)))
       = take 2 (split colon key) !! 1%nat)
  ∧ (∀ engine id,
       getEngineServiceId envKey engine = Some id → occurs colon id = false).
Proof.
  split_and!.
  - reflexivity.
  - intros key Hkey. unfold getEngineServiceId. cbn [negb orb andb].
    by rewrite !Hkey.
  - intros engine id. unfold getEngineServiceId.
    intros Hid.
    assert (∃ key, take 2 (split colon key) !! 1%nat = Some id) as [key Hkey].
    { repeat match type of Hid with
             | context [if ?b then _ else _] => destruct b
             | context [match ?x with _ => _ end] => destruct x
             end; try discriminate; eauto. }
    apply take_2_second, list_elem_of_lookup_2 in Hkey.
    pose proof (split_pieces colon key) as Hall.
    rewrite Forall_forall in Hall. by apply Hall.
Qed.
End EngineProperties.

(** ** The server's options *)
Section ServerOptions.
Context {C : Type} `{KeyValueCache C}.
Variable env : Env.
Variable P :
  GraphQLRequestProcessorOptions → option WillExecuteOperation →
  ProcessorRequest → M C GraphQLResponse.

(** X24. When the server's context function throws,
    [graphQLServerOptions] still yields options, and it is the single
    request run with them that fails, with "Context creation failed: " put
    before the message: status 400 when the error carries a code other
    than INTERNAL_SERVER_ERROR, 500 otherwise. *)
Theorem context_error_is_deferred_to_the_request this arg create e request
    isGet (w : World C) :
  server_context this = Some (ServerContextFunction create) →
  create (default (JObj []) arg) = inl e →
  let o := graphQLServerOptions this arg in
  options request = inr o →
  accepted request isGet →
  Array_isArray (http_query request) = false →
  params_ok env isGet (http_query request) →
  let e' := with_message ("Context creation failed: " +:+ message e) e in
  runHttpQuery env P request w =
  (Throw (HttpQueryError (if code_is_not_internal e then 400 else 500)
            (prettyJSONStringify env
               (JsonErrors
                  (map Error
                     (formatApolloErrors env [Error e']
                        (format_options (with_default_debug env o))))))
            true (Some [("Content-Type", "application/json")])),
   with_trace
     (trace w ++ [EvContextFunction;
                  EvConsoleLog (log_line (with_default_debug env o))]) w).
Proof.
  intros Hctx Hcreate o Ho Hacc Hsingle Hparams e'.
  assert (Hthrows : opt_context o = ContextFunction (inl e)).
  { subst o. unfold graphQLServerOptions. cbn [opt_context].
    by rewrite Hctx, Hcreate. }
  assert (Hthrows' :
    opt_context (with_default_debug env o) = ContextFunction (inl e))
    by (by rewrite with_default_debug_context).
  pose proof (member_prepare_context_failure env (with_default_debug env o)
                isGet (http_query request) e w Hparams Hthrows') as Hprep.
  rewrite (run_single_prepare_Throw env P request o isGet _ _ w Ho Hacc Hsingle
             Hprep eq_refl).
  cbn [trace with_trace]. by rewrite <- app_assoc.
Qed.
End ServerOptions.

(** ** Conditional fetches and manifest locations *)
Section FetchProperties.
Import OperationRegistry.

Lemma strip_trailing_slash_snoc s : strip_trailing_slash (s +:+ "/") = s.
Proof.
  induction s as [|c rest IH]; [done|].
  change (String c rest +:+ "/") with (String c (rest +:+ "/")).
  cbn [strip_trailing_slash].
  destruct (String.eqb_spec (String c (rest +:+ "/")) "/") as [Heq|Hne].
  - injection Heq as -> Hrest. by destruct rest.
  - by rewrite IH.
Qed.

Lemma fetchIfNoneMatch_request fetch url opts s :
  let init :=
    mkRequestInit
      (Some match previousEtag_of (urlCachedResponseMap s !! url) with
            | Some etag =>
                assign_header "If-None-Match" etag
                  (default [] (opts ≫= init_headers))
            | None => default [] (opts ≫= init_headers)
            end)
      (default [] (init_other <$> opts)) in
  fetched (snd (fetchIfNoneMatch fetch url opts s)) = fetched s ++ [(url, init)].
Proof.
  cbv zeta. unfold fetchIfNoneMatch.
  repeat match goal with
         | |- context [match ?x with _ => _ end] =>
             lazymatch x with
             | previousEtag_of _ => fail
             | _ => destruct x
             end
         end; reflexivity.
Qed.

(** X25. A call of [fetchIfNoneMatch] makes exactly one request, to its
    own url and with the caller's options: with [If-None-Match] set to the
    cached response's etag when there is one, with the caller's headers as
    they are otherwise. The cached responses of other urls are left
    alone. *)
Theorem one_conditional_request_per_call fetch url opts s :
  let out := fetchIfNoneMatch fetch url opts s in
  (∃ init,
     fetched (snd out) = fetched s ++ [(url, init)]
     ∧ init_other init = default [] (init_other <$> opts)
     ∧ match previousEtag_of (urlCachedResponseMap s !! url) with
       | Some etag =>
           (init_headers init ≫= assoc "If-None-Match") = Some etag
       | None => init_headers init = Some (default [] (opts ≫= init_headers))
       end)
  ∧ (∀ other, other ≠ url →
       urlCachedResponseMap (snd out) !! other = urlCachedResponseMap s !! other).
Proof.
  intros out. split.
  - eexists. split; [apply fetchIfNoneMatch_request|]. split; [done|].
    cbn [init_headers].
    destruct (previousEtag_of _); [|done].
    cbn. apply assoc_assign_header.
  - intros other Hne. subst out. unfold fetchIfNoneMatch.
    repeat match goal with
           | |- context [match ?x with _ => _ end] => destruct x
           end; cbn [snd urlCachedResponseMap]; try done.
    all: by rewrite lookup_insert_ne.
Qed.

(** X26. After a fetch that succeeded, a fetch of the same url that is
    answered 304 returns the response of the first, flagged as cached, and
    the cache still holds it. *)
Theorem cached_response_is_served_on_304 fetch1 fetch2 url opts1 opts2 r r304 s :
  (∀ init, fetch1 url init = Ok r) →
  res_status r ≠ 304%Z →
  res_ok r = true →
  (∀ init, fetch2 url init = Ok r304) →
  res_status r304 = 304%Z →
  let first := fetchIfNoneMatch fetch1 url opts1 s in
  let second := fetchIfNoneMatch fetch2 url opts2 (snd first) in
  fst first = Ok (r, false)
  ∧ fst second = Ok (r, true)
  ∧ urlCachedResponseMap (snd second) = <[url := r]> (urlCachedResponseMap s).
Proof.
  intros Hfetch1 Hstatus Hok Hfetch2 H304 first second.
  assert (Hfirst : first = (Ok (r, false),
    mkFetchState (<[url := r]> (urlCachedResponseMap s)) (debug_log s)
      (fetched (snd first)))).
  { subst first. unfold fetchIfNoneMatch. rewrite Hfetch1.
    destruct (Z.eqb_spec (res_status r) 304); [done|]. by rewrite Hok. }
  subst second. rewrite Hfirst. cbn [fst snd]. split; [done|].
  unfold fetchIfNoneMatch. rewrite Hfetch2, H304.
  cbn [urlCachedResponseMap Z.eqb Pos.eqb]. by rewrite lookup_insert_eq.
Qed.

(** X27. A fetch answered with a failure status throws an error that
    quotes the url and the body; a fetch answered 304 when nothing is
    cached for the url throws a TypeError. Either way the cache is as it
    was. *)
Theorem failed_fetch_keeps_the_cache fetch url opts r s :
  (∀ init, fetch url init = Ok r) →
  (res_status r ≠ 304%Z ∧ res_ok r = false)
  ∨ (res_status r = 304%Z ∧ urlCachedResponseMap s !! url = None) →
  let out := fetchIfNoneMatch fetch url opts s in
  urlCachedResponseMap (snd out) = urlCachedResponseMap s
  ∧ fst out =
    Throw (if (res_status r =? 304)%Z
           then TypeError "Cannot read property 'clone' of undefined"
           else Error (mkGraphQLError
                         ("Fetching " +:+ url +:+ " failed with "
                          +:+ res_text r)
                         None None)).
Proof.
  intros Hfetch Hfail out. subst out.
  unfold fetchIfNoneMatch. rewrite Hfetch.
  destruct Hfail as [[Hne Hok]|[H304 Hnone]].
  - destruct (Z.eqb_spec (res_status r) 304); [done|]. by rewrite Hok.
  - rewrite H304, Hnone. done.
Qed.

(** X28. When APOLLO_OPERATION_MANIFEST_BASE_URL is set, to whatever
    non-empty value, the operation manifest is located under the fake test
    host, without a double slash, the schema tag defaulting to
    [current]. *)
Theorem override_value_is_never_used process_env value graphId storageSecret
    schemaTag :
  process_env !! envOverrideOperationManifest = Some value →
  value ≠ EmptyString →
  getOperationManifestUrl process_env graphId storageSecret schemaTag
  = "https://myfakehost/" +:+ graphId +:+ "/" +:+ storageSecret +:+ "/"
    +:+ default "current" schemaTag +:+ "/manifest.v2.json".
Proof.
  intros Hset Hvalue.
  unfold getOperationManifestUrl, urlOperationManifestBase, overridden_or_test.
  rewrite Hset. unfold nonempty.
  destruct (String.eqb_spec value EmptyString); [done|]. reflexivity.
Qed.

End FetchProperties.

(** ** Type extensions *)
Section FederationProperties.
Import Federation.
Variable logServiceAndType : string → string → string.

Lemma lookup_kind_type_definition k :
  is_Some (lookup_kind k defKindToExtKind) ↔ isTypeDefinitionNode k = true.
Proof.
  destruct k; cbn; split; try done; try (by intros [? ?]); by eexists.
Qed.

(** X29. The three kind tables agree: the extension kind of a schema
    type is the table's entry for its definition kind, the table has an
    entry exactly for the kinds of type definitions, and every entry comes
    from a schema type. *)
Theorem extension_kinds_agree :
  (∀ type,
     lookup_kind (typeToKind type) defKindToExtKind = Some (typeToExtKind type))
  ∧ (∀ k, is_Some (lookup_kind k defKindToExtKind)
          ↔ isTypeDefinitionNode k = true)
  ∧ (∀ k e, lookup_kind k defKindToExtKind = Some e →
            ∃ type, k = typeToKind type ∧ e = typeToExtKind type).
Proof.
  split_and!.
  - by intros [].
  - apply lookup_kind_type_definition.
  - intros [] e; cbn; intros [= <-];
      first [ by exists ScalarType | by exists ObjectType
            | by exists InterfaceType | by exists UnionType
            | by exists EnumType | by exists InputObjectType ].
Qed.

Lemma definedTypes_of_lookup context typeName :
  definedTypes_of context !! typeName = base_definition context typeName.
Proof.
  unfold definedTypes_of, base_definition.
  induction (getDocument context) as [|def defs IH] using rev_ind; [done|].
  rewrite foldl_app, filter_app, last_app. cbn [foldl].
  rewrite filter_cons, filter_nil.
  destruct (isTypeDefinitionNode (kind def)) eqn:Hk.
  - destruct (decide (node_name def = typeName)) as [<-|Hne].
    + rewrite lookup_insert_eq.
      destruct (decide _) as [_|Hn]; [done|]. by destruct Hn.
    + rewrite lookup_insert_ne by done.
      destruct (decide _) as [[_ ?]|_]; [done|]. by rewrite IH.
  - destruct (decide _) as [[? _]|_]; [done|]. by rewrite IH.
Qed.

Lemma base_definition_is_type_definition context typeName def :
  base_definition context typeName = Some def →
  isTypeDefinitionNode (kind def) = true ∧ node_name def = typeName.
Proof.
  unfold base_definition. intros Hlast.
  apply last_Some_elem_of in Hlast.
  by apply list_elem_of_filter in Hlast as [? _].
Qed.

(** X30. For an extension that carries a service name, nothing is
    reported exactly when its base (the last type definition of that name
    in the document or, when the document has none, the schema's type of
    that name) calls for an extension of its kind; without a base
    EXTENSION_WITH_NO_BASE is reported, with a base of another kind one
    EXTENSION_OF_WRONG_KIND. *)
Theorem extension_is_checked_against_its_base context node service :
  serviceName node = Some service →
  service ≠ EmptyString →
  let typeName := node_name node in
  let reported := checkExtension logServiceAndType context node in
  (reported = [] ↔ expected_extension context typeName = Some (kind node))
  ∧ (expected_extension context typeName = None ↔
     base_definition context typeName = None
     ∧ (getSchema context ≫= (.!! typeName)) = None)
  ∧ (expected_extension context typeName = None →
     reported = [no_base logServiceAndType service typeName])
  ∧ (∀ expected,
       expected_extension context typeName = Some expected →
       expected ≠ kind node →
       ∃ error, reported = [error]
                ∧ error_code error = "EXTENSION_OF_WRONG_KIND").
Proof.
  intros Hservice Hne typeName reported. subst reported.
  unfold checkExtension, expected_extension. fold typeName.
  rewrite Hservice, definedTypes_of_lookup.
  assert (Hn : nonempty service = true).
  { unfold nonempty. by destruct (String.eqb_spec service EmptyString). }
  rewrite Hn. cbn [negb].
  destruct (base_definition context typeName) as [def|] eqn:Hbase.
  - apply base_definition_is_type_definition in Hbase as [Hdef _].
    destruct (proj2 (lookup_kind_type_definition (kind def)) Hdef)
      as [expected Hexpected].
    rewrite Hexpected.
    destruct (decide (expected = kind node)) as [<-|Hk].
    + rewrite bool_decide_eq_false_2 by (by intros []).
      repeat split; intros; destruct_and?; simplify_eq; done.
    + rewrite bool_decide_eq_true_2 by congruence.
      repeat split; intros; destruct_and?; simplify_eq; try done.
      eexists. by split.
  - destruct (getSchema context ≫= (.!! typeName)) as [type|] eqn:Htype;
      cbn [fmap option_fmap option_map].
    + destruct (decide (typeToExtKind type = kind node)) as [<-|Hk].
      * rewrite bool_decide_eq_false_2 by (by intros []).
        repeat split; intros; destruct_and?; simplify_eq; done.
      * rewrite bool_decide_eq_true_2 by done.
        repeat split; intros; destruct_and?; simplify_eq; try done.
        eexists. by split.
    + repeat split; intros; destruct_and?; simplify_eq; done.
Qed.
End FederationProperties.

(** * The statements at concrete requests *)

Import Examples HttpExamples.

Lemma empty_persisted_text_is_a_miss_witness :
  let w := Demo.world (<["apq:sha256:{ testString }" := EmptyString]> ∅) true in
  fst (processRequest Demo.env Demo.config lookup_testString w)
  = Throw PersistedQueryNotFoundError.
Proof.
  intros w.
  refine (f_equal fst
    (proj1 (empty_persisted_text_is_a_miss Demo.env Demo.config
              lookup_testString w (mkPersistedQuery 1 hash_of_testString)
              (Some EmptyString) _ _ _ _ _ _) _)).
  - left. reflexivity.
  - reflexivity.
  - eexists. reflexivity.
  - reflexivity.
  - reflexivity.
  - vm_compute. reflexivity.
  - right. reflexivity.
Defined.

(** C4, as stated, fails on the message: the error thrown on a mismatch
    does not read "provided hash does not match query". *)
Lemma hash_mismatch_message_counterexample :
  let r := processRequest Demo.env Demo.config mismatched (Demo.world ∅ true) in
  fst r = Throw (InvalidGraphQLRequestError "provided sha does not match query")
  ∧ fst r
    ≠ Throw (InvalidGraphQLRequestError "provided hash does not match query").
Proof. vm_compute. split; [reflexivity|discriminate]. Qed.

Lemma hash_mismatch_is_invalid_request_witness :
  ∃ w',
    processRequest Demo.env Demo.config mismatched (Demo.world ∅ true)
    = (Throw (InvalidGraphQLRequestError "provided sha does not match query"), w')
    ∧ pq_cache w' = pq_cache (Demo.world ∅ true)
    ∧ inflight w' = inflight (Demo.world ∅ true)
    ∧ console w' = console (Demo.world ∅ true).
Proof.
  apply (hash_mismatch_is_invalid_request Demo.env Demo.config mismatched
           (Demo.world ∅ true) (mkPersistedQuery 1 "0000") "{ testString }").
  - left. reflexivity.
  - reflexivity.
  - eexists. reflexivity.
  - reflexivity.
  - reflexivity.
  - vm_compute. discriminate.
Defined.

(** C2, as stated, fails for the empty query text: it is registered and
    stored, the lookup then fails with [PersistedQueryNotFoundError], and
    the literal request fails with another error. *)
Lemma apq_round_trip_empty_query_counterexample :
  let w1 :=
    settle (snd (processRequest Demo.env Demo.config register_empty
                   (Demo.world ∅ true))) in
  Demo.entries (pq_cache w1) !! "apq:sha256:" = Some EmptyString
  ∧ fst (processRequest Demo.env Demo.config lookup_empty w1)
    = Throw PersistedQueryNotFoundError
  ∧ fst (processRequest Demo.env Demo.config literal_empty w1)
    = Throw (InvalidGraphQLRequestError "Must provide query string.")
  ∧ fst (processRequest Demo.env Demo.config lookup_empty w1)
    ≠ fst (processRequest Demo.env Demo.config literal_empty w1).
Proof. vm_compute. split_and!; [reflexivity|reflexivity|reflexivity|discriminate]. Qed.

Lemma apq_round_trip_witness :
  let w1 :=
    settle (snd (processRequest Demo.env Demo.config register_testString
                   (Demo.world ∅ true))) in
  fst (processRequest Demo.env Demo.config lookup_testString w1)
  = fst (processRequest Demo.env Demo.config literal_testString
           (Demo.world ∅ false)).
Proof.
  apply (apq_round_trip Demo.env Demo.config (Demo.requestContext
           (mkRequest None None None None None)) None None None
           (mkExtensions (Some (mkPersistedQuery 1 hash_of_testString)) [])
           None "{ testString }" (Demo.world ∅ true) (Demo.world ∅ false)).
  - discriminate.
  - reflexivity.
  - reflexivity.
  - eexists. reflexivity.
  - left. reflexivity.
  - intros a a' rest. split; [reflexivity|]. intros r. reflexivity.
  - intros plugin factory Hin. inversion Hin.
  - vm_compute. reflexivity.
Defined.

Lemma register_write_is_fire_and_forget_witness :
  let w := Demo.world ∅ false in
  let key := "apq:sha256:{ testString }" in
  let w' := snd (processRequest Demo.env Demo.config register_testString w) in
  (pq_cache w' = cache_set_call (pq_cache w) key "{ testString }"
   ∧ inflight w' = inflight w ++ [(key, "{ testString }")]
   ∧ console w' = console w)
  ∧ (∀ w2 : World Demo.Store,
       fst (processRequest Demo.env Demo.config register_testString w2)
       = fst (processRequest Demo.env Demo.config register_testString w))
  ∧ (∀ e, cache_set (pq_cache w') key "{ testString }" = Throw e →
       settle_one (key, "{ testString }") w' = with_console (console w' ++ [e]) w').
Proof.
  apply (register_write_is_fire_and_forget Demo.env Demo.config
           register_testString (Demo.world ∅ false)
           (mkPersistedQuery 1 hash_of_testString) "{ testString }").
  - left. reflexivity.
  - reflexivity.
  - eexists. reflexivity.
  - reflexivity.
  - reflexivity.
  - reflexivity.
Defined.

(** C1, as stated, fails when the persisted-query block fails: the
    invocation completes by throwing, and neither the listener's
    [willSendResponse] nor any call on the extension stack was made. *)
Lemma resolve_query_failure_is_not_drained :
  let r := processRequest Demo.env Demo.observed no_query (Demo.world ∅ true) in
  is_Some (method Demo.observer willSendResponse)
  ∧ fst r = Throw (InvalidGraphQLRequestError "Must provide query string.")
  ∧ trace (snd r) = []
  ∧ ext_calls (snd r) = [].
Proof. vm_compute. split_and!; try reflexivity. eexists. reflexivity. Qed.

(** The demo's graphql-js and extension stack never throw. *)
Lemma demo_returning config stack :
  formatResponse config = None → returning Demo.env config stack.
Proof.
  intros Hnone. split_and!.
  - intros document. unfold Demo.env, graphql_validate, Demo.demo_validate.
    destruct (definitions document) as [|op [|]]; [by eexists| |by eexists].
    destruct (String.eqb (selection op) "{ unknownField }"); by eexists.
  - intros calls. by eexists.
  - intros format response context Hformat. congruence.
  - intros calls response. by eexists.
Defined.

Lemma observer_quiet (rc : GraphQLRequestContext) :
  quiet (new_Dispatcher (requestListeners_of Demo.observed rc)).
Proof.
  intros i l h hook rc' Hin Hm.
  apply list_elem_of_singleton in Hin. injection Hin as -> ->.
  destruct h; injection Hm as <-; eexists; reflexivity.
Defined.

Lemma response_is_drained_once_query_is_resolved_witness :
  (∃ sent w' es,
     processRequest Demo.env Demo.observed literal_testString (Demo.world ∅ true)
     = (Ok sent, w')
     ∧ trace w' = [] ++ es
     ∧ drained [(0, Demo.observer)]
         (requestDidStart_args (initialized Demo.observed literal_testString)
            (mkResolved "{ testString }" false false)) es)
  ∧ (∃ w' es,
       processRequest MoreExamples.crashing Demo.observed literal_testString
         (Demo.world ∅ true)
       = (Throw MoreExamples.validator_failure, w')
       ∧ trace w' = [] ++ es
       ∧ EvExt XRequestDidEnd ∈ es
       ∧ no_willSendResponse es).
Proof.
  split.
  - refine (proj1 (response_is_drained_once_query_is_resolved Demo.env
                     Demo.observed literal_testString (Demo.world ∅ true) _ _)
              _ (mkResolved "{ testString }" false false) (Demo.world ∅ true) _).
    + left. reflexivity.
    + apply observer_quiet.
    + by apply demo_returning.
    + reflexivity.
  - refine (proj2 (proj2 (response_is_drained_once_query_is_resolved
                            MoreExamples.crashing Demo.observed
                            literal_testString (Demo.world ∅ true) _ _))
              (mkResolved "{ testString }" false false) (Demo.world ∅ true)
              (mkDocument [Demo.testString]) MoreExamples.validator_failure
              _ _ _).
    + left. reflexivity.
    + apply observer_quiet.
    + reflexivity.
    + reflexivity.
    + reflexivity.
Defined.

(** C8, as stated, fails at [{query: 0}]: the query is present and is
    not a string, the check lets it through, and the request processor is
    run on it. *)
Lemma falsy_non_string_query_counterexample :
  let r := runHttpQuery Demo.env processor (post zero_query) (Demo.world ∅ true) in
  member_prepare Demo.env defaults false zero_query (Demo.world ∅ true)
  = (Ok (mkPrepared (JNum 0) JUndefined JUndefined JUndefined ∅),
     Demo.world ∅ true)
  ∧ EvProcessRequest
      (mkProcessorRequest (JNum 0) JUndefined JUndefined JUndefined (JObj []))
    ∈ trace (snd r)
  ∧ fst r ≠ Throw (HttpQueryError 400 "GraphQL queries must be strings." false None).
Proof.
  vm_compute. split_and!; [reflexivity|left|discriminate].
Qed.

Lemma truthy_non_string_query_is_rejected_witness :
  runHttpQuery Demo.env processor (post numeric_query) (Demo.world ∅ true) =
  (Throw (HttpQueryError 400 "GraphQL queries must be strings." false None),
   with_trace [EvConsoleLog "debug: false, formatError: undefined"]
     (Demo.world ∅ true)).
Proof.
  apply (truthy_non_string_query_is_rejected Demo.env processor
           (post numeric_query) Demo.options false (JNum 5) (Demo.world ∅ true)).
  - reflexivity.
  - split; [left; split; reflexivity|reflexivity].
  - reflexivity.
  - reflexivity.
  - reflexivity.
  - reflexivity.
  - discriminate.
Defined.

(** C10, as stated, fails for a member of a batch: [runHttpQuery] does
    not fail, it answers with the array. *)
Lemma batched_invalid_variables_counterexample :
  let r :=
    runHttpQuery Demo.env processor (post (JArr [bad_variables]))
      (Demo.world ∅ true) in
  fst r
  = Ok (mkHttpQueryResponse
          ("[{errors:[Variables are invalid JSON.]}]" +:+ newline)
          [("Content-Type", "application/json"); ("Content-Length", "41")])
  ∧ fst r
    ≠ Throw (HttpQueryError 400 "Variables are invalid JSON." false None).
Proof. vm_compute. split; [reflexivity|discriminate]. Qed.

Lemma string_variables_are_decoded_witness :
  let invalid := HttpQueryError 400 "Variables are invalid JSON." false None in
  let r := mkResponse (JObj [("testString", JStr "it works")]) None None None in
  let sent := strip_if (cacheControl_of defaults) r in
  let stringified := prettyJSONStringify Demo.env (JsonResponse sent) in
  runHttpQuery Demo.env processor (post bad_variables) (Demo.world ∅ true)
  = (Throw invalid,
     with_trace [EvConsoleLog "debug: false, formatError: undefined"]
       (Demo.world ∅ true))
  ∧ pr_variables echo_processed = JObj [("echo", JNum 1)]
  ∧ EvProcessRequest echo_processed ∈ trace (snd echo_run)
  ∧ runHttpQuery Demo.env processor (post echo_variables) (Demo.world ∅ true)
    = (Ok (mkHttpQueryResponse stringified
             (response_headers Demo.env (cacheControl_of defaults) [r]
                stringified)),
       snd echo_run).
Proof.
  intros invalid r sent stringified.
  destruct (string_variables_are_decoded Demo.env processor
              (post bad_variables) Demo.options false bad_variables "{"
              (Demo.world ∅ true)) as [Hbad _].
  { reflexivity. }
  { split; [left; split; reflexivity|reflexivity]. }
  { reflexivity. }
  { intros q [= <-] _. reflexivity. }
  { discriminate. }
  destruct (string_variables_are_decoded Demo.env processor
              (post echo_variables) Demo.options false echo_variables
              "{ echo: 1 }" (Demo.world ∅ true)) as [Hecho _].
  { reflexivity. }
  { split; [left; split; reflexivity|reflexivity]. }
  { reflexivity. }
  { intros q [= <-] _. reflexivity. }
  { discriminate. }
  destruct (proj2 (Hecho eq_refl) (JObj [("echo", JNum 1)]) ∅ eq_refl eq_refl
              (or_introl eq_refl)) as [Hvars Hrun].
  split_and!.
  - exact (proj1 (Hbad eq_refl) eq_refl).
  - exact Hvars.
  - vm_compute. repeat first [apply list_elem_of_here | apply list_elem_of_further].
  - apply (Hrun r (snd echo_run)); [vm_compute; reflexivity|left; reflexivity].
Defined.

Lemma single_result_status_witness :
  let r := mkResponse (JObj [("testString", JStr "it works")]) None None None in
  let sent := strip_if (local_cacheControl (snd single)) r in
  let stringified := prettyJSONStringify Demo.env (JsonResponse sent) in
  runHttpQuery Demo.env processor (post good) (Demo.world ∅ true) =
  (Ok (mkHttpQueryResponse stringified
         (response_headers Demo.env (local_cacheControl (snd single)) [r]
            stringified)),
   world (snd single)).
Proof.
  refine (proj2 (single_result_status Demo.env processor (post good)
                   Demo.options false _ (snd single) (Demo.world ∅ true)
                   _ _ _ _) _).
  - reflexivity.
  - split; [left; split; reflexivity|reflexivity].
  - reflexivity.
  - vm_compute. reflexivity.
  - left. reflexivity.
Defined.

Lemma good_params_ok : params_ok Demo.env false good.
Proof.
  eexists. split; [reflexivity|]. cbn. split_and!; [discriminate|reflexivity|discriminate].
Defined.

Lemma batch_members_are_isolated_witness :
  ∃ slot0 headers,
    runHttpQuery Demo.env processor (post (JArr [numeric_query; good]))
      (Demo.world ∅ true)
    = (Ok (mkHttpQueryResponse
             (prettyJSONStringify Demo.env
                (JsonResponses
                   [slot0;
                    mkResponse (JObj [("testString", JStr "it works")])
                      None None None]))
             headers),
       snd second_run)
    ∧ is_Some (errors slot0)
    ∧ fst second_run
      = Ok (mkResponse (JObj [("testString", JStr "it works")]) None None None)
    ∧ world after_first
      = with_trace [EvConsoleLog "debug: false, formatError: undefined"]
          (Demo.world ∅ true).
Proof.
  destruct (batch_members_are_isolated Demo.env processor
              (post (JArr [numeric_query; good])) Demo.options
              numeric_query good ∅
              (mkResponse (JObj [("testString", JStr "it works")]) None None None)
              (snd second_run) (Demo.world ∅ true))
    as (Hrun & Herrors & _ & Hleft).
  - reflexivity.
  - left. reflexivity.
  - reflexivity.
  - vm_compute. exact I.
  - exact good_params_ok.
  - reflexivity.
  - left. reflexivity.
  - vm_compute. reflexivity.
  - eexists _, _. split_and!; [exact Hrun|exact Herrors|reflexivity|].
    exact (proj2 (Hleft _ _ eq_refl)).
Defined.

Lemma get_mutation_is_method_not_allowed_witness :
  ∃ w' es,
    runHttpQuery Demo.env (GraphQLRequestProcessor.processRequest Demo.env)
      (get mutation) (Demo.world ∅ true)
    = (Throw (HttpQueryError 405 "GET supports only query operation" false
                (Some [("Allow", "POST")])),
       w')
    ∧ trace w' = trace (Demo.world ∅ true) ++ es
    ∧ no_execution es.
Proof.
  apply (get_mutation_is_method_not_allowed Demo.env (get mutation) Demo.options
           (mkPrepared (JStr "mutation { testMutation }") JUndefined JUndefined
              JUndefined ∅)
           (Demo.world ∅ true)
           (mkResolved "mutation { testMutation }" false false)
           (mkDocument [Demo.testMutation]) Demo.testMutation
           (Demo.world ∅ true)).
  - reflexivity.
  - reflexivity.
  - reflexivity.
  - reflexivity.
  - vm_compute. reflexivity.
  - vm_compute. reflexivity.
  - reflexivity.
  - reflexivity.
  - reflexivity.
  - discriminate.
Defined.

(** * The further statements at concrete inputs *)

Import MoreExamples OperationRegistry Federation.

Lemma method_and_payload_are_checked_witness :
  runHttpQuery Demo.env processor (put good) (Demo.world ∅ true) =
  (Throw (HttpQueryError 405 "Apollo Server supports only GET/POST requests."
            false (Some [("Allow", "GET, POST")])),
   Demo.world ∅ true)
  ∧ runHttpQuery Demo.env processor (post (JArr [])) (Demo.world ∅ true) =
    (Throw (HttpQueryError 500
              "POST body missing. Did you forget use body-parser middleware?"
              false None),
     Demo.world ∅ true).
Proof.
  split.
  - apply (method_and_payload_are_checked Demo.env processor (put good)
             Demo.options (Demo.world ∅ true)); [reflexivity| |]; discriminate.
  - apply (method_and_payload_are_checked Demo.env processor (post (JArr []))
             Demo.options (Demo.world ∅ true)); reflexivity.
Defined.

Lemma options_failure_is_500_witness :
  fst (runHttpQuery Demo.env processor broken_options (Demo.world ∅ true)) =
  Throw (HttpQueryError 500
           ("{errors:[Invalid options provided to ApolloServer: schema must be provided]}"
            +:+ newline)
           true (Some [("Content-Type", "application/json")])).
Proof.
  exact (f_equal fst
           (options_failure_is_500 Demo.env processor broken_options
              (mkGraphQLError "schema must be provided" None None)
              (Demo.world ∅ true) eq_refl)).
Defined.

Lemma failures_are_http_query_errors_witness :
  ∃ e, fst rejected_run = Throw e ∧ is_HttpQueryError e = true.
Proof.
  eexists. split; [reflexivity|].
  apply (failures_are_http_query_errors Demo.env processor (post numeric_query)
           (Demo.world ∅ true) (snd rejected_run)).
  vm_compute. reflexivity.
Defined.

Lemma success_carries_content_length_witness :
  ∃ sent,
    fst good_run = Ok sent
    ∧ graphqlResponse sent = "{data}" +:+ newline
    ∧ assoc "Content-Length" (responseInit sent) = Some "7".
Proof.
  eexists. split; [reflexivity|]. split; [reflexivity|].
  refine (proj1 (success_carries_content_length Demo.env processor (post good)
                   (Demo.world ∅ true) (snd good_run) _ _)).
  vm_compute. reflexivity.
Defined.

Lemma batch_always_answers_witness :
  ∃ slots headers w',
    runHttpQuery Demo.env processor (post (JArr [numeric_query; JNull; good]))
      (Demo.world ∅ true)
    = (Ok (mkHttpQueryResponse
             (prettyJSONStringify Demo.env (JsonResponses slots)) headers),
       w')
    ∧ length slots = 3%nat.
Proof.
  apply (batch_always_answers Demo.env processor
           (post (JArr [numeric_query; JNull; good])) Demo.options false
           [numeric_query; JNull; good] (Demo.world ∅ true)).
  - reflexivity.
  - split; [left; split; reflexivity|reflexivity].
  - reflexivity.
Defined.

Lemma member_failure_status_witness :
  fst (runHttpQuery Demo.env processor (post unknown_hash) (Demo.world ∅ true)) =
  Throw (HttpQueryError 200 ("{errors:[PersistedQueryNotFound]}" +:+ newline)
           true (Some [("Content-Type", "application/json")])).
Proof.
  refine (f_equal fst
    (proj1 (proj2
       (member_failure_status Demo.env processor (post unknown_hash)
          Demo.options false PersistedQueryNotFoundError (snd unknown_hash_run)
          (Demo.world ∅ true) _ _ _ _)) _)).
  - reflexivity.
  - split; [left; split; reflexivity|reflexivity].
  - reflexivity.
  - vm_compute. reflexivity.
  - right. reflexivity.
Defined.

Lemma context_failure_status_witness :
  fst (runHttpQuery Demo.env processor
         (request_with (with_context (ContextFunction (inl unauthenticated)))
            "POST" good)
         (Demo.world ∅ true)) =
  Throw (HttpQueryError 400
           ("{errors:[Context creation failed: no token]}" +:+ newline)
           true (Some [("Content-Type", "application/json")])).
Proof.
  refine (f_equal fst
    (context_failure_status Demo.env processor
       (request_with (with_context (ContextFunction (inl unauthenticated)))
          "POST" good)
       (with_context (ContextFunction (inl unauthenticated))) false
       unauthenticated (Demo.world ∅ true) _ _ _ _ _)).
  - reflexivity.
  - split; [left; split; reflexivity|reflexivity].
  - reflexivity.
  - exact good_params_ok.
  - reflexivity.
Defined.

Lemma context_with_dataSources_is_rejected_witness :
  ∃ msg,
    runHttpQuery Demo.env processor (request_with with_dataSources "POST" good)
      (Demo.world ∅ true) =
    (Throw (HttpQueryError 500 msg true
              (Some [("Content-Type", "application/json")])),
     with_trace [EvDataSourceInitialize "db";
                 EvConsoleLog "debug: false, formatError: undefined"]
       (Demo.world ∅ true)).
Proof.
  eexists.
  refine (context_with_dataSources_is_rejected Demo.env processor
            (request_with with_dataSources "POST" good) with_dataSources false
            (<["dataSources" := JObj []]> ∅) (Some [("db", mkDataSource true)])
            (Demo.world ∅ true) _ _ _ _ _ _ _).
  - reflexivity.
  - split; [left; split; reflexivity|reflexivity].
  - reflexivity.
  - exact good_params_ok.
  - reflexivity.
  - reflexivity.
  - eexists. reflexivity.
Defined.

Lemma get_extensions_must_be_json_witness :
  runHttpQuery Demo.env processor (get bad_extensions) (Demo.world ∅ true) =
  (Throw (HttpQueryError 400 "Extensions are invalid JSON." false None),
   with_trace [EvConsoleLog "debug: false, formatError: undefined"]
     (Demo.world ∅ true)).
Proof.
  apply (get_extensions_must_be_json Demo.env processor (get bad_extensions)
           Demo.options (JStr "{") (Demo.world ∅ true)); reflexivity.
Defined.

Lemma cacheControl_boolean_is_passthrough_witness :
  fst (runHttpQuery Demo.env processor (request_with proxy "POST" good)
         (Demo.world ∅ true)) =
  Ok (mkHttpQueryResponse ("{data}" +:+ newline)
        [("Content-Type", "application/json"); ("Content-Length", "7")]).
Proof.
  refine (f_equal fst
    (cacheControl_boolean_is_passthrough Demo.env processor
       (request_with proxy "POST" good) proxy false true prepared_good
       (Demo.world ∅ true)
       (mkResponse (JObj [("testString", JStr "it works")]) None None None)
       (snd proxy_run) (Demo.world ∅ true) _ _ _ _ _ _ _)).
  - reflexivity.
  - split; [left; split; reflexivity|reflexivity].
  - reflexivity.
  - reflexivity.
  - vm_compute. reflexivity.
  - vm_compute. reflexivity.
  - left. reflexivity.
Defined.

Lemma persisted_queries_need_a_cache_and_version_1_witness :
  processRequest Demo.env no_cache lookup_testString (Demo.world ∅ true)
  = (Throw PersistedQueryNotSupportedError, Demo.world ∅ true)
  ∧ processRequest Demo.env Demo.config version_2 (Demo.world ∅ true)
    = (Throw (InvalidGraphQLRequestError "Unsupported persisted query version"),
       Demo.world ∅ true).
Proof.
  split.
  - refine (proj1 (persisted_queries_need_a_cache_and_version_1 Demo.env
                     no_cache lookup_testString
                     (mkPersistedQuery 1 hash_of_testString)
                     (Demo.world ∅ true) _ _) _).
    + left. reflexivity.
    + reflexivity.
    + reflexivity.
  - refine (proj2 (persisted_queries_need_a_cache_and_version_1 Demo.env
                     Demo.config version_2 (mkPersistedQuery 2 "abc")
                     (Demo.world ∅ true) _ _) _ _).
    + left. reflexivity.
    + reflexivity.
    + eexists. reflexivity.
    + discriminate.
Defined.

Lemma registered_text_is_stored_once_settled_witness :
  let w1 :=
    settle (snd (processRequest Demo.env Demo.config register_testString
                   (Demo.world ∅ true))) in
  pq_cache w1
  = Demo.mkStore (<["apq:sha256:{ testString }" := "{ testString }"]> ∅) true
  ∧ inflight w1 = []
  ∧ console w1 = [].
Proof.
  apply (registered_text_is_stored_once_settled Demo.env Demo.config
           register_testString (Demo.world ∅ true)
           (mkPersistedQuery 1 hash_of_testString) "{ testString }").
  - left. reflexivity.
  - reflexivity.
  - eexists. reflexivity.
  - reflexivity.
  - reflexivity.
  - reflexivity.
  - reflexivity.
  - reflexivity.
Defined.

Lemma query_string_is_required_witness :
  processRequest Demo.env Demo.config literal_empty (Demo.world ∅ true)
  = (Throw (InvalidGraphQLRequestError "Must provide query string."),
     Demo.world ∅ true).
Proof.
  apply (query_string_is_required Demo.env Demo.config literal_empty
           (Demo.world ∅ true)).
  - left. reflexivity.
  - reflexivity.
  - right. reflexivity.
Defined.

Lemma dataSources_on_context_is_rejected_witness :
  processRequest Demo.env with_sources clashing (Demo.world ∅ true)
  = (Throw dataSources_clash,
     with_trace [EvDataSourceInitialize "db"] (Demo.world ∅ true)).
Proof.
  apply (dataSources_on_context_is_rejected Demo.env with_sources clashing
           [("db", mkDataSource true); ("files", mkDataSource false)]
           (Demo.world ∅ true)).
  - reflexivity.
  - eexists. reflexivity.
Defined.

Lemma no_listeners (rc : GraphQLRequestContext) :
  quiet (new_Dispatcher (requestListeners_of Demo.config rc)).
Proof. intros i l h hook rc' Hin. inversion Hin. Defined.

Lemma syntax_error_is_answered_witness :
  let out :=
    processRequest Demo.env Demo.config (literal "{") (Demo.world ∅ true) in
  fst out
  = Ok (mkResponse JUndefined
          (Some [mkGraphQLError "Syntax Error" (Some "GRAPHQL_PARSE_FAILED") None])
          None None)
  ∧ ext_calls (snd out)
    = calls_after (literal "{")
        (parsed_calls (literal "{") (mkResolved "{" false false))
        (response_of
           (Some [mkGraphQLError "Syntax Error" (Some "GRAPHQL_PARSE_FAILED")
                    None])).
Proof.
  apply (syntax_error_is_answered Demo.env Demo.config (literal "{")
           (mkResolved "{" false false) syntax_error (Demo.world ∅ true)).
  - left. reflexivity.
  - apply no_listeners.
  - reflexivity.
  - reflexivity.
Defined.

Lemma validation_errors_are_answered_witness :
  fst (processRequest Demo.env Demo.config (literal "{ unknownField }")
         (Demo.world ∅ true))
  = Ok (mkResponse JUndefined
          (Some [mkGraphQLError "Cannot query field unknownField"
                   (Some "GRAPHQL_VALIDATION_FAILED") None])
          None None).
Proof.
  refine (proj1
    (validation_errors_are_answered Demo.env Demo.config
       (literal "{ unknownField }")
       (mkResolved "{ unknownField }" false false) unknown_field
       [mkGraphQLError "Cannot query field unknownField" None None]
       (Demo.world ∅ true) _ _ _ _ _ _)).
  - left. reflexivity.
  - apply no_listeners.
  - reflexivity.
  - reflexivity.
  - reflexivity.
  - discriminate.
Defined.

Lemma execution_error_is_answered_witness :
  let out :=
    processRequest failing Demo.config literal_testString (Demo.world ∅ true) in
  fst out
  = Ok (mkResponse JUndefined
          (Some [mkGraphQLError "resolver failed"
                   (Some "INTERNAL_SERVER_ERROR") None])
          None None)
  ∧ last (ext_calls (snd out)) = Some XRequestDidEnd.
Proof.
  destruct (execution_error_is_answered failing Demo.config literal_testString
              (mkResolved "{ testString }" false false)
              (mkDocument [Demo.testString]) resolver_failure
              (Demo.world ∅ true)) as [Hsent Hcalls].
  - left. reflexivity.
  - apply no_listeners.
  - reflexivity.
  - reflexivity.
  - reflexivity.
  - reflexivity.
  - split; [exact Hsent|]. cbv zeta. rewrite Hcalls. reflexivity.
Defined.

Lemma executed_result_is_formatted_then_sent_witness :
  let out :=
    processRequest Demo.env Demo.config literal_testString (Demo.world ∅ true) in
  let sent :=
    mkResponse (JObj [("testString", JStr "it works")]) None None None in
  fst out = Ok sent
  ∧ ext_calls (snd out)
    = executed_calls (initialized Demo.config literal_testString)
        (mkResolved "{ testString }" false false) (mkDocument [Demo.testString])
      ++ [XFormat; XWillSendResponse sent; XRequestDidEnd].
Proof.
  destruct (executed_result_is_formatted_then_sent Demo.env Demo.config
              literal_testString (mkResolved "{ testString }" false false)
              (mkDocument [Demo.testString])
              (mkExecutionResult (JObj [("testString", JStr "it works")]) None)
              (Demo.world ∅ true)) as [Hreturns _].
  - left. reflexivity.
  - apply no_listeners.
  - reflexivity.
  - reflexivity.
  - reflexivity.
  - reflexivity.
  - destruct (Hreturns
                (mkResponse (JObj [("testString", JStr "it works")]) None None
                   None) eq_refl) as [Hsent Hcalls].
    split; [exact Hsent|]. cbv zeta. rewrite Hcalls. reflexivity.
Defined.

Lemma request_is_closed_unless_parsingDidStart_throws_witness :
  let out :=
    processRequest Demo.env strict literal_testString (Demo.world ∅ true) in
  fst out = Throw resolver_failure
  ∧ ∃ calls,
      ext_calls (snd out)
      = XRequestDidStart
          (requestDidStart_args (initialized strict literal_testString)
             (mkResolved "{ testString }" false false))
        :: calls ++ [XRequestDidEnd].
Proof.
  split; [reflexivity|].
  destruct (request_is_closed_unless_parsingDidStart_throws Demo.env strict
              literal_testString (mkResolved "{ testString }" false false)
              (Demo.world ∅ true)) as [Hclosed _].
  - left. reflexivity.
  - reflexivity.
  - apply Hclosed. intros i l hook Hin Hm.
    apply elem_of_cons in Hin as [Heq|Hin]; [|by apply elem_of_nil in Hin].
    injection Heq as _ ->. discriminate Hm.
Defined.

Lemma service_id_is_the_second_segment_witness :
  getEngineServiceId None
    (EngineObject (mkEngineReportingOptions (Some "service:my-graph:0123abc")))
  = Some "my-graph"
  ∧ getEngineServiceId (Some "service:my-graph:0123abc") EngineUndefined
    = Some "my-graph".
Proof.
  destruct (service_id_is_the_second_segment None "service" "my-graph"
              "0123abc") as (Hoption & Henv & _); [reflexivity|reflexivity|].
  split; [exact Hoption|exact Henv].
Defined.

Lemma context_error_is_deferred_to_the_request_witness :
  fst (runHttpQuery Demo.env processor
         (request_with (graphQLServerOptions guarded None) "POST" good)
         (Demo.world ∅ true)) =
  Throw (HttpQueryError 400
           ("{errors:[Context creation failed: no token]}" +:+ newline)
           true (Some [("Content-Type", "application/json")])).
Proof.
  refine (f_equal fst
    (context_error_is_deferred_to_the_request Demo.env processor guarded None
       (λ _, inl unauthenticated) unauthenticated
       (request_with (graphQLServerOptions guarded None) "POST" good) false
       (Demo.world ∅ true) _ _ _ _ _ _)).
  - reflexivity.
  - reflexivity.
  - reflexivity.
  - split; [left; split; reflexivity|reflexivity].
  - reflexivity.
  - exact good_params_ok.
Defined.

Lemma cached_response_is_served_on_304_witness :
  let first :=
    fetchIfNoneMatch (λ _ _, Ok manifest) "https://myfakehost/m.json" None
      nothing_fetched in
  let second :=
    fetchIfNoneMatch (λ _ _, Ok not_modified) "https://myfakehost/m.json" None
      (snd first) in
  fst first = Ok (manifest, false)
  ∧ fst second = Ok (manifest, true)
  ∧ urlCachedResponseMap (snd second)
    = <["https://myfakehost/m.json" := manifest]> ∅.
Proof.
  apply (cached_response_is_served_on_304 (λ _ _, Ok manifest)
           (λ _ _, Ok not_modified) "https://myfakehost/m.json" None None
           manifest not_modified nothing_fetched).
  - reflexivity.
  - discriminate.
  - reflexivity.
  - reflexivity.
  - reflexivity.
Defined.

Lemma failed_fetch_keeps_the_cache_witness :
  let out :=
    fetchIfNoneMatch (λ _ _, Ok forbidden) "https://myfakehost/m.json" None
      nothing_fetched in
  urlCachedResponseMap (snd out) = ∅
  ∧ fst out
    = Throw (Error (mkGraphQLError
                      "Fetching https://myfakehost/m.json failed with Forbidden"
                      None None)).
Proof.
  apply (failed_fetch_keeps_the_cache (λ _ _, Ok forbidden)
           "https://myfakehost/m.json" None forbidden nothing_fetched).
  - reflexivity.
  - left. split; [discriminate|reflexivity].
Defined.

Lemma override_value_is_never_used_witness :
  getOperationManifestUrl
    (<["APOLLO_OPERATION_MANIFEST_BASE_URL" := "https://example.com/manifests/"]> ∅)
    "graph" "secret" None
  = "https://myfakehost/graph/secret/current/manifest.v2.json".
Proof.
  apply (override_value_is_never_used
           (<["APOLLO_OPERATION_MANIFEST_BASE_URL" :=
                "https://example.com/manifests/"]> ∅)
           "https://example.com/manifests/" "graph" "secret" None).
  - reflexivity.
  - discriminate.
Defined.

Lemma extension_is_checked_against_its_base_witness :
  ∃ error,
    checkExtension (λ service type, "[" +:+ service +:+ "] " +:+ type +:+ " -> ")
      product_document extend_type_Product
    = [error]
    ∧ error_code error = "EXTENSION_OF_WRONG_KIND".
Proof.
  refine (proj2 (proj2 (proj2
    (extension_is_checked_against_its_base
       (λ service type, "[" +:+ service +:+ "] " +:+ type +:+ " -> ")
       product_document extend_type_Product "reviews" _ _)))
    INTERFACE_TYPE_EXTENSION _ _).
  - reflexivity.
  - discriminate.
  - reflexivity.
  - discriminate.
Defined.
